(** * SIR: the epidemic model of [source/SIR.py]

    A shallow embedding of the class [SIR] (constructor, vector field
    [__call__] on a state of Python numbers and on a float64 array,
    [solve] and [_calculate]) together with the part of the
    Python run time it executes on: the numeric tower [bool]/[int]/[float],
    the built-ins [sum], [int] and [isinstance], dictionary merging, and
    [numpy.linspace].

    Python [int] is unbounded and is modelled by [Z].  Python [float] is an
    IEEE 754 binary64 number and is modelled by [spec_float] with precision
    53 and maximal exponent 1024, rounding to nearest even.  Exceptions are
    modelled by an error monad.  Numbers of the type [numpy.float64], a
    subclass of [float] whose operators warn where Python raises, are
    modelled apart: the vector field on a float64 array, as [odeint]
    passes it, and the constructor on a [T] or [dt] of that type.

    [scipy.integrate.odeint] is not part of the program: the constructor
    takes the integrator as a parameter.

    The file has the definitions first (modules [Py], [Np], [SIR], a
    forward Euler integrator and the vector field of the specification),
    then the results: the configuration and the checks of the constructor
    and of [solve], rounding lemmas for binary64, the vector field, and the
    time grid; and, after those, further properties of the constructor
    (its outcomes, its errors, what a constructed simulator satisfies) and
    of the vector field (balance, signs, the state without infection),
    and the grid of a positive and of a negative step. *)

From Stdlib Require Import ZArith List Bool Lia.
From Stdlib Require Import Floats.SpecFloat.
From stdpp Require Import gmap strings.

Import ListNotations.
Local Open Scope Z_scope.

#[local] Set Warnings "-register-all".

(** ** Python run time *)

Module Py.

(** The exception classes the program can raise. *)
Inductive exn : Set :=
| TypeError
| ValueError
| KeyError
| ZeroDivisionError
| OverflowError.

Inductive result (A : Type) : Type :=
| Ok (a : A)
| Raise (e : exn).
Arguments Ok {A} a.
Arguments Raise {A} e.

Definition bind {A B : Type} (r : result A) (k : A -> result B) : result B :=
  match r with
  | Ok a => k a
  | Raise e => Raise e
  end.

Definition raises {A : Type} (r : result A) : Prop :=
  exists e, r = Raise e.

Definition returns {A : Type} (r : result A) : Prop :=
  exists a, r = Ok a.

(** *** binary64 *)

Definition prec : Z := 53.
Definition emax : Z := 1024.

Definition fopp : spec_float -> spec_float := SFopp.
Definition fadd : spec_float -> spec_float -> spec_float := SFadd prec emax.
Definition fsub : spec_float -> spec_float -> spec_float := SFsub prec emax.
Definition fmul : spec_float -> spec_float -> spec_float := SFmul prec emax.
Definition fdiv : spec_float -> spec_float -> spec_float := SFdiv prec emax.

Definition pzero : spec_float := S754_zero false.

Definition f_is_zero (f : spec_float) : bool :=
  match f with
  | S754_zero _ => true
  | _ => false
  end.

Definition f_is_nan (f : spec_float) : bool :=
  match f with
  | S754_nan => true
  | _ => false
  end.

(** A zero of either sign, or a positive number or infinity. *)
Definition f_nonnegative (f : spec_float) : bool :=
  match f with
  | S754_zero _ => true
  | S754_finite s _ _ | S754_infinity s => negb s
  | S754_nan => false
  end.

(** Neither an infinity nor a NaN. *)
Definition f_is_finite (f : spec_float) : bool :=
  match f with
  | S754_zero _ | S754_finite _ _ _ => true
  | _ => false
  end.

(** The nearest binary64 number to an integer, ties to even; the result is
    an infinity when the integer is out of range. *)
Definition round_int (z : Z) : spec_float :=
  binary_normalize prec emax z 0 false.

(** The nearest binary64 number to the quotient of two integers, [b] not
    zero. *)
Definition round_quotient (a b : Z) : spec_float :=
  match a with
  | 0 => S754_zero (b <? 0)
  | _ =>
      let '(q, e, l) := SFdiv_core_binary prec emax (Z.abs a) 0 (Z.abs b) 0 in
      binary_round_aux prec emax (xorb (a <? 0) (b <? 0)) q e l
  end.

(** *** The numeric tower *)

(** A number is an [int] (a [bool] counts as the [int] 0 or 1) or a
    [float]. *)
Inductive num : Set :=
| NInt (z : Z)
| NFloat (f : spec_float).

(** [float(z)]: raises [OverflowError] when [z] is too large. *)
Definition float_of_int (z : Z) : result spec_float :=
  match round_int z with
  | S754_infinity _ => Raise OverflowError
  | f => Ok f
  end.

(** The conversion the binary operators of [float] apply to an [int]
    operand. *)
Definition to_float (x : num) : result spec_float :=
  match x with
  | NInt z => float_of_int z
  | NFloat f => Ok f
  end.

Definition is_zero (x : num) : bool :=
  match x with
  | NInt z => z =? 0
  | NFloat f => f_is_zero f
  end.

(** A [float] is a binary64 number: its mantissa and exponent are in
    range and canonical. *)
Definition well_formed (x : num) : bool :=
  match x with
  | NInt _ => true
  | NFloat f => valid_binary prec emax f
  end.

(** [math.isfinite(x)] *)
Definition is_finite (x : num) : bool :=
  match x with
  | NInt _ => true
  | NFloat f => f_is_finite f
  end.

(** [math.isnan(x)] *)
Definition is_nan (x : num) : bool :=
  match x with
  | NInt _ => false
  | NFloat f => f_is_nan f
  end.

(** Lift a binary64 operation to mixed operands: both are converted, the
    left one first. *)
Definition float_op (op : spec_float -> spec_float -> spec_float)
    (x y : num) : result num :=
  bind (to_float x) (fun a =>
  bind (to_float y) (fun b =>
  Ok (NFloat (op a b)))).

(** [-x] *)
Definition neg (x : num) : num :=
  match x with
  | NInt z => NInt (- z)
  | NFloat f => NFloat (fopp f)
  end.

(** [x + y] *)
Definition add (x y : num) : result num :=
  match x, y with
  | NInt a, NInt b => Ok (NInt (a + b))
  | _, _ => float_op fadd x y
  end.

(** [x - y] *)
Definition sub (x y : num) : result num :=
  match x, y with
  | NInt a, NInt b => Ok (NInt (a - b))
  | _, _ => float_op fsub x y
  end.

(** [x * y] *)
Definition mul (x y : num) : result num :=
  match x, y with
  | NInt a, NInt b => Ok (NInt (a * b))
  | _, _ => float_op fmul x y
  end.

(** [x / y]: true division, always a [float].  Two [int]s give the
    correctly rounded quotient; otherwise both operands are converted
    first and the divisor is tested for zero afterwards. *)
Definition truediv (x y : num) : result num :=
  match x, y with
  | NInt a, NInt b =>
      if b =? 0 then Raise ZeroDivisionError
      else
        match round_quotient a b with
        | S754_infinity _ => Raise OverflowError
        | f => Ok (NFloat f)
        end
  | _, _ =>
      bind (to_float x) (fun a =>
      bind (to_float y) (fun b =>
      if f_is_zero b then Raise ZeroDivisionError
      else Ok (NFloat (fdiv a b))))
  end.

(** *** Comparison *)

(** The exact value of a number: Python compares an [int] with a [float]
    by value, without rounding the [int]. *)
Inductive xreal : Set :=
| XNaN
| XInf (negative : bool)
| XDyadic (m e : Z).   (* m * 2^e *)

Definition value_of (x : num) : xreal :=
  match x with
  | NInt z => XDyadic z 0
  | NFloat (S754_zero _) => XDyadic 0 0
  | NFloat (S754_finite s m e) => XDyadic (cond_Zopp s (Zpos m)) e
  | NFloat (S754_infinity s) => XInf s
  | NFloat S754_nan => XNaN
  end.

Definition dyadic_compare (m1 e1 m2 e2 : Z) : comparison :=
  let e := Z.min e1 e2 in
  (m1 * 2 ^ (e1 - e)) ?= (m2 * 2 ^ (e2 - e)).

(** [None] when an operand is a NaN: every ordering test is then false. *)
Definition compare (x y : num) : option comparison :=
  match value_of x, value_of y with
  | XNaN, _ | _, XNaN => None
  | XInf s1, XInf s2 =>
      Some (match s1, s2 with
            | true, false => Lt
            | false, true => Gt
            | _, _ => Eq
            end)
  | XInf s, XDyadic _ _ => Some (if s then Lt else Gt)
  | XDyadic _ _, XInf s => Some (if s then Gt else Lt)
  | XDyadic m1 e1, XDyadic m2 e2 => Some (dyadic_compare m1 e1 m2 e2)
  end.

(** [x > y] *)
Definition gt (x y : num) : bool :=
  match compare x y with
  | Some Gt => true
  | _ => false
  end.

(** [x >= y] *)
Definition ge (x y : num) : bool :=
  match compare x y with
  | Some Gt | Some Eq => true
  | _ => false
  end.

(** [x <= y] *)
Definition le (x y : num) : bool :=
  match compare x y with
  | Some Lt | Some Eq => true
  | _ => false
  end.

(** [x == y] *)
Definition eq (x y : num) : bool :=
  match compare x y with
  | Some Eq => true
  | _ => false
  end.

(** *** [int(x)] *)

(** Truncation toward zero; [int(nan)] raises [ValueError] and
    [int(inf)] raises [OverflowError]. *)
Definition int_of (x : num) : result Z :=
  match x with
  | NInt z => Ok z
  | NFloat (S754_zero _) => Ok 0
  | NFloat (S754_finite s m e) =>
      Ok (cond_Zopp s (if 0 <=? e then Zpos m * 2 ^ e
                       else Zpos m / 2 ^ (- e)))
  | NFloat (S754_infinity _) => Raise OverflowError
  | NFloat S754_nan => Raise ValueError
  end.

(** *** Objects *)

(** The objects the program is given: [None], the numeric tower,
    strings, tuples and lists.  A [VFloat] is a [float] of the built-in
    type itself; a number of the subclass [numpy.float64], whose operators
    do not raise, is not a [value]: the constructor on such a number is
    modelled apart, in the module [SIR]. *)
Inductive value : Type :=
| VNone
| VBool (b : bool)
| VInt (z : Z)
| VFloat (f : spec_float)
| VStr (s : string)
| VTuple (l : list value)
| VList (l : list value).

(** The number an object of type [bool], [int] or [float] stands for. *)
Definition as_num (v : value) : option num :=
  match v with
  | VBool b => Some (NInt (if b then 1 else 0))
  | VInt z => Some (NInt z)
  | VFloat f => Some (NFloat f)
  | _ => None
  end.

(** [isinstance(v, (int, float))]; [bool] is a subclass of [int]. *)
Definition isinstance_int_float (v : value) : bool :=
  match v with
  | VBool _ | VInt _ | VFloat _ => true
  | _ => false
  end.

(** [isinstance(v, (tuple, list))] *)
Definition isinstance_tuple_list (v : value) : bool :=
  match v with
  | VTuple _ | VList _ => true
  | _ => false
  end.

(** The items of a tuple or list, in order. *)
Definition items (v : value) : option (list value) :=
  match v with
  | VTuple l | VList l => Some l
  | _ => None
  end.

(** [acc + v] with a number on the left: a number on the right is added,
    and [None], a string, a tuple or a list on the right raises
    [TypeError]. *)
Definition add_value (acc : num) (v : value) : result num :=
  match as_num v with
  | Some x => add acc x
  | None => Raise TypeError
  end.

(** The built-in [sum(l)]: starts from the [int] 0 and adds the items from
    left to right, one [+] per item (the interpreters that the pinned
    numpy 1.20 and scipy 1.6 support, 3.7 to 3.9, do not compensate the
    rounding of a sum of [float]s). *)
Fixpoint sum_from (acc : num) (l : list value) : result num :=
  match l with
  | [] => Ok acc
  | v :: l' => bind (add_value acc v) (fun acc' => sum_from acc' l')
  end.

Definition sum (l : list value) : result num := sum_from (NInt 0) l.

(** A number as an object. *)
Definition of_num (x : num) : value :=
  match x with
  | NInt z => VInt z
  | NFloat f => VFloat f
  end.

End Py.

(** ** numpy *)

Module Np.
Import Py.

(** An argument is a Python object or a one-dimensional [ndarray] of
    binary64 numbers. *)
Inductive object : Type :=
| Obj (v : value)
| Ndarray (a : list spec_float).

Definition number_of (o : object) : option num :=
  match o with
  | Obj v => as_num v
  | Ndarray _ => None
  end.

(** [arange(0, num)] in binary64: the numbers 0.0, 1.0, ... *)
Definition arange (n : Z) : list spec_float :=
  map (fun i => round_int (Z.of_nat i)) (seq 0 (Z.to_nat n)).

(** [y[-1] = x] on a non-empty array. *)
Definition set_last (y : list spec_float) (x : spec_float)
    : list spec_float :=
  match y with
  | [] => []
  | _ :: _ => removelast y ++ [x]
  end.

(** [linspace(0, stop, num)] with the end point included, as numpy 1.20
    computes it: the indices are scaled by [step = (stop - 0.0) / (num - 1)]
    (or, when the step underflows to zero, divided by [num - 1] and
    scaled by [stop - 0.0]), the start is added, and the last sample is
    overwritten with [stop].  A negative [num] raises [ValueError]. *)
Definition linspace (stop : num) (n : Z) : result (list spec_float) :=
  if n <? 0 then Raise ValueError
  else
    bind (to_float stop) (fun stop =>
    let start := pzero in
    let delta := fsub stop start in
    let div := n - 1 in
    let y := arange n in
    let y :=
      if 0 <? div then
        let step := fdiv delta (round_int div) in
        if f_is_zero step
        then map (fun yi => fmul (fdiv yi (round_int div)) delta) y
        else map (fun yi => fmul yi step) y
      else map (fun yi => fmul yi delta) y in
    let y := map (fun yi => fadd yi start) y in
    Ok (if 1 <? n then set_last y stop else y)).

(** The built-in [sum(a)] on an array of binary64 numbers: the [int] 0
    that the sum starts from is converted where it meets the first item,
    and the additions are numpy's. *)
Definition ndarray_sum (a : list spec_float) : spec_float :=
  fold_left fadd a pzero.

End Np.

(** ** The class [SIR] *)

Module SIR.
Import Py Np.

(** The literal [0.1]. *)
Definition float_0_1 : spec_float :=
  S754_finite false 7205759403792794 (-56).

Definition default_kwargs : gmap string object :=
  <["N0" := Obj (VTuple [VInt 100; VInt 1; VInt 0])]>
  (<["T" := Obj (VInt 100)]>
  (<["dt" := Obj (VFloat float_0_1)]> ∅)).

(** [d[k]] *)
Definition getitem (d : gmap string object) (k : string) : result object :=
  match d !! k with
  | Some o => Ok o
  | None => Raise KeyError
  end.

Definition is_tuple_list (o : object) : bool :=
  match o with
  | Obj v => isinstance_tuple_list v
  | Ndarray _ => false
  end.

Definition is_int_float (o : object) : bool :=
  match o with
  | Obj v => isinstance_int_float v
  | Ndarray _ => false
  end.

(** [isinstance(o, (int, float, np.ndarray))] *)
Definition is_int_float_ndarray (o : object) : bool :=
  match o with
  | Obj v => isinstance_int_float v
  | Ndarray _ => true
  end.

Definition sequence_items (o : object) : option (list value) :=
  match o with
  | Obj v => items v
  | Ndarray _ => None
  end.

(** [a > b] for two objects that passed [isinstance(_, (int, float))]. *)
Definition object_gt (a b : object) : result bool :=
  match number_of a, number_of b with
  | Some x, Some y => Ok (gt x y)
  | _, _ => Raise TypeError
  end.

(** The trajectory: one row of compartment sizes per time point. *)
Definition trajectory : Type := list (list spec_float).

(** [integrate.odeint(self, u0, t)]: the integrator is given the rate
    parameters of [self], the initial state and the time points. *)
Definition integrator : Type :=
  value -> value -> object -> object -> result trajectory.

Record simulator : Type := {
  _beta : value;
  _gamma : value;
  _N0 : object;
  _T : object;
  _dt : object;
  _total : num;
  _t : list spec_float;
  _n : trajectory
}.

(** [{**default_kwargs, **kwargs}] *)
Definition merge (kwargs : gmap string object) : gmap string object :=
  kwargs ∪ default_kwargs.

(** The configuration part of [__init__]: the merge of the keyword
    arguments over the defaults and the four checks, in the order of the
    source.  Returns [(N0, T, dt)]. *)
Definition configure (kwargs : gmap string object)
    : result (object * object * object) :=
  let kwargs := merge kwargs in
  bind (getitem kwargs "N0") (fun N0 =>
  if negb (is_tuple_list N0) then Raise TypeError else
  bind (getitem kwargs "T") (fun T =>
  if negb (is_int_float T) then Raise TypeError else
  bind (getitem kwargs "dt") (fun dt =>
  if negb (is_int_float dt) then Raise TypeError else
  bind (object_gt dt T) (fun too_large =>
  if too_large then Raise ValueError else
  Ok (N0, T, dt))))).

(** [__call__(self, u, t)] on a state [u] of Python numbers, [int]s and
    [float]s of the built-in types, as the annotation [u: tuple] has it;
    [s], [i] and [r] stand for the source's [S], [I] and [R].  The state
    as an array, whose arithmetic does not raise on a zero divisor, is
    [__call__ndarray] below. *)
Definition __call__ (beta gamma : num) (u : list num) (t : value)
    : result (num * num * num) :=
  match u with
  | [s; i; r] =>
      let sum_u := sum (map of_num u) in
      bind (mul (neg beta) s) (fun x =>
      bind (mul x i) (fun x =>
      bind sum_u (fun n =>
      bind (truediv x n) (fun dS =>
      bind (mul beta s) (fun y =>
      bind (mul y i) (fun y =>
      bind sum_u (fun n =>
      bind (truediv y n) (fun y =>
      bind (mul gamma i) (fun z =>
      bind (sub y z) (fun dI =>
      bind (mul gamma i) (fun dR =>
      Ok (dS, dI, dR))))))))))))
  | _ => Raise ValueError
  end.

(** [__call__(self, u, t)] on a state [u] that is a float64 array, as
    [odeint] passes it.  The items of the array are [numpy.float64]
    numbers: their arithmetic follows IEEE 754 and, in the error state
    that numpy starts in, warns where Python raises, so that a division by
    zero returns an infinity or a NaN.  A rate parameter that is an [int]
    is converted to [float] where it meets an item. *)
Definition __call__ndarray (beta gamma : num) (u : list spec_float)
    (t : value) : result (spec_float * spec_float * spec_float) :=
  match u with
  | [s; i; r] =>
      let sum_u := ndarray_sum u in
      bind (to_float (neg beta)) (fun x =>
      let dS := fdiv (fmul (fmul x s) i) sum_u in
      bind (to_float beta) (fun y =>
      let y := fdiv (fmul (fmul y s) i) sum_u in
      bind (to_float gamma) (fun z =>
      let dI := fsub y (fmul z i) in
      bind (to_float gamma) (fun z =>
      let dR := fmul z i in
      Ok (dS, dI, dR)))))
  | _ => Raise ValueError
  end.

(** The loop of [solve] over the items of [u0]. *)
Fixpoint check_elements (u0 : list value) : result unit :=
  match u0 with
  | [] => Ok tt
  | element :: rest =>
      if negb (isinstance_int_float element) then Raise ValueError
      else check_elements rest
  end.

Definition solve (odeint : integrator) (beta gamma : value)
    (u0 t : object) : result trajectory :=
  match sequence_items u0 with
  | None => Raise TypeError
  | Some l =>
      bind (check_elements l) (fun _ =>
      if negb (is_int_float_ndarray t) then Raise TypeError
      else odeint beta gamma u0 t)
  end.

(** [np.linspace(0, T, int(T / dt))] *)
Definition time_grid (T dt : object) : result (list spec_float) :=
  match number_of T, number_of dt with
  | Some T, Some dt =>
      bind (truediv T dt) (fun q =>
      bind (int_of q) (fun n =>
      linspace T n))
  | _, _ => Raise TypeError
  end.

(** [sum(N0)] *)
Definition total_of (N0 : object) : result num :=
  match sequence_items N0 with
  | Some l => sum l
  | None => Raise TypeError
  end.

Definition _calculate (odeint : integrator) (beta gamma : value)
    (N0 T dt : object) : result simulator :=
  bind (total_of N0) (fun total =>
  bind (time_grid T dt) (fun t =>
  bind (solve odeint beta gamma N0 (Ndarray t)) (fun n =>
  Ok {| _beta := beta; _gamma := gamma; _N0 := N0; _T := T; _dt := dt;
        _total := total; _t := t; _n := n |}))).

Definition __init__ (odeint : integrator) (beta gamma : value)
    (kwargs : gmap string object) : result simulator :=
  bind (configure kwargs) (fun '(n0, T, dt) =>
  _calculate odeint beta gamma n0 T dt).

(** *** A step of type [numpy.float64] *)

(** [numpy.float64] is a subclass of [float]: the tests
    [isinstance(_, (int, float))] of the constructor accept a number of
    that type.  Where such a number meets a [float] or an [int] in an
    operator, the operator taken is numpy's: it converts an [int] of at
    most 64 bits to the nearest double, follows IEEE 754 and, in the error
    state that numpy starts in, warns where Python raises, so that
    [T / dt] is an infinity or a NaN for a [dt] that is zero.  The
    constructor is modelled here for a [T] and a [dt] of which one at
    least is of that type, the other being of that type, a [float] or an
    [int] of at most 64 bits; [T] and [dt] below are the doubles that
    numpy computes with, and [N0] is the entry of the merged
    configuration. *)

(** The checks, lines 26 to 36: the two tests of the types hold. *)
Definition configure_float64 (N0 : object) (T dt : spec_float)
    : result unit :=
  if negb (is_tuple_list N0) then Raise TypeError else
  if gt (NFloat dt) (NFloat T) then Raise ValueError else
  Ok tt.

(** [np.linspace(0, T, int(T / dt))] *)
Definition time_grid_float64 (T dt : spec_float)
    : result (list spec_float) :=
  bind (int_of (NFloat (fdiv T dt))) (fun n =>
  linspace (NFloat T) n).

(** The constructor; the result holds the attributes [_total], [_t] and
    [_n] that [_calculate] sets. *)
Definition __init__float64 (odeint : integrator) (beta gamma : value)
    (N0 : object) (T dt : spec_float)
    : result (num * list spec_float * trajectory) :=
  bind (configure_float64 N0 T dt) (fun _ =>
  bind (total_of N0) (fun total =>
  bind (time_grid_float64 T dt) (fun t =>
  bind (solve odeint beta gamma N0 (Ndarray t)) (fun n =>
  Ok (total, t, n))))).

End SIR.

Import Py Np SIR.

(** ** A concrete integrator *)

(** [odeint] belongs to SciPy, not to this program: the constructor is
    modelled over an arbitrary integrator.  Where a concrete one is needed
    to run the constructor, this forward Euler scheme over the time points
    is used; it evaluates the vector field on the state as an array, as
    [odeint] does, and returns one row per time point, the first being the
    initial state. *)
Module Euler.

Fixpoint map_result {A B : Type} (f : A -> result B) (l : list A)
    : result (list B) :=
  match l with
  | [] => Ok []
  | a :: l' =>
      bind (f a) (fun b =>
      bind (map_result f l') (fun bs =>
      Ok (b :: bs)))
  end.

Definition float_of_value (v : value) : result spec_float :=
  match as_num v with
  | Some x => to_float x
  | None => Raise TypeError
  end.

Fixpoint axpy (h : spec_float) (d y : list spec_float) : list spec_float :=
  match d, y with
  | di :: d', yi :: y' => fadd yi (fmul h di) :: axpy h d' y'
  | _, _ => []
  end.

(** One step of size [h] from the state [y]. *)
Definition step (beta gamma : num) (y : list spec_float) (h : spec_float)
    : result (list spec_float) :=
  bind (__call__ndarray beta gamma y VNone) (fun '(dS, dI, dR) =>
  Ok (axpy h [dS; dI; dR] y)).

(** The rows at the time points [ts], starting from the state [y] at
    time [t]. *)
Fixpoint rows (beta gamma : num) (y : list spec_float) (t : spec_float)
    (ts : list spec_float) : result trajectory :=
  match ts with
  | [] => Ok []
  | t' :: ts' =>
      bind (step beta gamma y (fsub t' t)) (fun y' =>
      bind (rows beta gamma y' t' ts') (fun r =>
      Ok (y' :: r)))
  end.

Definition odeint : integrator :=
  fun beta gamma u0 t =>
    match as_num beta, as_num gamma, sequence_items u0, t with
    | Some beta, Some gamma, Some l, Ndarray ts =>
        bind (map_result float_of_value l) (fun y0 =>
        match ts with
        | [] => Ok []
        | t0 :: ts' =>
            bind (rows beta gamma y0 t0 ts') (fun r => Ok (y0 :: r))
        end)
    | _, _, _, _ => Raise TypeError
    end.

End Euler.

(** ** The vector field as the specification states it *)

Module Spec.

(** [N = S + I + R] *)
Definition population (s i r : num) : result num :=
  bind (add s i) (fun x => add x r).

(** [dS/dt = -beta * S * I / N] *)
Definition dS (beta s i n : num) : result num :=
  bind (mul (neg beta) s) (fun x =>
  bind (mul x i) (fun x =>
  truediv x n)).

(** [dI/dt = beta * S * I / N - gamma * I] *)
Definition dI (beta gamma s i n : num) : result num :=
  bind (mul beta s) (fun y =>
  bind (mul y i) (fun y =>
  bind (truediv y n) (fun y =>
  bind (mul gamma i) (fun z =>
  sub y z)))).

(** [dR/dt = gamma * I] *)
Definition dR (gamma i : num) : result num := mul gamma i.

(** [floor(x)]: the largest integer that is not above [x]. *)
Definition floor (x : num) : result Z :=
  match x with
  | NInt z => Ok z
  | NFloat (S754_zero _) => Ok 0
  | NFloat (S754_finite s m e) =>
      Ok (if 0 <=? e then cond_Zopp s (Zpos m) * 2 ^ e
          else cond_Zopp s (Zpos m) / 2 ^ (- e))
  | NFloat (S754_infinity _) => Raise OverflowError
  | NFloat S754_nan => Raise ValueError
  end.


End Spec.

(** How [linspace] scales the index [yi]. *)
Definition scale (stop : spec_float) (n : Z) (yi : spec_float) : spec_float :=
  let delta := fsub stop pzero in
  let div := n - 1 in
  if 0 <? div then
    let step := fdiv delta (round_int div) in
    if f_is_zero step then fmul (fdiv yi (round_int div)) delta
    else fmul yi step
  else fmul yi delta.

(** Two numbers are alike when they are equal or are both a floating-point
    zero, of whatever sign. *)
Definition alike (x y : num) : Prop :=
  x = y \/ exists s s', x = NFloat (S754_zero s) /\ y = NFloat (S754_zero s').

Definition alike_results (a b : result num) : Prop :=
  match a, b with
  | Ok x, Ok y => alike x y
  | Raise e, Raise e' => e = e'
  | _, _ => False
  end.

(** Every operand is an [int], or every operand is a [float]. *)
Definition all_int (l : list num) : Prop :=
  Forall (fun x => exists z, x = NInt z) l.

Definition all_float (l : list num) : Prop :=
  Forall (fun x => exists f, x = NFloat f) l.

(** ** The configuration *)

Section Configuration.

Implicit Types (kwargs : gmap string object) (k : string).

Lemma merge_lookup kwargs k :
  merge kwargs !! k =
  match kwargs !! k with
  | Some o => Some o
  | None => default_kwargs !! k
  end.
Proof.
  unfold merge.
  destruct (kwargs !! k) as [o|] eqn:Hk.
  - by apply lookup_union_Some_l.
  - by rewrite lookup_union_r.
Qed.

Lemma default_lookup k :
  default_kwargs !! k =
  if decide (k = "N0") then Some (Obj (VTuple [VInt 100; VInt 1; VInt 0]))
  else if decide (k = "T") then Some (Obj (VInt 100))
  else if decide (k = "dt") then Some (Obj (VFloat float_0_1))
  else None.
Proof.
  unfold default_kwargs.
  repeat case_decide; simplify_map_eq; done.
Qed.

Lemma merge_populated kwargs k :
  k = "N0" \/ k = "T" \/ k = "dt" -> is_Some (merge kwargs !! k).
Proof.
  intros Hk. rewrite merge_lookup, default_lookup.
  destruct (kwargs !! k); [by eexists|].
  destruct Hk as [-> | [-> | ->]]; by eexists.
Qed.

(** ** C9 *)


End Configuration.

(** ** The checks of [__init__] *)

Section Checks.

Implicit Types (kwargs : gmap string object) (T dt : object).

Lemma is_int_float_number o :
  is_int_float o = true <-> exists x, number_of o = Some x.
Proof.
  destruct o as [[]|]; simpl; split;
    try discriminate; try (intros [x ?]; discriminate); eauto.
Qed.

Lemma compare_le_not_gt x y : le x y = true -> gt x y = false.
Proof. unfold le, gt. by destruct (compare x y) as [[]|]. Qed.

(** The checks of [__init__] on a merged configuration, in source order. *)
Lemma configure_unfold kwargs (N0 : object) T dt :
  merge kwargs !! "N0" = Some N0 ->
  merge kwargs !! "T" = Some T ->
  merge kwargs !! "dt" = Some dt ->
  configure kwargs =
    if negb (is_tuple_list N0) then Raise TypeError
    else if negb (is_int_float T) then Raise TypeError
    else if negb (is_int_float dt) then Raise TypeError
    else bind (object_gt dt T) (fun too_large =>
         if too_large then Raise ValueError else Ok (N0, T, dt)).
Proof.
  intros HN HT Hdt. unfold configure, getitem.
  rewrite HN. simpl. destruct (is_tuple_list N0); [|done].
  rewrite HT. simpl. destruct (is_int_float T); [|done].
  rewrite Hdt. simpl. by destruct (is_int_float dt).
Qed.

Lemma configure_numbers kwargs (N0 : object) T dt x y :
  merge kwargs !! "N0" = Some N0 -> is_tuple_list N0 = true ->
  merge kwargs !! "T" = Some T -> number_of T = Some x ->
  merge kwargs !! "dt" = Some dt -> number_of dt = Some y ->
  configure kwargs = if gt y x then Raise ValueError else Ok (N0, T, dt).
Proof.
  intros HN Hseq HT Hx Hdt Hy.
  rewrite (configure_unfold kwargs N0 T dt) by done.
  assert (is_int_float T = true) as -> by (apply is_int_float_number; eauto).
  assert (is_int_float dt = true) as -> by (apply is_int_float_number; eauto).
  rewrite Hseq. unfold object_gt. by rewrite Hx, Hy.
Qed.

(** ** C4 *)

(** C4 (as amended): for every construction call whose [N0] is a tuple or
    list and whose [T] and [dt] are numeric, the configuration checks fail
    with a [ValueError] if and only if [dt > T]; when [dt <= T] (more
    generally, whenever [dt > T] is false) the checks pass and the
    constructor proceeds to [_calculate], that is to grid building and
    integration. *)
Theorem dt_check_rejects_iff_gt kwargs (N0 : object) T dt x y :
  merge kwargs !! "N0" = Some N0 -> is_tuple_list N0 = true ->
  merge kwargs !! "T" = Some T -> number_of T = Some x ->
  merge kwargs !! "dt" = Some dt -> number_of dt = Some y ->
  (configure kwargs = Raise ValueError <-> gt y x = true) /\
  (forall e, configure kwargs = Raise e -> e = ValueError) /\
  (le y x = true -> gt y x = false) /\
  (gt y x = false ->
     configure kwargs = Ok (N0, T, dt) /\
     forall odeint beta gamma,
       __init__ odeint beta gamma kwargs =
       _calculate odeint beta gamma N0 T dt).
Proof.
  intros HN Hseq HT Hx Hdt Hy.
  pose proof (configure_numbers kwargs N0 T dt x y HN Hseq HT Hx Hdt Hy) as Hc.
  split; [split|split; [|split]].
  - rewrite Hc. by destruct (gt y x).
  - intros Hgt. by rewrite Hc, Hgt.
  - intros e. rewrite Hc. destruct (gt y x); congruence.
  - apply compare_le_not_gt.
  - intros Hgt. split; [by rewrite Hc, Hgt|].
    intros odeint beta gamma. unfold __init__. by rewrite Hc, Hgt.
Qed.

Lemma dt_check_rejects_iff_gt_witness :
  (configure ∅ = Raise ValueError <-> gt (NFloat float_0_1) (NInt 100) = true) /\
  (forall e, configure ∅ = Raise e -> e = ValueError) /\
  (le (NFloat float_0_1) (NInt 100) = true ->
   gt (NFloat float_0_1) (NInt 100) = false) /\
  (gt (NFloat float_0_1) (NInt 100) = false ->
     configure ∅ =
       Ok (Obj (VTuple [VInt 100; VInt 1; VInt 0]), Obj (VInt 100),
           Obj (VFloat float_0_1)) /\
     forall odeint beta gamma,
       __init__ odeint beta gamma ∅ =
       _calculate odeint beta gamma
         (Obj (VTuple [VInt 100; VInt 1; VInt 0])) (Obj (VInt 100))
         (Obj (VFloat float_0_1))).
Proof.
  apply (dt_check_rejects_iff_gt ∅
           (Obj (VTuple [VInt 100; VInt 1; VInt 0])) (Obj (VInt 100))
           (Obj (VFloat float_0_1)) (NInt 100) (NFloat float_0_1));
    reflexivity.
Defined.

(** C4 (as stated) fails in both directions, whatever the integrator.
    With [N0="abc"], [dt=50], [T=10] the call has [dt > T] but fails with a
    [TypeError], raised by the check of [N0] that comes first.  With
    [T=10], [dt=-3] the call has [dt <= T] and still fails with a
    [ValueError], raised by [linspace] for the negative number of samples
    [int(10 / -3) = -3]. *)
Lemma value_error_iff_gt_counterexample :
  let abc := <["N0" := Obj (VStr "abc")]>
             (<["dt" := Obj (VInt 50)]> (<["T" := Obj (VInt 10)]> ∅)) in
  let neg := <["dt" := Obj (VInt (-3))]> (<["T" := Obj (VInt 10)]> ∅) in
  (forall odeint beta gamma,
     __init__ odeint beta gamma abc = Raise TypeError /\
     ~ (__init__ odeint beta gamma abc = Raise ValueError <->
        gt (NInt 50) (NInt 10) = true)) /\
  (forall odeint beta gamma,
     __init__ odeint beta gamma neg = Raise ValueError /\
     ~ (__init__ odeint beta gamma neg = Raise ValueError <->
        gt (NInt (-3)) (NInt 10) = true)).
Proof.
  intros abc neg. split; intros odeint beta gamma.
  - assert (__init__ odeint beta gamma abc = Raise TypeError) as H
      by reflexivity.
    split; [done|]. rewrite H. intros [_ Hgt]. by specialize (Hgt eq_refl).
  - assert (__init__ odeint beta gamma neg = Raise ValueError) as H
      by reflexivity.
    split; [done|]. intros [Hgt _]. specialize (Hgt H). by vm_compute in Hgt.
Qed.

(** ** The checks of [solve] *)

Lemma check_elements_forallb l :
  check_elements l =
  if forallb isinstance_int_float l then Ok tt else Raise ValueError.
Proof.
  induction l as [|element rest IH]; simpl; [done|].
  by destruct (isinstance_int_float element).
Qed.

(** The loop stops at the first item that is not a number. *)
Lemma check_elements_first pre x post :
  forallb isinstance_int_float pre = true ->
  isinstance_int_float x = false ->
  check_elements (pre ++ x :: post) = Raise ValueError.
Proof.
  intros Hpre Hx. rewrite check_elements_forallb, forallb_app. simpl.
  by rewrite Hpre, Hx.
Qed.

Lemma solve_unfold odeint beta gamma u0 t :
  solve odeint beta gamma u0 t =
  match sequence_items u0 with
  | None => Raise TypeError
  | Some l =>
      if forallb isinstance_int_float l then
        if is_int_float_ndarray t then odeint beta gamma u0 t
        else Raise TypeError
      else Raise ValueError
  end.
Proof.
  unfold solve. destruct (sequence_items u0) as [l|]; [|done].
  rewrite check_elements_forallb.
  destruct (forallb isinstance_int_float l); simpl; [|done].
  by destruct (is_int_float_ndarray t).
Qed.

Lemma is_tuple_list_items o :
  is_tuple_list o = true <-> exists l, sequence_items o = Some l.
Proof.
  destruct o as [[]|]; simpl; split;
    try discriminate; try (intros [x ?]; discriminate); eauto.
Qed.

(** Once the checks and the two computations that precede it have
    succeeded, the constructor is the call of the integrator. *)
Lemma init_reaches_odeint odeint beta gamma kwargs
    (N0 : object) T dt x y l total t :
  merge kwargs !! "N0" = Some N0 -> sequence_items N0 = Some l ->
  merge kwargs !! "T" = Some T -> number_of T = Some x ->
  merge kwargs !! "dt" = Some dt -> number_of dt = Some y ->
  gt y x = false ->
  total_of N0 = Ok total ->
  time_grid T dt = Ok t ->
  forallb isinstance_int_float l = true ->
  __init__ odeint beta gamma kwargs =
  bind (odeint beta gamma N0 (Ndarray t)) (fun n =>
  Ok {| _beta := beta; _gamma := gamma; _N0 := N0; _T := T; _dt := dt;
        _total := total; _t := t; _n := n |}).
Proof.
  intros HN Hl HT Hx Hdt Hy Hgt Htot Ht Hnum.
  assert (is_tuple_list N0 = true) as Hseq
    by (apply is_tuple_list_items; eauto).
  unfold __init__.
  rewrite (configure_numbers kwargs N0 T dt x y) by done.
  rewrite Hgt. simpl. unfold _calculate.
  rewrite Htot, Ht. simpl. rewrite solve_unfold, Hl, Hnum. done.
Qed.

(** ** C5 *)

(** C5 (as amended): construction fails with a [TypeError] when [N0] is not
    a tuple or list.  The length of [N0] is not checked: a tuple or list of
    numbers of any length passes the checks of the constructor and of
    [solve] and is handed to the integrator.  The check of the items is the
    one in [solve]: [solve(u0, t)] raises a [ValueError] when an item of
    [u0] is not a number. *)
Theorem N0_checked_for_type_not_length :
  (forall odeint beta gamma kwargs (N0 : object),
     merge kwargs !! "N0" = Some N0 -> is_tuple_list N0 = false ->
     __init__ odeint beta gamma kwargs = Raise TypeError) /\
  (forall odeint beta gamma kwargs (N0 : object) T dt x y l total t,
     merge kwargs !! "N0" = Some N0 -> sequence_items N0 = Some l ->
     merge kwargs !! "T" = Some T -> number_of T = Some x ->
     merge kwargs !! "dt" = Some dt -> number_of dt = Some y ->
     gt y x = false -> total_of N0 = Ok total -> time_grid T dt = Ok t ->
     forallb isinstance_int_float l = true ->
     configure kwargs = Ok (N0, T, dt) /\
     solve odeint beta gamma N0 (Ndarray t) =
       odeint beta gamma N0 (Ndarray t) /\
     __init__ odeint beta gamma kwargs =
       bind (odeint beta gamma N0 (Ndarray t)) (fun n =>
       Ok {| _beta := beta; _gamma := gamma; _N0 := N0; _T := T;
             _dt := dt; _total := total; _t := t; _n := n |})) /\
  (forall odeint beta gamma u0 t l,
     sequence_items u0 = Some l ->
     forallb isinstance_int_float l = false ->
     solve odeint beta gamma u0 t = Raise ValueError).
Proof.
  split; [|split].
  - intros odeint beta gamma kwargs N0 HN Hseq.
    destruct (merge_populated kwargs "T") as [T HT]; [auto|].
    destruct (merge_populated kwargs "dt") as [dt Hdt]; [auto|].
    unfold __init__.
    rewrite (configure_unfold kwargs N0 T dt) by done. by rewrite Hseq.
  - intros odeint beta gamma kwargs N0 T dt x y l total t
      HN Hl HT Hx Hdt Hy Hgt Htot Ht Hnum.
    assert (is_tuple_list N0 = true) as Hseq
      by (apply is_tuple_list_items; eauto).
    split; [|split].
    + rewrite (configure_numbers kwargs N0 T dt x y) by done. by rewrite Hgt.
    + by rewrite solve_unfold, Hl, Hnum.
    + by eapply init_reaches_odeint.
  - intros odeint beta gamma u0 t l Hl Hnum.
    by rewrite solve_unfold, Hl, Hnum.
Qed.

Lemma N0_checked_for_type_not_length_witness :
  let beta := VFloat (round_quotient 3 10) in
  let gamma := VFloat (round_quotient 1 10) in
  let pair := Obj (VTuple [VInt 100; VInt 1]) in
  let kwargs := <["N0" := pair]> (<["T" := Obj (VInt 2)]>
                (<["dt" := Obj (VInt 1)]> ∅)) in
  __init__ Euler.odeint beta gamma (<["N0" := Obj (VStr "abc")]> ∅)
    = Raise TypeError /\
  (configure kwargs = Ok (pair, Obj (VInt 2), Obj (VInt 1)) /\
   solve Euler.odeint beta gamma pair
     (Ndarray [pzero; S754_finite false 4503599627370496 (-51)]) =
   Euler.odeint beta gamma pair
     (Ndarray [pzero; S754_finite false 4503599627370496 (-51)]) /\
   __init__ Euler.odeint beta gamma kwargs =
     bind (Euler.odeint beta gamma pair
             (Ndarray [pzero; S754_finite false 4503599627370496 (-51)]))
       (fun n =>
        Ok {| _beta := beta; _gamma := gamma; _N0 := pair;
              _T := Obj (VInt 2); _dt := Obj (VInt 1); _total := NInt 101;
              _t := [pzero; S754_finite false 4503599627370496 (-51)];
              _n := n |})) /\
  solve Euler.odeint beta gamma (Obj (VTuple [VInt 100; VStr "x"; VInt 0]))
    (Ndarray [pzero]) = Raise ValueError.
Proof.
  intros beta gamma pair kwargs.
  destruct N0_checked_for_type_not_length as (H1 & H2 & H3).
  split; [|split].
  - apply (H1 Euler.odeint beta gamma _ (Obj (VStr "abc"))); reflexivity.
  - apply (H2 Euler.odeint beta gamma kwargs pair (Obj (VInt 2))
             (Obj (VInt 1)) (NInt 2) (NInt 1) [VInt 100; VInt 1]);
      reflexivity.
  - apply (H3 Euler.odeint beta gamma _ _ [VInt 100; VStr "x"; VInt 0]);
      reflexivity.
Defined.

(** C5 (as stated) fails: a tuple of two numbers passes every check of the
    constructor and of [solve] and reaches the integrator, so the length of
    [N0] is not validated.  (Moreover, with the item ["x"] in [N0] the
    constructor fails with a [TypeError] raised by [sum(self._N0)], before
    [solve] is entered.) *)
Lemma N0_length_counterexample :
  let pair := Obj (VTuple [VInt 100; VInt 1]) in
  let x := Obj (VTuple [VInt 100; VStr "x"; VInt 0]) in
  (configure (<["N0" := pair]> ∅) =
     Ok (pair, Obj (VInt 100), Obj (VFloat float_0_1)) /\
   check_elements [VInt 100; VInt 1] = Ok tt /\
   forall odeint beta gamma t,
     time_grid (Obj (VInt 100)) (Obj (VFloat float_0_1)) = Ok t ->
     __init__ odeint beta gamma (<["N0" := pair]> ∅) =
     bind (odeint beta gamma pair (Ndarray t)) (fun n =>
     Ok {| _beta := beta; _gamma := gamma; _N0 := pair;
           _T := Obj (VInt 100); _dt := Obj (VFloat float_0_1);
           _total := NInt 101; _t := t; _n := n |})) /\
  (total_of x = Raise TypeError /\
   forall odeint beta gamma,
     __init__ odeint beta gamma (<["N0" := x]> ∅) = Raise TypeError /\
     __init__ odeint beta gamma (<["N0" := x]> ∅) <> Raise ValueError).
Proof.
  intros pair x. split; [split; [done|split; [done|]]|split; [done|]].
  - intros odeint beta gamma t Ht.
    by apply (init_reaches_odeint odeint beta gamma _ pair (Obj (VInt 100))
                (Obj (VFloat float_0_1)) (NInt 100) (NFloat float_0_1)
                [VInt 100; VInt 1]).
  - intros odeint beta gamma.
    assert (__init__ odeint beta gamma (<["N0" := x]> ∅) = Raise TypeError)
      as H by reflexivity.
    split; [done|]. by rewrite H.
Qed.

(** ** C6 *)

(** C6 (as amended): [solve(initial_state, time_grid)] fails with a
    [TypeError] when [initial_state] is not a tuple or list; otherwise its
    items are checked one by one and it fails with a [ValueError] at the
    first item that is not a number; otherwise [time_grid] must be an
    [int], a [float] or a numpy array, and it fails with a [TypeError] for
    anything else, a list or tuple of numbers included; otherwise the
    result is that of the integrator. *)
Theorem solve_checks odeint beta gamma u0 t :
  (sequence_items u0 = None ->
     solve odeint beta gamma u0 t = Raise TypeError) /\
  (forall pre x post,
     sequence_items u0 = Some (pre ++ x :: post) ->
     forallb isinstance_int_float pre = true ->
     isinstance_int_float x = false ->
     solve odeint beta gamma u0 t = Raise ValueError) /\
  (forall l,
     sequence_items u0 = Some l ->
     forallb isinstance_int_float l = true ->
     is_int_float_ndarray t = false ->
     solve odeint beta gamma u0 t = Raise TypeError) /\
  (forall l,
     sequence_items u0 = Some l ->
     forallb isinstance_int_float l = true ->
     is_int_float_ndarray t = true ->
     solve odeint beta gamma u0 t = odeint beta gamma u0 t) /\
  (is_int_float_ndarray t = true <->
     (exists x, number_of t = Some x) \/ (exists a, t = Ndarray a)) /\
  (forall l, t = Obj (VList l) \/ t = Obj (VTuple l) ->
     is_int_float_ndarray t = false).
Proof.
  split; [|split; [|split; [|split; [|split]]]].
  - intros Hu. by rewrite solve_unfold, Hu.
  - intros pre x post Hu Hpre Hx.
    rewrite solve_unfold, Hu, forallb_app. simpl. by rewrite Hpre, Hx.
  - intros l Hu Hl Ht. by rewrite solve_unfold, Hu, Hl, Ht.
  - intros l Hu Hl Ht. by rewrite solve_unfold, Hu, Hl, Ht.
  - destruct t as [[]|]; simpl; split;
      try (intros _; reflexivity);
      try (intros _; left; eexists; reflexivity);
      try (intros _; right; eexists; reflexivity);
      try discriminate;
      intros [[x Hx]|[a Ha]]; discriminate.
  - intros l [-> | ->]; reflexivity.
Qed.

Lemma solve_checks_witness :
  let beta := VFloat (round_quotient 3 10) in
  let gamma := VFloat (round_quotient 1 10) in
  let u0 := Obj (VTuple [VInt 100; VInt 1; VInt 0]) in
  solve Euler.odeint beta gamma (Obj (VStr "abc")) (Ndarray [pzero])
    = Raise TypeError /\
  solve Euler.odeint beta gamma
    (Obj (VList [VInt 100; VStr "x"; VNone])) (Ndarray [pzero])
    = Raise ValueError /\
  solve Euler.odeint beta gamma u0 (Obj (VStr "0")) = Raise TypeError /\
  solve Euler.odeint beta gamma u0 (Ndarray [pzero]) =
    Euler.odeint beta gamma u0 (Ndarray [pzero]).
Proof.
  intros beta gamma u0.
  destruct (solve_checks Euler.odeint beta gamma (Obj (VStr "abc"))
              (Ndarray [pzero])) as (H1 & _).
  destruct (solve_checks Euler.odeint beta gamma
              (Obj (VList [VInt 100; VStr "x"; VNone])) (Ndarray [pzero]))
    as (_ & H2 & _).
  destruct (solve_checks Euler.odeint beta gamma u0 (Obj (VStr "0")))
    as (_ & _ & H3 & _).
  destruct (solve_checks Euler.odeint beta gamma u0 (Ndarray [pzero]))
    as (_ & _ & _ & H4 & _).
  split; [|split; [|split]].
  - apply H1. reflexivity.
  - apply (H2 [VInt 100] (VStr "x") [VNone]); reflexivity.
  - apply (H3 [VInt 100; VInt 1; VInt 0]); reflexivity.
  - apply (H4 [VInt 100; VInt 1; VInt 0]); reflexivity.
Defined.

(** C6 (as stated) fails: the list [[0.0, 1.0]] is an ordered sequence of
    numbers, and [solve((100, 1, 0), [0.0, 1.0])] fails with a [TypeError],
    whatever the integrator. *)
Lemma solve_list_grid_counterexample :
  let grid := [VFloat pzero; VFloat (round_int 1)] in
  forallb isinstance_int_float grid = true /\
  forall odeint beta gamma,
    solve odeint beta gamma
      (Obj (VTuple [VInt 100; VInt 1; VInt 0])) (Obj (VList grid))
    = Raise TypeError.
Proof. split; reflexivity. Qed.

(** ** C10 *)

Lemma truediv_by_zero x y :
  is_zero y = true ->
  (exists f, to_float x = Ok f) \/ (exists z, y = NInt z) ->
  truediv x y = Raise ZeroDivisionError.
Proof.
  intros Hz Hconv. destruct x as [a|f], y as [b|g]; simpl in *.
  - by rewrite Hz.
  - destruct Hconv as [[f ->]|[z ?]]; [|done]. simpl. by rewrite Hz.
  - apply Z.eqb_eq in Hz. subst b. reflexivity.
  - by rewrite Hz.
Qed.

Lemma gt_zero_nonnegative x y :
  is_zero y = true -> ge x (NInt 0) = true -> gt y x = false.
Proof.
  unfold ge, gt, compare. intros Hz.
  assert (value_of y = XDyadic 0 0) as ->.
  { destruct y as [b|[]]; try discriminate; simpl in *; [|done].
    apply Z.eqb_eq in Hz. by subst. }
  simpl. destruct (value_of x) as [|[]|m e]; try done.
  unfold dyadic_compare. rewrite !Z.mul_0_l, (Z.min_comm 0 e).
  rewrite (Z.compare_antisym 0 (m * 2 ^ (e - e `min` 0))).
  by destruct (0 ?= m * 2 ^ (e - e `min` 0)).
Qed.

(** On binary64 numbers, [T / dt] for a step that is zero and a [T] that
    is not negative is an infinity or, for a [T] that is zero as well, a
    NaN: [int] raises on both. *)
Lemma int_of_fdiv_zero (T dt : spec_float) :
  is_zero (NFloat dt) = true -> ge (NFloat T) (NInt 0) = true ->
  int_of (NFloat (fdiv T dt)) =
  Raise (if is_zero (NFloat T) then ValueError else OverflowError).
Proof. by destruct dt as [sd| | |], T as [sT|sT| |sT mT eT]. Qed.

Lemma init_float64_zero_step odeint beta gamma (N0 : object)
    (T dt : spec_float) :
  is_tuple_list N0 = true ->
  is_zero (NFloat dt) = true -> ge (NFloat T) (NInt 0) = true ->
  (exists total, total_of N0 = Ok total) ->
  let e := if is_zero (NFloat T) then ValueError else OverflowError in
  configure_float64 N0 T dt = Ok tt /\
  time_grid_float64 T dt = Raise e /\
  __init__float64 odeint beta gamma N0 T dt = Raise e.
Proof.
  intros Hseq Hz Hge [total Htot] e.
  assert (configure_float64 N0 T dt = Ok tt) as Hc.
  { unfold configure_float64.
    by rewrite Hseq, (gt_zero_nonnegative (NFloat T) (NFloat dt)). }
  assert (time_grid_float64 T dt = Raise e) as Hgrid.
  { unfold time_grid_float64. by rewrite int_of_fdiv_zero. }
  split; [done|]. split; [done|].
  unfold __init__float64. by rewrite Hc, Htot, Hgrid.
Qed.

(** C10 (as amended): the constructor does not check the signs of [T] and
    [dt]: with [N0] a tuple or list, every [dt <= T] passes the checks,
    whatever the signs, for numbers of the built-in types and for numbers
    of which one is a [numpy.float64].  A call with [dt == 0] and
    [T >= 0], whose [N0] is a tuple or list that [sum] accepts, passes the
    checks and then fails in the grid construction, in [int(T / dt)]: for
    numbers of the built-in types with a [ZeroDivisionError], when [T]
    converts to [float] or [dt] is the [int] 0; where [T] or [dt] is a
    [numpy.float64], whose division returns an infinity or a NaN, with
    the [OverflowError] ([T > 0]) or the [ValueError] ([T == 0]) of
    [int]. *)
Theorem zero_dt_passes_checks_then_divides odeint beta gamma :
  (forall kwargs (N0 : object) T dt x y,
     merge kwargs !! "N0" = Some N0 -> is_tuple_list N0 = true ->
     merge kwargs !! "T" = Some T -> number_of T = Some x ->
     merge kwargs !! "dt" = Some dt -> number_of dt = Some y ->
     (le y x = true -> configure kwargs = Ok (N0, T, dt)) /\
     (is_zero y = true -> ge x (NInt 0) = true ->
      (exists total, total_of N0 = Ok total) ->
      (exists f, to_float x = Ok f) \/ (exists z, y = NInt z) ->
      configure kwargs = Ok (N0, T, dt) /\
      time_grid T dt = Raise ZeroDivisionError /\
      __init__ odeint beta gamma kwargs = Raise ZeroDivisionError)) /\
  (forall (N0 : object) (T dt : spec_float),
     is_tuple_list N0 = true ->
     (le (NFloat dt) (NFloat T) = true ->
      configure_float64 N0 T dt = Ok tt) /\
     (is_zero (NFloat dt) = true -> ge (NFloat T) (NInt 0) = true ->
      (exists total, total_of N0 = Ok total) ->
      configure_float64 N0 T dt = Ok tt /\
      (is_zero (NFloat T) = false ->
       time_grid_float64 T dt = Raise OverflowError /\
       __init__float64 odeint beta gamma N0 T dt = Raise OverflowError) /\
      (is_zero (NFloat T) = true ->
       time_grid_float64 T dt = Raise ValueError /\
       __init__float64 odeint beta gamma N0 T dt = Raise ValueError))).
Proof.
  split.
  - intros kwargs N0 T dt x y HN Hseq HT Hx Hdt Hy.
    pose proof (configure_numbers kwargs N0 T dt x y HN Hseq HT Hx Hdt Hy)
      as Hc.
    split.
    + intros Hle. by rewrite Hc, (compare_le_not_gt _ _ Hle).
    + intros Hz Hge [total Htot] Hconv.
      pose proof (gt_zero_nonnegative x y Hz Hge) as Hgt.
      assert (time_grid T dt = Raise ZeroDivisionError) as Hgrid.
      { unfold time_grid. rewrite Hx, Hy.
        by rewrite (truediv_by_zero x y Hz Hconv). }
      split; [by rewrite Hc, Hgt|]. split; [done|].
      unfold __init__. rewrite Hc, Hgt. simpl. unfold _calculate.
      by rewrite Htot, Hgrid.
  - intros N0 T dt Hseq. split.
    + intros Hle. unfold configure_float64.
      by rewrite Hseq, (compare_le_not_gt _ _ Hle).
    + intros Hz Hge Htot.
      destruct (init_float64_zero_step odeint beta gamma N0 T dt
                  Hseq Hz Hge Htot) as (Hc & Hgrid & Hinit).
      split; [done|]. split; intros HT; rewrite HT in Hgrid, Hinit; done.
Qed.

Lemma zero_dt_passes_checks_then_divides_witness :
  let beta := VFloat (round_quotient 3 10) in
  let gamma := VFloat (round_quotient 1 10) in
  let N0 := Obj (VTuple [VInt 100; VInt 1; VInt 0]) in
  let kwargs := <["dt" := Obj (VFloat pzero)]> ∅ in
  let T := round_int 100 in
  (le (NFloat pzero) (NInt 100) = true /\
   is_zero (NFloat pzero) = true /\
   ge (NInt 100) (NInt 0) = true /\
   (exists total, total_of N0 = Ok total) /\
   (exists f, to_float (NInt 100) = Ok f)) /\
  (configure kwargs = Ok (N0, Obj (VInt 100), Obj (VFloat pzero)) /\
   time_grid (Obj (VInt 100)) (Obj (VFloat pzero))
     = Raise ZeroDivisionError /\
   __init__ Euler.odeint beta gamma kwargs = Raise ZeroDivisionError) /\
  (le (NFloat pzero) (NFloat T) = true /\
   ge (NFloat T) (NInt 0) = true /\ is_zero (NFloat T) = false) /\
  (configure_float64 N0 T pzero = Ok tt /\
   time_grid_float64 T pzero = Raise OverflowError /\
   __init__float64 Euler.odeint beta gamma N0 T pzero
     = Raise OverflowError) /\
  (configure_float64 N0 pzero pzero = Ok tt /\
   time_grid_float64 pzero pzero = Raise ValueError /\
   __init__float64 Euler.odeint beta gamma N0 pzero pzero
     = Raise ValueError).
Proof.
  intros beta gamma N0 kwargs T.
  assert (exists total, total_of N0 = Ok total) as Htot
    by (eexists; reflexivity).
  destruct (zero_dt_passes_checks_then_divides Euler.odeint beta gamma)
    as [Hnum H64].
  split; [|split; [|split; [|split]]].
  - split; [reflexivity|]. split; [reflexivity|]. split; [reflexivity|].
    split; [exact Htot|]. eexists; reflexivity.
  - destruct (Hnum kwargs N0 (Obj (VInt 100)) (Obj (VFloat pzero))
                (NInt 100) (NFloat pzero)
                eq_refl eq_refl eq_refl eq_refl eq_refl eq_refl) as [_ H].
    apply H; [reflexivity|reflexivity|exact Htot|].
    left. eexists; reflexivity.
  - repeat split; reflexivity.
  - destruct (H64 N0 T pzero eq_refl) as [_ H].
    destruct (H eq_refl eq_refl Htot) as (Hc & Hpos & _).
    split; [exact Hc|]. exact (Hpos eq_refl).
  - destruct (H64 N0 pzero pzero eq_refl) as [_ H].
    destruct (H eq_refl eq_refl Htot) as (Hc & _ & Hzero).
    split; [exact Hc|]. exact (Hzero eq_refl).
Defined.

(** C10 (as stated) fails.  With [T = 10**400] and [dt = 0.0] the checks
    pass, and the division [T / dt] fails with an [OverflowError], raised
    by the conversion of [T] to [float] before the divisor is tested.
    With [T = 100] and [dt = numpy.float64(0.0)], a [dt] that the checks
    accept as a [float], the division returns an infinity and [int]
    raises an [OverflowError]; with [T = 0.0] it returns a NaN and [int]
    raises a [ValueError].  None is a [ZeroDivisionError]. *)
Lemma zero_dt_counterexample :
  let kwargs := <["T" := Obj (VInt (10 ^ 400))]>
                (<["dt" := Obj (VFloat pzero)]> ∅) in
  let N0 := Obj (VTuple [VInt 100; VInt 1; VInt 0]) in
  (is_zero (NFloat pzero) = true /\
   ge (NInt (10 ^ 400)) (NInt 0) = true /\
   configure kwargs =
     Ok (N0, Obj (VInt (10 ^ 400)), Obj (VFloat pzero)) /\
   truediv (NInt (10 ^ 400)) (NFloat pzero) = Raise OverflowError /\
   forall odeint beta gamma,
     __init__ odeint beta gamma kwargs = Raise OverflowError /\
     __init__ odeint beta gamma kwargs <> Raise ZeroDivisionError) /\
  (to_float (NInt 100) = Ok (round_int 100) /\
   ge (NFloat (round_int 100)) (NInt 0) = true /\
   configure_float64 N0 (round_int 100) pzero = Ok tt /\
   fdiv (round_int 100) pzero = S754_infinity false /\
   forall odeint beta gamma,
     __init__float64 odeint beta gamma N0 (round_int 100) pzero
       = Raise OverflowError /\
     __init__float64 odeint beta gamma N0 (round_int 100) pzero
       <> Raise ZeroDivisionError) /\
  (ge (NFloat pzero) (NInt 0) = true /\
   configure_float64 N0 pzero pzero = Ok tt /\
   fdiv pzero pzero = S754_nan /\
   forall odeint beta gamma,
     __init__float64 odeint beta gamma N0 pzero pzero = Raise ValueError /\
     __init__float64 odeint beta gamma N0 pzero pzero
       <> Raise ZeroDivisionError).
Proof.
  intros kwargs N0.
  split; [|split].
  - split; [by vm_compute|]. split; [by vm_compute|].
    split; [by vm_compute|]. split; [by vm_compute|].
    intros odeint beta gamma.
    assert (__init__ odeint beta gamma kwargs = Raise OverflowError) as H
      by (by vm_compute).
    split; [done|]. by rewrite H.
  - split; [by vm_compute|]. split; [by vm_compute|].
    split; [by vm_compute|]. split; [by vm_compute|].
    intros odeint beta gamma.
    assert (__init__float64 odeint beta gamma N0 (round_int 100) pzero
            = Raise OverflowError) as H by (by vm_compute).
    split; [done|]. by rewrite H.
  - split; [by vm_compute|]. split; [by vm_compute|].
    split; [by vm_compute|].
    intros odeint beta gamma.
    assert (__init__float64 odeint beta gamma N0 pzero pzero
            = Raise ValueError) as H by (by vm_compute).
    split; [done|]. by rewrite H.
Qed.

End Checks.

(** ** Rounding to binary64 *)

Section Rounding.

Lemma digits2_size p : digits2_pos p = Pos.size p.
Proof. induction p; simpl; congruence. Qed.

Lemma digits2_bounds p :
  2 ^ (Zpos (digits2_pos p) - 1) <= Zpos p < 2 ^ Zpos (digits2_pos p).
Proof.
  rewrite digits2_size. split.
  - pose proof (Pos.size_le p) as H.
    apply Pos2Z.pos_le_pos in H. rewrite Pos2Z.inj_pow in H.
    replace (Zpos (Pos.size p)) with (Zpos (Pos.size p) - 1 + 1) in H by lia.
    rewrite Z.pow_add_r, Z.pow_1_r in H by lia. lia.
  - pose proof (Pos.size_gt p) as H.
    apply Pos2Z.pos_lt_pos in H. by rewrite Pos2Z.inj_pow in H.
Qed.

Lemma Zdigits2_bounds m :
  0 < m -> 2 ^ (Zdigits2 m - 1) <= m < 2 ^ Zdigits2 m.
Proof. destruct m as [|p|p]; try lia. intros _. apply digits2_bounds. Qed.

Lemma Zdigits2_pos m : 0 < m -> 0 < Zdigits2 m.
Proof. destruct m; simpl; lia. Qed.

Lemma Zdigits2_unique m k :
  2 ^ (k - 1) <= m < 2 ^ k -> 0 < k -> Zdigits2 m = k.
Proof.
  intros [Hlo Hhi] Hk.
  assert (0 < m) as Hm by (pose proof (Z.pow_pos_nonneg 2 (k - 1)); lia).
  pose proof (Zdigits2_bounds m Hm) as [Hlo' Hhi'].
  pose proof (Zdigits2_pos m Hm) as Hd.
  destruct (Z.lt_trichotomy (Zdigits2 m) k) as [Hlt|[Heq|Hgt]]; [|done|].
  - pose proof (Z.pow_le_mono_r 2 (Zdigits2 m) (k - 1)). lia.
  - pose proof (Z.pow_le_mono_r 2 k (Zdigits2 m - 1)). lia.
Qed.

Lemma Zdigits2_mono m m' : 0 < m -> m <= m' -> Zdigits2 m <= Zdigits2 m'.
Proof.
  intros Hm Hle.
  pose proof (Zdigits2_bounds m Hm) as [Hlo _].
  pose proof (Zdigits2_bounds m' ltac:(lia)) as [_ Hhi].
  destruct (Z_le_gt_dec (Zdigits2 m) (Zdigits2 m')) as [|Hgt]; [done|].
  pose proof (Z.pow_le_mono_r 2 (Zdigits2 m') (Zdigits2 m - 1)).
  pose proof (Zdigits2_pos m' ltac:(lia)). lia.
Qed.

Lemma shr_1_m mrs : 0 <= shr_m mrs -> shr_m (shr_1 mrs) = shr_m mrs / 2.
Proof.
  destruct mrs as [m r s]. simpl. intros Hm.
  destruct m as [|[p|p|]|p]; simpl; try done; try lia.
  - apply Z.div_unique with 1; lia.
  - apply Z.div_unique with 0; lia.
Qed.

Lemma iter_pos_shr_m p : forall mrs,
  0 <= shr_m mrs ->
  shr_m (SpecFloat.iter_pos shr_1 p mrs) = shr_m mrs / 2 ^ Zpos p.
Proof.
  assert (forall q, 0 < 2 ^ Zpos q) as Hpow
    by (intros q; apply Z.pow_pos_nonneg; lia).
  induction p as [p IH|p IH|]; intros mrs Hm; simpl.
  - assert (0 <= shr_m (shr_1 mrs)) as H1
      by (rewrite shr_1_m by done; apply Z.div_pos; lia).
    assert (0 <= shr_m (SpecFloat.iter_pos shr_1 p (shr_1 mrs))) as H2
      by (rewrite IH by done; apply Z.div_pos; [lia|apply Hpow]).
    rewrite IH, IH, shr_1_m by done.
    pose proof (Hpow p).
    rewrite !Z.div_div by lia. f_equal.
    rewrite <- Z.pow_add_r, <- Z.pow_succ_r by lia. f_equal. lia.
  - assert (0 <= shr_m (SpecFloat.iter_pos shr_1 p mrs)) as H2
      by (rewrite IH by done; apply Z.div_pos; [lia|apply Hpow]).
    rewrite IH, IH by done.
    pose proof (Hpow p).
    rewrite !Z.div_div by lia. f_equal.
    rewrite <- Z.pow_add_r by lia. f_equal. lia.
  - by rewrite shr_1_m.
Qed.

Lemma shr_record_of_loc_m m l : shr_m (shr_record_of_loc m l) = m.
Proof. by destruct l as [|[]]. Qed.

(** The mantissa and exponent that [shr_fexp] returns. *)
Lemma shr_fexp_m m e l :
  0 <= m ->
  let n := fexp prec emax (Zdigits2 m + e) - e in
  shr_m (fst (shr_fexp prec emax m e l)) = (if 0 <? n then m / 2 ^ n else m) /\
  snd (shr_fexp prec emax m e l) = (if 0 <? n then e + n else e).
Proof.
  intros Hm n. unfold shr_fexp, shr. fold n.
  destruct n as [|p|p]; simpl; rewrite ?shr_record_of_loc_m; try done.
  split; [|done]. rewrite iter_pos_shr_m by (by rewrite shr_record_of_loc_m).
  by rewrite shr_record_of_loc_m.
Qed.

Lemma round_nearest_even_bounds m l :
  m <= round_nearest_even m l <= m + 1.
Proof. destruct l as [|[]]; simpl; try destruct (Z.even m); lia. Qed.

Lemma binary_round_aux_unfold sx mx ex lx :
  binary_round_aux prec emax sx mx ex lx =
  let p1 := shr_fexp prec emax mx ex lx in
  let p2 := shr_fexp prec emax
              (round_nearest_even (shr_m (fst p1)) (loc_of_shr_record (fst p1)))
              (snd p1) loc_Exact in
  match shr_m (fst p2) with
  | 0 => S754_zero sx
  | Zpos m =>
      if snd p2 <=? emax - prec then S754_finite sx m (snd p2)
      else S754_infinity sx
  | Zneg _ => S754_nan
  end.
Proof.
  unfold binary_round_aux.
  destruct (shr_fexp prec emax mx ex lx) as [mrs' e']. simpl.
  by destruct (shr_fexp prec emax _ e' loc_Exact) as [mrs'' e''].
Qed.

Lemma fexp_normal d : -1021 <= d -> fexp prec emax d = d - 53.
Proof. unfold fexp, emin, prec, emax. lia. Qed.

Lemma shr_fexp_nonneg m e l :
  0 <= m -> 0 <= shr_m (fst (shr_fexp prec emax m e l)).
Proof.
  intros Hm. destruct (shr_fexp_m m e l Hm) as [-> _].
  destruct (0 <? _) eqn:Hn; [|done].
  apply Z.ltb_lt in Hn.
  apply Z.div_pos; [done|]. apply Z.pow_pos_nonneg; lia.
Qed.

(** Rounding keeps the sign and never produces a NaN. *)
Lemma binary_round_aux_sign sx mx ex lx :
  0 <= mx ->
  let f := binary_round_aux prec emax sx mx ex lx in
  f = S754_zero sx \/ (exists m e, f = S754_finite sx m e) \/
  f = S754_infinity sx.
Proof.
  intros Hm. rewrite binary_round_aux_unfold. cbv zeta.
  set (p1 := shr_fexp prec emax mx ex lx).
  set (mr := round_nearest_even _ _).
  assert (0 <= mr) as Hmr.
  { pose proof (shr_fexp_nonneg mx ex lx Hm).
    pose proof (round_nearest_even_bounds (shr_m (fst p1))
                  (loc_of_shr_record (fst p1))). subst mr p1. lia. }
  pose proof (shr_fexp_nonneg mr (snd p1) loc_Exact Hmr) as H2.
  set (p2 := shr_fexp prec emax mr (snd p1) loc_Exact) in *.
  destruct (shr_m (fst p2)) as [|m|m]; [by left| |lia].
  right. destruct (_ <=? _); eauto.
Qed.

Lemma shr_fexp_pos m e l :
  0 < m -> -1021 <= Zdigits2 m + e ->
  let p := shr_fexp prec emax m e l in
  0 < shr_m (fst p) /\ Zdigits2 (shr_m (fst p)) + snd p = Zdigits2 m + e.
Proof.
  intros Hm Hd. cbv zeta.
  destruct (shr_fexp_m m e l ltac:(lia)) as [-> ->].
  rewrite fexp_normal by done.
  pose proof (Zdigits2_bounds m Hm) as [Hlo Hhi].
  destruct (0 <? _) eqn:Hn; [|done].
  apply Z.ltb_lt in Hn.
  set (n := Zdigits2 m + e - 53 - e) in *.
  assert (0 < 2 ^ n) as Hpow by (apply Z.pow_pos_nonneg; lia).
  assert (2 ^ 52 <= m / 2 ^ n < 2 ^ 53) as Hq.
  { split.
    - apply Z.div_le_lower_bound; [done|].
      rewrite <- Z.pow_add_r by lia.
      replace (n + 52) with (Zdigits2 m - 1) by lia. done.
    - apply Z.div_lt_upper_bound; [done|].
      rewrite <- Z.pow_add_r by lia.
      replace (n + 53) with (Zdigits2 m) by lia. done. }
  split; [lia|].
  rewrite (Zdigits2_unique _ 53) by (simpl; lia). lia.
Qed.

(** A number that is not in the subnormal range is not rounded to zero. *)
Lemma binary_round_aux_nonzero sx mx ex lx :
  0 < mx -> -1021 <= Zdigits2 mx + ex ->
  f_is_zero (binary_round_aux prec emax sx mx ex lx) = false.
Proof.
  intros Hm Hd. rewrite binary_round_aux_unfold. cbv zeta.
  set (p1 := shr_fexp prec emax mx ex lx).
  destruct (shr_fexp_pos mx ex lx Hm Hd) as [H1 H1d]. fold p1 in H1, H1d.
  set (mr := round_nearest_even _ _).
  pose proof (round_nearest_even_bounds (shr_m (fst p1))
                (loc_of_shr_record (fst p1))) as Hr. fold mr in Hr.
  assert (-1021 <= Zdigits2 mr + snd p1) as Hd2.
  { pose proof (Zdigits2_mono (shr_m (fst p1)) mr H1 ltac:(lia)). lia. }
  destruct (shr_fexp_pos mr (snd p1) loc_Exact ltac:(lia) Hd2) as [H2 _].
  set (p2 := shr_fexp prec emax mr (snd p1) loc_Exact) in *.
  destruct (shr_m (fst p2)) as [|m|m]; [lia| |lia].
  by destruct (_ <=? _).
Qed.

Lemma pos_iter_xO mx d : Zpos (Pos.iter xO mx d) = Zpos mx * 2 ^ Zpos d.
Proof.
  induction d as [|d IH] using Pos.peano_ind.
  - simpl. lia.
  - rewrite Pos.iter_succ, Pos2Z.inj_xO, IH, Pos2Z.inj_succ, Z.pow_succ_r; lia.
Qed.

Lemma Zdigits2_shift m d :
  0 < m -> 0 <= d -> Zdigits2 (m * 2 ^ d) = Zdigits2 m + d.
Proof.
  intros Hm Hd. pose proof (Zdigits2_bounds m Hm) as [Hlo Hhi].
  pose proof (Zdigits2_pos m Hm).
  assert (0 < 2 ^ d) by (apply Z.pow_pos_nonneg; lia).
  apply Zdigits2_unique; [|lia]. split.
  - replace (Zdigits2 m + d - 1) with (Zdigits2 m - 1 + d) by lia.
    rewrite Z.pow_add_r by lia. nia.
  - rewrite Z.pow_add_r by lia. nia.
Qed.

Lemma shl_align_digits mx ex ex' :
  Zdigits2 (Zpos (fst (shl_align mx ex ex'))) + snd (shl_align mx ex ex') =
  Zdigits2 (Zpos mx) + ex.
Proof.
  unfold shl_align. destruct (ex' - ex) as [|d|d] eqn:Hd; try done.
  cbn [fst snd]. rewrite pos_iter_xO, Zdigits2_shift by lia. lia.
Qed.

Lemma binary_round_nonzero sx mx :
  f_is_zero (binary_round prec emax sx mx 0) = false.
Proof.
  unfold binary_round.
  pose proof (shl_align_digits mx 0
                (fexp prec emax (Zpos (digits2_pos mx) + 0))) as Hd.
  destruct (shl_align _ _ _) as [mz ez]. cbn [fst snd] in Hd.
  apply binary_round_aux_nonzero; [lia|].
  rewrite Hd. simpl. lia.
Qed.

Lemma binary_round_sign sx mx ex :
  let f := binary_round prec emax sx mx ex in
  f = S754_zero sx \/ (exists m e, f = S754_finite sx m e) \/
  f = S754_infinity sx.
Proof.
  unfold binary_round. destruct (shl_align _ _ _) as [mz ez].
  apply binary_round_aux_sign. lia.
Qed.

(** [float(z)] is zero only for [z = 0], and has the sign of [z]. *)
Lemma round_int_nonzero z : z <> 0 -> f_is_zero (round_int z) = false.
Proof.
  intros Hz. unfold round_int, binary_normalize.
  destruct z; [done| |]; apply binary_round_nonzero.
Qed.

Lemma round_int_sign z :
  round_int z = S754_zero false \/
  (exists m e, round_int z = S754_finite (z <? 0) m e) \/
  round_int z = S754_infinity (z <? 0).
Proof.
  unfold round_int, binary_normalize. destruct z as [|p|p]; [by left| |].
  - destruct (binary_round_sign false p 0) as [H|[H|H]]; auto.
  - pose proof (binary_round_nonzero true p) as Hnz.
    destruct (binary_round_sign true p 0) as [H|[H|H]]; auto.
    rewrite H in Hnz. discriminate.
Qed.

Lemma float_of_int_cases z f :
  float_of_int z = Ok f ->
  (z = 0 /\ f = S754_zero false) \/
  (z <> 0 /\ exists m e, f = S754_finite (z <? 0) m e).
Proof.
  unfold float_of_int. intros Hf.
  destruct (Z.eq_dec z 0) as [->|Hz].
  - left. split; [done|]. vm_compute in Hf. congruence.
  - right. split; [done|].
    pose proof (round_int_nonzero z Hz) as Hnz.
    destruct (round_int_sign z) as [H|[(m & e & H)|H]]; rewrite H in *.
    + discriminate.
    + exists m, e. congruence.
    + discriminate.
Qed.

End Rounding.

(** ** Quotients in binary64 *)

Section Quotients.

Lemma Zdigits2_nonneg m : 0 <= Zdigits2 m.
Proof. destruct m; simpl; lia. Qed.

Lemma Zdigits2_upper m k : 0 <= m < 2 ^ k -> 0 <= k -> Zdigits2 m <= k.
Proof.
  intros [Hm Hlt] Hk. destruct (Z.eq_dec m 0) as [->|Hne]; [done|].
  pose proof (Zdigits2_bounds m ltac:(lia)) as [Hlo _].
  destruct (Z_le_gt_dec (Zdigits2 m) k) as [|Hgt]; [done|].
  pose proof (Z.pow_le_mono_r 2 k (Zdigits2 m - 1)). lia.
Qed.

Lemma Zdigits2_succ m : 0 <= m -> Zdigits2 (m + 1) <= Zdigits2 m + 1.
Proof.
  intros Hm. destruct (Z.eq_dec m 0) as [->|Hne]; [simpl; lia|].
  pose proof (Zdigits2_bounds m ltac:(lia)) as [_ Hhi].
  pose proof (Zdigits2_pos m ltac:(lia)).
  apply Zdigits2_upper; [|lia]. rewrite Z.pow_add_r, Z.pow_1_r by lia. lia.
Qed.

(** The exponent and the magnitude after [shr_fexp]. *)
Lemma shr_fexp_bounds m e l :
  0 <= m ->
  let p := shr_fexp prec emax m e l in
  let d := Zdigits2 m + e in
  0 <= shr_m (fst p) /\
  snd p = Z.max e (fexp prec emax d) /\
  Zdigits2 (shr_m (fst p)) + snd p <= Z.max d (fexp prec emax d).
Proof.
  intros Hm. cbv zeta.
  pose proof (shr_fexp_nonneg m e l Hm) as Hnn.
  destruct (shr_fexp_m m e l Hm) as [Hpm Hpe].
  rewrite Hpm, Hpe in *. clear Hpm Hpe.
  set (d := Zdigits2 m + e) in *.
  destruct (0 <? fexp prec emax d - e) eqn:Hn.
  - apply Z.ltb_lt in Hn. split; [done|]. split; [lia|].
    set (n := fexp prec emax d - e) in *.
    assert (0 < 2 ^ n) by (apply Z.pow_pos_nonneg; lia).
    destruct (Z.eq_dec (m / 2 ^ n) 0) as [->|Hq]; [simpl; lia|].
    assert (0 < m / 2 ^ n) as Hpos by lia.
    assert (0 < m) as Hmpos.
    { destruct (Z.eq_dec m 0) as [->|]; [|lia]. by rewrite Z.div_0_l in Hq by lia. }
    pose proof (Zdigits2_bounds m Hmpos) as [_ Hhi].
    pose proof (Zdigits2_pos m Hmpos).
    assert (n < Zdigits2 m) as Hnd.
    { destruct (Z_lt_ge_dec n (Zdigits2 m)) as [|Hge]; [done|].
      pose proof (Z.pow_le_mono_r 2 (Zdigits2 m) n).
      rewrite Z.div_small in Hq by lia. done. }
    assert (Zdigits2 (m / 2 ^ n) <= Zdigits2 m - n); [|lia].
    apply Zdigits2_upper; [|lia]. split; [lia|].
    apply Z.div_lt_upper_bound; [done|].
    rewrite <- Z.pow_add_r by lia.
    by replace (n + (Zdigits2 m - n)) with (Zdigits2 m) by lia.
  - apply Z.ltb_ge in Hn. split; [done|]. split; lia.
Qed.

(** A number below [2^1023] in magnitude, with an exponent of at most 971,
    is not rounded to an infinity. *)
Lemma binary_round_aux_finite sx mx ex lx :
  0 <= mx -> ex <= 971 -> Zdigits2 mx + ex <= 1023 ->
  f_is_finite (binary_round_aux prec emax sx mx ex lx) = true.
Proof.
  intros Hm He Hd. rewrite binary_round_aux_unfold. cbv zeta.
  set (p1 := shr_fexp prec emax mx ex lx).
  destruct (shr_fexp_bounds mx ex lx Hm) as (H1 & H1e & H1d).
  fold p1 in H1, H1e, H1d.
  set (mr := round_nearest_even _ _).
  pose proof (round_nearest_even_bounds (shr_m (fst p1))
                (loc_of_shr_record (fst p1))) as Hr. fold mr in Hr.
  assert (Zdigits2 mr <= Zdigits2 (shr_m (fst p1)) + 1) as Hdr.
  { destruct (Z.eq_dec mr (shr_m (fst p1))) as [->|]; [lia|].
    replace mr with (shr_m (fst p1) + 1) by lia. by apply Zdigits2_succ. }
  destruct (shr_fexp_bounds mr (snd p1) loc_Exact ltac:(lia))
    as (H2 & H2e & _).
  set (p2 := shr_fexp prec emax mr (snd p1) loc_Exact) in *.
  assert (snd p2 <= 971) as Hfin.
  { rewrite H2e. unfold fexp, emin, prec, emax in *. lia. }
  destruct (shr_m (fst p2)) as [|m|m]; [done| |lia].
  replace (snd p2 <=? emax - prec) with true; [done|].
  symmetry. apply Z.leb_le. unfold emax, prec. lia.
Qed.

Lemma SFdiv_core_binary_bounds mx ex my ey :
  let '(q, e, _) := SFdiv_core_binary prec emax (Zpos mx) ex (Zpos my) ey in
  let dx := Zdigits2 (Zpos mx) + ex in
  let dy := Zdigits2 (Zpos my) + ey in
  0 <= q /\ e <= fexp prec emax (dx - dy) /\
  Zdigits2 q + e <= Z.max (dx - dy + 1) e.
Proof.
  unfold SFdiv_core_binary.
  set (d1 := Zdigits2 (Zpos mx)). set (d2 := Zdigits2 (Zpos my)).
  set (e' := Z.min (fexp prec emax (d1 + ex - (d2 + ey))) (ex - ey)).
  set (s := ex - ey - e').
  assert (0 <= s) as Hs by (subst s e'; lia).
  set (m' := match s with
             | 0 => Zpos mx
             | Zpos _ => Z.shiftl (Zpos mx) s
             | Zneg _ => 0
             end).
  assert (m' = Zpos mx * 2 ^ s) as Hm'.
  { subst m'. destruct s as [|p|p] eqn:Hp; [lia| |lia].
    by rewrite Z.shiftl_mul_pow2 by lia. }
  pose proof (Z.div_eucl_eq m' (Zpos my) ltac:(lia)) as Hdiv.
  pose proof (Z.mod_pos_bound m' (Zpos my) ltac:(lia)) as Hmod.
  unfold Z.modulo in Hmod.
  destruct (Z.div_eucl m' (Zpos my)) as [q r]. cbv zeta.
  assert (0 < 2 ^ s) as Hps by (apply Z.pow_pos_nonneg; lia).
  assert (0 <= q) as Hq by nia.
  split; [done|]. split; [subst e'; lia|].
  destruct (Z.eq_dec q 0) as [->|Hq0]; [simpl; lia|].
  pose proof (digits2_bounds mx) as [_ Hx]. fold (Zdigits2 (Zpos mx)) in Hx.
  pose proof (digits2_bounds my) as [Hy _]. fold (Zdigits2 (Zpos my)) in Hy.
  fold d1 in Hx. fold d2 in Hy.
  assert (0 < d1) by (subst d1; simpl; lia).
  assert (0 < d2) by (subst d2; simpl; lia).
  set (A := 2 ^ (d2 - 1)) in *. 
  assert (0 < A) by (apply Z.pow_pos_nonneg; lia).
  assert (q * A < 2 ^ (d1 + s)) as Hlt.
  { rewrite Z.pow_add_r by lia. nia. }
  assert (d2 - 1 < d1 + s) as Hexp.
  { destruct (Z_lt_ge_dec (d2 - 1) (d1 + s)) as [|Hge]; [done|].
    pose proof (Z.pow_le_mono_r 2 (d1 + s) (d2 - 1) ltac:(lia) ltac:(lia))
      as Hmono.
    fold A in Hmono.
    nia. }
  assert (Zdigits2 q <= d1 + s - d2 + 1); [|lia].
  apply Zdigits2_upper; [|lia]. split; [done|].
  replace (d1 + s) with ((d1 + s - d2 + 1) + (d2 - 1)) in Hlt by lia.
  rewrite Z.pow_add_r in Hlt by lia. fold A in Hlt. nia.
Qed.

(** A quotient by a number that is at least 2 in magnitude does not
    overflow. *)
Lemma fdiv_finite sx mx ex sy my ey :
  Zdigits2 (Zpos mx) + ex <= 1024 ->
  2 <= Zdigits2 (Zpos my) + ey ->
  f_is_finite (fdiv (S754_finite sx mx ex) (S754_finite sy my ey)) = true.
Proof.
  intros Hx Hy. unfold fdiv, SFdiv.
  pose proof (SFdiv_core_binary_bounds mx ex my ey) as H.
  destruct (SFdiv_core_binary prec emax (Zpos mx) ex (Zpos my) ey)
    as [[q e] l]. cbv zeta in H. destruct H as (Hq & He & Hd).
  assert (e <= 969) as He'.
  { unfold fexp, emin, prec, emax in He. lia. }
  apply binary_round_aux_finite; lia.
Qed.

Lemma valid_binary_finite sx mx ex :
  valid_binary prec emax (S754_finite sx mx ex) = true ->
  fexp prec emax (Zpos (digits2_pos mx) + ex) = ex /\ ex <= 971.
Proof.
  simpl. unfold bounded, canonical_mantissa.
  intros H. apply andb_true_iff in H as [H1 H2].
  apply Z.eqb_eq in H1. apply Z.leb_le in H2.
  unfold emax, prec in H2. split; [done|lia].
Qed.

Lemma shr_fexp_canonical mx ex :
  fexp prec emax (Zpos (digits2_pos mx) + ex) = ex ->
  shr_fexp prec emax (Zpos mx) ex loc_Exact =
    ({| shr_m := Zpos mx; shr_r := false; shr_s := false |}, ex).
Proof.
  intros Hc. unfold shr_fexp. simpl Zdigits2. rewrite Hc, Z.sub_diag. done.
Qed.

Lemma binary_round_aux_canonical sx mx ex :
  fexp prec emax (Zpos (digits2_pos mx) + ex) = ex -> ex <= 971 ->
  binary_round_aux prec emax sx (Zpos mx) ex loc_Exact = S754_finite sx mx ex.
Proof.
  intros Hc He. unfold binary_round_aux.
  rewrite shr_fexp_canonical by done. simpl.
  rewrite shr_fexp_canonical by done. simpl.
  replace (ex <=? emax - prec) with true; [done|].
  symmetry. apply Z.leb_le. unfold emax, prec. lia.
Qed.

Lemma binary_round_aux_canonical_double sx mx ex :
  fexp prec emax (Zpos (digits2_pos mx) + ex) = ex -> ex <= 971 ->
  binary_round_aux prec emax sx (Zpos mx~0) (ex - 1) loc_Exact =
  S754_finite sx mx ex.
Proof.
  intros Hc He. unfold binary_round_aux.
  assert (shr_fexp prec emax (Zpos mx~0) (ex - 1) loc_Exact =
          ({| shr_m := Zpos mx; shr_r := false; shr_s := false |}, ex)) as ->.
  { unfold shr_fexp. simpl Zdigits2.
    replace (Zpos (Pos.succ (digits2_pos mx)) + (ex - 1))
      with (Zpos (digits2_pos mx) + ex) by lia.
    rewrite Hc. replace (ex - (ex - 1)) with 1 by lia. simpl.
    f_equal. lia. }
  simpl. rewrite shr_fexp_canonical by done. simpl.
  replace (ex <=? emax - prec) with true; [done|].
  symmetry. apply Z.leb_le. unfold emax, prec. lia.
Qed.

(** Dividing a binary64 number by 1.0 returns it. *)
Lemma fdiv_one sx mx ex :
  valid_binary prec emax (S754_finite sx mx ex) = true ->
  fdiv (S754_finite sx mx ex) (round_int 1) = S754_finite sx mx ex.
Proof.
  intros Hv. destruct (valid_binary_finite sx mx ex Hv) as [Hc He].
  change (round_int 1) with (S754_finite false 4503599627370496 (-52)).
  unfold fdiv, SFdiv, SFdiv_core_binary.
  change (Zdigits2 (Zpos 4503599627370496)) with 53.
  simpl Zdigits2. set (d := Zpos (digits2_pos mx)) in *.
  assert (0 < d) by (subst d; lia).
  rewrite xorb_false_r.
  destruct (Z_le_gt_dec (d + ex - 53) (-1074)) as [Hsub|Hnorm].
  - (* subnormal *)
    assert (ex = -1074) as -> by (unfold fexp, emin, prec, emax in Hc; lia).
    replace (Z.min (fexp prec emax (d + -1074 - (53 + -52))) (-1074 - -52))
      with (-1074) by (unfold fexp, emin, prec, emax; lia).
    replace (-1074 - -52 - -1074) with 52 by lia.
    rewrite Z.shiftl_mul_pow2 by lia.
    change (2 ^ 52) with 4503599627370496.
    pose proof (Z.div_eucl_eq (Zpos mx * 4503599627370496)
                  4503599627370496 ltac:(lia)) as Hdiv.
    pose proof (Z.mod_pos_bound (Zpos mx * 4503599627370496)
                  4503599627370496 ltac:(lia)) as Hmod.
    unfold Z.modulo in Hmod.
    destruct (Z.div_eucl _ _) as [q r].
    assert (q = Zpos mx /\ r = 0) as [-> ->] by lia.
    change (new_location 4503599627370496 0) with loc_Exact.
    by apply binary_round_aux_canonical.
  - assert (ex = d + ex - 53) as Hex
      by (unfold fexp, emin, prec, emax in Hc; lia).
    replace (Z.min (fexp prec emax (d + ex - (53 + -52))) (ex - -52))
      with (ex - 1) by (unfold fexp, emin, prec, emax; lia).
    replace (ex - -52 - (ex - 1)) with 53 by lia.
    rewrite Z.shiftl_mul_pow2 by lia.
    change (2 ^ 53) with 9007199254740992.
    pose proof (Z.div_eucl_eq (Zpos mx * 9007199254740992)
                  4503599627370496 ltac:(lia)) as Hdiv.
    pose proof (Z.mod_pos_bound (Zpos mx * 9007199254740992)
                  4503599627370496 ltac:(lia)) as Hmod.
    unfold Z.modulo in Hmod.
    destruct (Z.div_eucl _ _) as [q r].
    assert (q = Zpos mx~0 /\ r = 0) as [-> ->] by lia.
    change (new_location 4503599627370496 0) with loc_Exact.
    by apply binary_round_aux_canonical_double.
Qed.

Lemma fexp_mono d d' : d <= d' -> fexp prec emax d <= fexp prec emax d'.
Proof. unfold fexp. lia. Qed.

(** Rounding a number that is not in the subnormal range and carries
    enough digits gives a binary64 number of at least the same order of
    magnitude, or an infinity. *)
Lemma binary_round_aux_normal sx mx ex lx :
  0 < mx -> -1021 <= Zdigits2 mx + ex ->
  ex <= fexp prec emax (Zdigits2 mx + ex) ->
  match binary_round_aux prec emax sx mx ex lx with
  | S754_finite s m e =>
      s = sx /\ valid_binary prec emax (S754_finite s m e) = true /\
      Zdigits2 mx + ex <= Zdigits2 (Zpos m) + e
  | S754_infinity s => s = sx
  | _ => False
  end.
Proof.
  intros Hm Hd He. rewrite binary_round_aux_unfold. cbv zeta.
  set (p1 := shr_fexp prec emax mx ex lx).
  destruct (shr_fexp_pos mx ex lx Hm Hd) as [H1 H1d].
  destruct (shr_fexp_bounds mx ex lx ltac:(lia)) as (_ & H1e & _).
  fold p1 in H1, H1d, H1e.
  set (mr := round_nearest_even _ _).
  pose proof (round_nearest_even_bounds (shr_m (fst p1))
                (loc_of_shr_record (fst p1))) as Hr. fold mr in Hr.
  pose proof (Zdigits2_mono (shr_m (fst p1)) mr H1 ltac:(lia)) as Hmono.
  destruct (shr_fexp_pos mr (snd p1) loc_Exact ltac:(lia) ltac:(lia))
    as [H2 H2d].
  destruct (shr_fexp_bounds mr (snd p1) loc_Exact ltac:(lia))
    as (_ & H2e & _).
  set (p2 := shr_fexp prec emax mr (snd p1) loc_Exact) in *.
  pose proof (fexp_mono (Zdigits2 mx + ex) (Zdigits2 mr + snd p1)
                ltac:(lia)) as Hfm.
  destruct (shr_m (fst p2)) as [|m|m] eqn:Hm2; [lia| |lia].
  destruct (snd p2 <=? emax - prec) eqn:Hfin; [|done].
  split; [done|]. split; [|lia].
  simpl. unfold bounded, canonical_mantissa. rewrite Hfin, andb_true_r.
  apply Z.eqb_eq. simpl in H2d. rewrite H2d. lia.
Qed.

Lemma shl_align_exponent mx ex ex' :
  0 <= ex' - ex \/ snd (shl_align mx ex ex') = ex'.
Proof.
  unfold shl_align. destruct (ex' - ex) as [|d|d] eqn:Hd; [lia|lia|by right].
Qed.

Lemma shl_align_exponent_eq mx ex ex' :
  0 <= ex' - ex -> snd (shl_align mx ex ex') = ex.
Proof.
  unfold shl_align. by destruct (ex' - ex) as [|d|d] eqn:Hd; [| |lia].
Qed.

Lemma binary_round_normal sx mx :
  match binary_round prec emax sx mx 0 with
  | S754_finite s m e =>
      s = sx /\ valid_binary prec emax (S754_finite s m e) = true /\
      Zdigits2 (Zpos mx) <= Zdigits2 (Zpos m) + e
  | S754_infinity s => s = sx
  | _ => False
  end.
Proof.
  unfold binary_round.
  pose proof (shl_align_digits mx 0
                (fexp prec emax (Zpos (digits2_pos mx) + 0))) as Hd.
  pose proof (shl_align_exponent mx 0
                (fexp prec emax (Zpos (digits2_pos mx) + 0))) as He.
  pose proof (shl_align_exponent_eq mx 0
                (fexp prec emax (Zpos (digits2_pos mx) + 0))) as He'.
  destruct (shl_align _ _ _) as [mz ez]. cbn [fst snd] in *.
  simpl Zdigits2 in Hd.
  pose proof (binary_round_aux_normal sx (Zpos mz) ez loc_Exact
                ltac:(lia)) as H.
  simpl Zdigits2 in H. rewrite Hd in H.
  replace (Zdigits2 (Zpos mx)) with (Zpos (digits2_pos mx)) by done.
  replace (Zpos (digits2_pos mx)) with (Zpos (digits2_pos mx) + 0) at 1 by lia.
  apply H; [lia|]. destruct He as [He|He]; [|lia].
  rewrite He' by done. lia.
Qed.

(** [float(z)] for [z >= 1]: a binary64 number of the order of magnitude
    of [z] at least, or an infinity. *)
Lemma round_int_positive z :
  1 <= z ->
  round_int z = S754_infinity false \/
  exists m e,
    round_int z = S754_finite false m e /\
    valid_binary prec emax (S754_finite false m e) = true /\
    Zdigits2 z <= Zdigits2 (Zpos m) + e.
Proof.
  intros Hz. unfold round_int, binary_normalize.
  destruct z as [|p|p]; [lia| |lia].
  pose proof (binary_round_normal false p) as H.
  destruct (binary_round prec emax false p 0) as [s0|s| |s m e]; try done.
  - left. by subst.
  - right. destruct H as (-> & Hv & Hd). eauto.
Qed.

Lemma round_int_valid z : valid_binary prec emax (round_int z) = true.
Proof.
  unfold round_int, binary_normalize. destruct z as [|p|p]; [done| |].
  - pose proof (binary_round_normal false p) as H.
    destruct (binary_round prec emax false p 0); try done. by destruct H as (_ & ? & _).
  - pose proof (binary_round_normal true p) as H.
    destruct (binary_round prec emax true p 0); try done. by destruct H as (_ & ? & _).
Qed.

Lemma valid_binary_digits sx mx ex :
  valid_binary prec emax (S754_finite sx mx ex) = true ->
  Zdigits2 (Zpos mx) + ex <= 1024.
Proof.
  intros Hv. destruct (valid_binary_finite sx mx ex Hv) as [Hc He].
  simpl. unfold fexp, emin, prec, emax in Hc. lia.
Qed.

End Quotients.

(** ** The vector field *)

Section VectorField.

Implicit Types (x y s i r n beta gamma : num).

(** Case analysis on the first computation of a chain of [bind]s. *)
Ltac bind_step :=
  match goal with
  | |- context [bind ?r _] =>
      let H := fresh "Hstep" in destruct r eqn:H; cbn [bind]
  end.

Lemma as_num_of_num x : as_num (of_num x) = Some x.
Proof. by destruct x. Qed.

Lemma add_value_of_num acc x : add_value acc (of_num x) = add acc x.
Proof. unfold add_value. by rewrite as_num_of_num. Qed.

(** [sum((S, I, R))] is [((0 + S) + I) + R]. *)
Lemma sum_three s i r :
  sum (map of_num [s; i; r]) =
  bind (add (NInt 0) s) (fun a =>
  bind (add a i) (fun b =>
  add b r)).
Proof.
  unfold sum. cbn [map sum_from]. rewrite add_value_of_num.
  destruct (add (NInt 0) s) as [a|]; cbn [bind]; [|done].
  rewrite add_value_of_num.
  destruct (add a i) as [b|]; cbn [bind]; [|done].
  rewrite add_value_of_num. by destruct (add b r).
Qed.

Lemma alike_refl x : alike x x.
Proof. by left. Qed.

Lemma alike_zero x y : alike x y -> is_zero x = is_zero y.
Proof. by intros [->|(s & s' & -> & ->)]. Qed.

Lemma alike_nonzero x y : alike x y -> is_zero y = false -> x = y.
Proof. by intros [->|(s & s' & -> & ->)]. Qed.

(** The [int] 0 that [sum] starts from changes at most the sign of a
    zero. *)
Lemma add_zero_l s : exists a, add (NInt 0) s = Ok a /\ alike a s.
Proof.
  destruct s as [z|f].
  - exists (NInt z). split; [done|apply alike_refl].
  - exists (NFloat (fadd pzero f)). split; [done|].
    destruct f as [[]| | |]; simpl; try apply alike_refl.
    right. by exists false, true.
Qed.

Lemma fadd_zero_alike (sg sg' : bool) f :
  alike (NFloat (fadd (S754_zero sg) f)) (NFloat (fadd (S754_zero sg') f)).
Proof.
  destruct f as [sf| | |]; simpl; try apply alike_refl.
  right. destruct sg, sg', sf; simpl; eauto.
Qed.

(** Addition respects [alike] in its left operand. *)
Lemma add_alike x x' y :
  alike x x' -> alike_results (add x y) (add x' y).
Proof.
  intros [->|(s & s' & -> & ->)].
  - destruct (add x' y); simpl; [apply alike_refl|done].
  - destruct y as [b|g]; simpl; unfold float_op; simpl.
    + destruct (float_of_int b) as [f|e]; simpl; [|done].
      apply fadd_zero_alike.
    + apply fadd_zero_alike.
Qed.

(** [sum] computes the population [S + I + R] up to the sign of a zero. *)
Lemma sum_alike_population s i r :
  alike_results (sum (map of_num [s; i; r])) (Spec.population s i r).
Proof.
  rewrite sum_three. unfold Spec.population.
  destruct (add_zero_l s) as (a & -> & Ha). simpl.
  pose proof (add_alike a s i Ha) as Hb.
  destruct (add a i) as [b|e], (add s i) as [b'|e']; simpl in *; try done.
  apply add_alike, Hb.
Qed.

Lemma sum_is_population s i r n :
  Spec.population s i r = Ok n -> is_zero n = false ->
  sum (map of_num [s; i; r]) = Ok n.
Proof.
  intros Hn Hz. pose proof (sum_alike_population s i r) as H.
  rewrite Hn in H. destruct (sum _) as [n'|]; simpl in H; [|done].
  f_equal. by apply alike_nonzero.
Qed.

(** ** C1 *)



(** *** What the operators can raise *)

Lemma to_float_raise x e : to_float x = Raise e -> e = OverflowError.
Proof.
  destruct x as [z|f]; simpl; [|done]. unfold float_of_int.
  destruct (round_int z); congruence.
Qed.

Lemma float_op_raise op x y e :
  float_op op x y = Raise e -> e = OverflowError.
Proof.
  unfold float_op.
  destruct (to_float x) as [a|e1] eqn:Hx; cbn [bind].
  - destruct (to_float y) as [b|e2] eqn:Hy; cbn [bind]; [done|].
    intros [= <-]. by eapply to_float_raise.
  - intros [= <-]. by eapply to_float_raise.
Qed.

Lemma mul_raise x y e : mul x y = Raise e -> e = OverflowError.
Proof. destruct x, y; simpl; try done; apply float_op_raise. Qed.

Lemma sub_raise x y e : sub x y = Raise e -> e = OverflowError.
Proof. destruct x, y; simpl; try done; apply float_op_raise. Qed.

Create HintDb raises.
#[local] Hint Resolve mul_raise sub_raise to_float_raise : raises.

Lemma to_float_is_zero x f : to_float x = Ok f -> f_is_zero f = is_zero x.
Proof.
  destruct x as [z|g]; simpl; [|congruence].
  intros Hf. destruct (float_of_int_cases z f Hf) as [[-> ->]|[Hz (m & e & ->)]].
  - done.
  - simpl. symmetry. by apply Z.eqb_neq.
Qed.

Lemma truediv_raise x y e :
  truediv x y = Raise e ->
  (e = ZeroDivisionError /\ is_zero y = true) \/ e = OverflowError.
Proof.
  assert (forall a b,
            bind (to_float a) (fun fa => bind (to_float b) (fun fb =>
              if f_is_zero fb then Raise ZeroDivisionError
              else Ok (NFloat (fdiv fa fb)))) = Raise e ->
            (e = ZeroDivisionError /\ is_zero b = true) \/ e = OverflowError)
    as Hmixed.
  { intros a b.
    destruct (to_float a) as [fa|e1] eqn:Ha; cbn [bind];
      [|intros [= <-]; right; by eapply to_float_raise].
    destruct (to_float b) as [fb|e2] eqn:Hb; cbn [bind];
      [|intros [= <-]; right; by eapply to_float_raise].
    destruct (f_is_zero fb) eqn:Hz; [|done].
    intros [= <-]. left. split; [done|].
    by rewrite <- (to_float_is_zero b fb Hb). }
  destruct x as [a|f], y as [b|g]; try apply Hmixed.
  simpl. destruct (b =? 0) eqn:Hb.
  - intros [= <-]. by left.
  - destruct (round_quotient a b); try done. intros [= <-]. by right.
Qed.

Lemma truediv_by_zero_cases x y :
  is_zero y = true ->
  truediv x y = Raise ZeroDivisionError \/ truediv x y = Raise OverflowError.
Proof.
  intros Hz. destruct (to_float x) as [f|e] eqn:Hx.
  - left. apply truediv_by_zero; eauto.
  - destruct x as [a|f]; [|done]. destruct y as [b|g].
    + left. apply truediv_by_zero; eauto.
    + right. simpl in *. rewrite Hx. simpl.
      by rewrite (to_float_raise (NInt a) e Hx).
Qed.

Lemma sum_of_population s i r n :
  Spec.population s i r = Ok n ->
  exists n', sum (map of_num [s; i; r]) = Ok n' /\ alike n' n.
Proof.
  intros Hn. pose proof (sum_alike_population s i r) as H.
  rewrite Hn in H. destruct (sum _) as [n'|]; simpl in H; [|done]. eauto.
Qed.

Lemma all_int_inv x l : all_int (x :: l) -> (exists z, x = NInt z) /\ all_int l.
Proof. intros H. by inversion H. Qed.

Lemma all_float_inv x l :
  all_float (x :: l) -> (exists f, x = NFloat f) /\ all_float l.
Proof. intros H. by inversion H. Qed.

(** With a population of zero the evaluation raises. *)
Lemma call_zero_population beta gamma s i r (t : value) n :
  Spec.population s i r = Ok n -> is_zero n = true ->
  (__call__ beta gamma [s; i; r] t = Raise ZeroDivisionError \/
   __call__ beta gamma [s; i; r] t = Raise OverflowError) /\
  (all_int [beta; s; i; r] \/ all_float [beta; s; i; r] ->
   __call__ beta gamma [s; i; r] t = Raise ZeroDivisionError).
Proof.
  intros Hn Hz.
  destruct (sum_of_population s i r n Hn) as (n' & Hsum & Hn').
  assert (is_zero n' = true) as Hz' by (by rewrite (alike_zero n' n)).
  unfold __call__. rewrite Hsum. split.
  - destruct (mul (neg beta) s) as [x|e] eqn:H1; cbn [bind];
      [|right; by rewrite (mul_raise _ _ _ H1)].
    destruct (mul x i) as [x'|e] eqn:H2; cbn [bind];
      [|right; by rewrite (mul_raise _ _ _ H2)].
    destruct (truediv_by_zero_cases x' n' Hz') as [-> | ->]; auto.
  - intros [Hint|Hfloat].
    + apply all_int_inv in Hint as [[b ->] Hint].
      apply all_int_inv in Hint as [[a ->] Hint].
      apply all_int_inv in Hint as [[c ->] Hint].
      apply all_int_inv in Hint as [[d ->] _].
      simpl in Hsum. injection Hsum as <-. simpl in *. by rewrite Hz'.
    + apply all_float_inv in Hfloat as [[b ->] Hfloat].
      apply all_float_inv in Hfloat as [[a ->] Hfloat].
      apply all_float_inv in Hfloat as [[c ->] _].
      cbn [neg mul float_op to_float bind].
      rewrite (truediv_by_zero _ n' Hz'); [done|]. left. by eexists.
Qed.

(** With a population that is not zero the evaluation raises nothing but
    an [OverflowError]. *)
Lemma call_nonzero_population beta gamma s i r (t : value) n e :
  Spec.population s i r = Ok n -> is_zero n = false ->
  __call__ beta gamma [s; i; r] t = Raise e -> e = OverflowError.
Proof.
  intros Hn Hz. unfold __call__.
  rewrite (sum_is_population s i r n Hn Hz).
  assert (forall x e', truediv x n = Raise e' -> e' = OverflowError) as Hdiv.
  { intros x e' H. destruct (truediv_raise x n e' H) as [[_ Hz']|]; [|done].
    congruence. }
  repeat (bind_step; [|intros [= <-]; eauto with raises]).
  done.
Qed.

(** On [float] operands with a population that is not zero the evaluation
    returns. *)
Lemma call_floats_return beta gamma s i r (t : value) n :
  Spec.population s i r = Ok n -> is_zero n = false ->
  all_float [beta; gamma; s; i; r] ->
  returns (__call__ beta gamma [s; i; r] t).
Proof.
  intros Hn Hz Hfloat.
  apply all_float_inv in Hfloat as [[b ->] Hfloat].
  apply all_float_inv in Hfloat as [[g ->] Hfloat].
  apply all_float_inv in Hfloat as [[a ->] Hfloat].
  apply all_float_inv in Hfloat as [[c ->] Hfloat].
  apply all_float_inv in Hfloat as [[d ->] _].
  unfold __call__. rewrite (sum_is_population _ _ _ n Hn Hz).
  simpl in Hn. injection Hn as <-. simpl in Hz.
  cbn [neg mul sub truediv float_op to_float bind]. rewrite Hz.
  by eexists.
Qed.

(** *** Signs *)

Lemma pow2_pos k : 0 <= k -> 0 < 2 ^ k.
Proof. intros. apply Z.pow_pos_nonneg; lia. Qed.

Lemma dyadic_compare_zero m e :
  dyadic_compare m e 0 0 = (m ?= 0).
Proof.
  unfold dyadic_compare. rewrite Z.mul_0_l.
  pose proof (pow2_pos (e - e `min` 0) ltac:(lia)) as Hp.
  destruct (Z.compare_spec m 0) as [->|Hm|Hm].
  - by rewrite Z.mul_0_l.
  - apply Z.compare_lt_iff. nia.
  - apply Z.compare_gt_iff. nia.
Qed.

Lemma ge_zero_float f : ge (NFloat f) (NInt 0) = f_nonnegative f.
Proof.
  unfold ge, compare. destruct f as [sg|sg| |sg m e]; simpl; try done.
  - by destruct sg.
  - rewrite dyadic_compare_zero. by destruct sg.
Qed.

Lemma ge_zero_int k : ge (NInt k) (NInt 0) = (0 <=? k).
Proof.
  unfold ge, compare. simpl. rewrite dyadic_compare_zero.
  destruct (Z.compare_spec k 0); symmetry;
    first [apply Z.leb_le; lia | apply Z.leb_gt; lia].
Qed.

Lemma gt_zero_float f :
  gt (NFloat f) (NInt 0) = true ->
  f = S754_infinity false \/ exists m e, f = S754_finite false m e.
Proof.
  unfold gt, compare. destruct f as [sg|sg| |sg m e]; simpl; try done.
  - destruct sg; [done|auto].
  - rewrite dyadic_compare_zero. destruct sg; [done|eauto].
Qed.

Lemma gt_zero_int k : gt (NInt k) (NInt 0) = true -> 0 < k.
Proof.
  unfold gt, compare. simpl. rewrite dyadic_compare_zero.
  destruct (Z.compare_spec k 0); intros; try done; lia.
Qed.

Lemma fmul_nonnegative m e g :
  f_nonnegative g = true ->
  f_nonnegative (fmul (S754_finite false m e) g) = true.
Proof.
  destruct g as [sg|sg| |sg m' e']; simpl; try done.
  intros Hs. apply negb_true_iff in Hs. subst sg. simpl.
  destruct (binary_round_aux_sign false (Zpos (m * m')) (e + e') loc_Exact)
    as [H|[(m0 & e0 & H)|H]]; [lia| | |]; by rewrite H.
Qed.

(** The product of a positive finite number and a non-negative number is
    non-negative. *)
Lemma mul_nonnegative x y p :
  gt x (NInt 0) = true -> is_finite x = true -> ge y (NInt 0) = true ->
  mul x y = Ok p -> ge p (NInt 0) = true.
Proof.
  intros Hx Hfin Hy Hp.
  assert (forall fx fy,
            to_float x = Ok fx -> to_float y = Ok fy ->
            f_nonnegative (fmul fx fy) = true) as Hfloat.
  { intros fx fy Hfx Hfy.
    assert (exists m e, fx = S754_finite false m e) as (m & e & ->).
    { destruct x as [k|f]; simpl in Hfx.
      - apply gt_zero_int in Hx.
        destruct (float_of_int_cases k fx Hfx) as [[-> _]|[_ (m & e & ->)]];
          [lia|].
        replace (k <? 0) with false by (symmetry; apply Z.ltb_ge; lia). eauto.
      - injection Hfx as <-.
        destruct (gt_zero_float f Hx) as [->|H]; [done|done]. }
    apply fmul_nonnegative.
    destruct y as [k|f]; simpl in Hfy.
    - rewrite ge_zero_int in Hy. apply Z.leb_le in Hy.
      destruct (float_of_int_cases k fy Hfy) as [[_ ->]|[_ (m' & e' & ->)]];
        [done|].
      simpl. replace (k <? 0) with false by (symmetry; apply Z.ltb_ge; lia).
      done.
    - injection Hfy as <-. by rewrite <- ge_zero_float. }
  assert (float_op fmul x y = Ok p -> ge p (NInt 0) = true) as Hop.
  { unfold float_op.
    destruct (to_float x) as [fx|] eqn:Hfx; cbn [bind]; [|done].
    destruct (to_float y) as [fy|] eqn:Hfy; cbn [bind]; [|done].
    intros [= <-]. rewrite ge_zero_float. by apply Hfloat. }
  destruct x as [a|fx], y as [b|fy]; try (by apply Hop).
  simpl in Hp. injection Hp as <-.
  apply gt_zero_int in Hx. rewrite ge_zero_int in Hy. apply Z.leb_le in Hy.
  rewrite ge_zero_int. apply Z.leb_le. nia.
Qed.

(** The third component of the vector field is [gamma * I]. *)
Lemma call_third_component beta gamma s i r (t : value) a b c :
  __call__ beta gamma [s; i; r] t = Ok (a, b, c) -> mul gamma i = Ok c.
Proof.
  unfold __call__.
  repeat (bind_step; [|done]).
  congruence.
Qed.

(** For a positive finite [gamma], the rate of recovery [dR/dt] that the
    vector field returns is non-negative wherever [I >= 0]. *)
Lemma recovery_rate_nonnegative beta gamma s i r (t : value) a b c :
  gt gamma (NInt 0) = true -> is_finite gamma = true ->
  ge i (NInt 0) = true ->
  __call__ beta gamma [s; i; r] t = Ok (a, b, c) ->
  mul gamma i = Ok c /\ ge c (NInt 0) = true.
Proof.
  intros Hg Hfin Hi Hcall.
  pose proof (call_third_component _ _ _ _ _ _ _ _ _ Hcall) as Hc.
  split; [done|]. by eapply mul_nonnegative.
Qed.

(** ** C7 *)

(** *** The state as an array *)

(** On an array the evaluation raises nothing but the [OverflowError] of
    the conversion of a rate parameter. *)
Lemma array_call_raise beta gamma (s i r : spec_float) (t : value) e :
  __call__ndarray beta gamma [s; i; r] t = Raise e -> e = OverflowError.
Proof.
  unfold __call__ndarray. cbv zeta.
  destruct (to_float (neg beta)) as [x|e1] eqn:H1; cbn [bind];
    [|intros [= <-]; by eapply to_float_raise].
  destruct (to_float beta) as [y|e2] eqn:H2; cbn [bind];
    [|intros [= <-]; by eapply to_float_raise].
  destruct (to_float gamma) as [z|e3] eqn:H3; cbn [bind];
    [done|intros [= <-]; by eapply to_float_raise].
Qed.

Lemma array_call_returns beta gamma (s i r : spec_float) (t : value) :
  all_float [beta; gamma] -> returns (__call__ndarray beta gamma [s; i; r] t).
Proof.
  intros Hfloat.
  apply all_float_inv in Hfloat as [[b ->] Hfloat].
  apply all_float_inv in Hfloat as [[g ->] _].
  by eexists.
Qed.

(** With a population of zero the first two rates are infinite or NaN. *)
Lemma array_call_zero_population beta gamma (s i r : spec_float) (t : value)
    dS dI dR :
  f_is_zero (ndarray_sum [s; i; r]) = true ->
  __call__ndarray beta gamma [s; i; r] t = Ok (dS, dI, dR) ->
  f_is_finite dS = false /\ f_is_finite dI = false.
Proof.
  unfold __call__ndarray. cbv zeta.
  set (n := ndarray_sum [s; i; r]). intros Hz.
  destruct (to_float (neg beta)) as [x|]; cbn [bind]; [|done].
  destruct (to_float beta) as [y|]; cbn [bind]; [|done].
  destruct (to_float gamma) as [z|]; cbn [bind]; [|done].
  intros Hcall. injection Hcall as <- <- <-.
  destruct n as [sn| | |]; try done.
  split.
  - by destruct (fmul (fmul x s) i) as [[]|[]| |[]], sn.
  - by destruct (fmul (fmul y s) i) as [[]|[]| |[]], sn,
         (fmul z i) as [[]|[]| |[]].
Qed.

(** With a population that is not zero, the evaluation on an array is the
    evaluation on the same numbers as Python [float]s. *)
Lemma array_call_agrees beta gamma (s i r : spec_float) (t : value) :
  f_is_zero (ndarray_sum [s; i; r]) = false ->
  __call__ beta gamma [NFloat s; NFloat i; NFloat r] t =
  bind (__call__ndarray beta gamma [s; i; r] t) (fun '(dS, dI, dR) =>
  Ok (NFloat dS, NFloat dI, NFloat dR)).
Proof.
  intros Hz. unfold __call__, __call__ndarray. cbv zeta.
  assert (sum (map of_num [NFloat s; NFloat i; NFloat r]) =
          Ok (NFloat (ndarray_sum [s; i; r]))) as -> by done.
  set (n := ndarray_sum [s; i; r]) in *.
  assert (forall x (a : spec_float), mul x (NFloat a) =
            bind (to_float x) (fun b => Ok (NFloat (fmul b a)))) as Hmul.
  { intros [b|f] a; [|done]. unfold mul, float_op.
    by destruct (to_float (NInt b)). }
  rewrite !Hmul.
  destruct (to_float (neg beta)) as [x|]; cbn [bind]; [|done].
  cbn [mul float_op to_float bind truediv]. rewrite Hz.
  destruct (to_float beta) as [y|]; cbn [bind]; [|done].
  cbn [mul float_op to_float bind truediv]. rewrite Hz.
  destruct (to_float gamma) as [z|]; cbn [bind]; done.
Qed.

(** C7 (as amended): for a state [(S, I, R)] and rates that are numbers
    of the built-in types [int] and [float], evaluating the vector field
    with [S + I + R == 0] fails: with a [ZeroDivisionError], unless the
    conversion of an [int] operand to [float] raises an [OverflowError]
    first; on operands that are all [int]s or all [float]s it is a
    [ZeroDivisionError].  With [S + I + R != 0] the division by zero is
    unreachable: the evaluation raises nothing but an [OverflowError], and
    on [float] operands it returns.  For a state that is a float64 array,
    as [odeint] passes it, no population makes the evaluation fail: it
    raises nothing but the [OverflowError] of the conversion of an [int]
    rate, and with [float] rates it returns.  With [sum(u) == 0] the rates
    [dS/dt] and [dI/dt] that it returns are infinite or NaN; with
    [sum(u) != 0] it returns what the evaluation on the same numbers as
    Python [float]s returns. *)
Theorem population_zero_division beta gamma :
  (forall s i r (t : value) n,
     Spec.population s i r = Ok n ->
     (is_zero n = true ->
        raises (__call__ beta gamma [s; i; r] t) /\
        (__call__ beta gamma [s; i; r] t = Raise ZeroDivisionError \/
         __call__ beta gamma [s; i; r] t = Raise OverflowError) /\
        (all_int [beta; s; i; r] \/ all_float [beta; s; i; r] ->
         __call__ beta gamma [s; i; r] t = Raise ZeroDivisionError)) /\
     (is_zero n = false ->
        __call__ beta gamma [s; i; r] t <> Raise ZeroDivisionError /\
        (forall e, __call__ beta gamma [s; i; r] t = Raise e ->
           e = OverflowError) /\
        (all_float [beta; gamma; s; i; r] ->
         returns (__call__ beta gamma [s; i; r] t)))) /\
  (forall (s i r : spec_float) (t : value),
     (forall e, __call__ndarray beta gamma [s; i; r] t = Raise e ->
        e = OverflowError) /\
     (all_float [beta; gamma] ->
      returns (__call__ndarray beta gamma [s; i; r] t)) /\
     (f_is_zero (ndarray_sum [s; i; r]) = true ->
      forall dS dI dR,
        __call__ndarray beta gamma [s; i; r] t = Ok (dS, dI, dR) ->
        f_is_finite dS = false /\ f_is_finite dI = false) /\
     (f_is_zero (ndarray_sum [s; i; r]) = false ->
      __call__ beta gamma [NFloat s; NFloat i; NFloat r] t =
      bind (__call__ndarray beta gamma [s; i; r] t) (fun '(dS, dI, dR) =>
      Ok (NFloat dS, NFloat dI, NFloat dR)))).
Proof.
  split.
  - intros s i r t n Hn. split; intros Hz.
    + destruct (call_zero_population beta gamma s i r t n Hn Hz) as [H1 H2].
      split; [|done]. destruct H1 as [-> | ->]; by eexists.
    + split; [|split].
      * intros H.
        by pose proof (call_nonzero_population _ _ _ _ _ _ _ _ Hn Hz H).
      * intros e. by apply call_nonzero_population with (n := n).
      * by apply call_floats_return with (n := n).
  - intros s i r t. split; [|split; [|split]].
    + intros e. apply array_call_raise.
    + apply array_call_returns.
    + intros Hz dS dI dR. by apply array_call_zero_population.
    + apply array_call_agrees.
Qed.

Lemma population_zero_division_witness :
  let beta := NFloat (round_quotient 3 10) in
  let gamma := NFloat (round_quotient 1 10) in
  let z := NFloat pzero in
  let one := round_int 1 in
  (Spec.population z z z = Ok z /\ is_zero z = true /\
   __call__ beta gamma [z; z; z] VNone = Raise ZeroDivisionError) /\
  (f_is_zero (ndarray_sum [pzero; pzero; pzero]) = true /\
   exists dS dI dR,
     __call__ndarray beta gamma [pzero; pzero; pzero] VNone
       = Ok (dS, dI, dR) /\
     f_is_finite dS = false /\ f_is_finite dI = false) /\
  (f_is_zero (ndarray_sum [one; one; pzero]) = false /\
   __call__ beta gamma [NFloat one; NFloat one; NFloat pzero] VNone =
   bind (__call__ndarray beta gamma [one; one; pzero] VNone)
     (fun '(dS, dI, dR) => Ok (NFloat dS, NFloat dI, NFloat dR)) /\
   returns (__call__ndarray beta gamma [one; one; pzero] VNone)).
Proof.
  intros beta gamma z one.
  destruct (population_zero_division beta gamma) as [Hnum Harr].
  split; [|split].
  - destruct (Hnum z z z VNone z eq_refl) as [Hzero _].
    destruct (Hzero eq_refl) as (_ & _ & Hdiv).
    split; [reflexivity|]. split; [reflexivity|].
    apply Hdiv. right. repeat constructor; by eexists.
  - destruct (Harr pzero pzero pzero VNone) as (_ & Hret & Hzero & _).
    split; [reflexivity|].
    destruct Hret as [[[dS dI] dR] Hcall];
      [repeat constructor; by eexists|].
    exists dS, dI, dR. split; [exact Hcall|].
    exact (Hzero eq_refl dS dI dR Hcall).
  - destruct (Harr one one pzero VNone) as (_ & Hret & _ & Hsame).
    split; [reflexivity|]. split; [exact (Hsame eq_refl)|].
    apply Hret. repeat constructor; by eexists.
Defined.

(** C7 (as stated) fails twice.  On the array [[0.0, 0.0, 0.0]], a state
    with [S + I + R == 0] as [odeint] passes it, the evaluation does not
    fail: it returns [(nan, nan, 0.0)], and the construction from
    [N0 = (0, 0, 0)] succeeds.  With [beta = 0.5] and the state
    [(2**1024, 1, 0)] the population is not zero and the evaluation does
    not return: the product [-beta * S] raises an [OverflowError]. *)
Lemma population_zero_counterexample :
  let beta := NFloat (round_quotient 1 2) in
  let gamma := NFloat (round_quotient 1 10) in
  let s := NInt (2 ^ 1024) in
  let kwargs := <["N0" := Obj (VTuple [VInt 0; VInt 0; VInt 0])]>
                (<["T" := Obj (VInt 10)]> (<["dt" := Obj (VInt 3)]> ∅)) in
  (f_is_zero (ndarray_sum [pzero; pzero; pzero]) = true /\
   __call__ndarray beta gamma [pzero; pzero; pzero] VNone
     = Ok (S754_nan, S754_nan, pzero) /\
   ~ raises (__call__ndarray beta gamma [pzero; pzero; pzero] VNone)) /\
  (exists sim,
     __init__ Euler.odeint (VFloat (round_quotient 1 2))
       (VFloat (round_quotient 1 10)) kwargs = Ok sim /\
     _total sim = NInt 0 /\
     _n sim = [[pzero; pzero; pzero];
               [S754_nan; S754_nan; pzero];
               [S754_nan; S754_nan; S754_nan]]) /\
  (Spec.population s (NInt 1) (NInt 0) = Ok (NInt (2 ^ 1024 + 1)) /\
   is_zero (NInt (2 ^ 1024 + 1)) = false /\
   __call__ beta gamma [s; NInt 1; NInt 0] VNone = Raise OverflowError /\
   ~ returns (__call__ beta gamma [s; NInt 1; NInt 0] VNone)).
Proof.
  intros beta gamma s kwargs.
  split; [|split].
  - split; [reflexivity|]. split; [reflexivity|]. by intros [e He].
  - eexists. split; [by vm_compute|]. split; reflexivity.
  - assert (__call__ beta gamma [s; NInt 1; NInt 0] VNone
            = Raise OverflowError) as H by (by vm_compute).
    split; [by vm_compute|]. split; [by vm_compute|]. split; [done|].
    rewrite H. by intros [triple Ht].
Qed.

End VectorField.

(** ** The time grid *)

Section Linspace.

Lemma arange_length n : length (arange n) = Z.to_nat n.
Proof. unfold arange. by rewrite length_map, length_seq. Qed.

Lemma arange_lookup n (k : nat) :
  (k < Z.to_nat n)%nat -> arange n !! k = Some (round_int (Z.of_nat k)).
Proof.
  intros Hk. unfold arange. rewrite list_lookup_fmap.
  by rewrite lookup_seq_lt.
Qed.

Lemma set_last_eq y x :
  y <> [] -> set_last y x = take (Nat.pred (length y)) y ++ [x].
Proof.
  destruct y as [|a y]; [done|]. intros _. unfold set_last.
  by rewrite removelast_firstn_len.
Qed.

Lemma set_last_length y x : length (set_last y x) = length y.
Proof.
  destruct y as [|a y]; [done|].
  rewrite set_last_eq, length_app, length_take by done. simpl. lia.
Qed.

Lemma set_last_last y x : y <> [] -> List.last (set_last y x) pzero = x.
Proof. intros Hy. rewrite set_last_eq by done. apply last_last. Qed.

Lemma set_last_lookup y x (k : nat) :
  (S k < length y)%nat -> set_last y x !! k = y !! k.
Proof.
  intros Hk. assert (y <> []) by (by destruct y; simpl in *; [lia|]).
  rewrite set_last_eq by done.
  rewrite lookup_app_l by (rewrite length_take; lia).
  apply lookup_take_lt. lia.
Qed.

Lemma linspace_unfold stop n :
  linspace stop n =
  if n <? 0 then Raise ValueError
  else
    bind (to_float stop) (fun stop =>
    let y := map (fun yi => fadd (scale stop n yi) pzero) (arange n) in
    Ok (if 1 <? n then set_last y stop else y)).
Proof.
  unfold linspace. destruct (n <? 0); [done|].
  destruct (to_float stop) as [f|]; cbn [bind]; [|done].
  unfold scale. cbv zeta.
  destruct (0 <? n - 1); [destruct (f_is_zero _)|];
    by rewrite map_map.
Qed.

Lemma linspace_inv stop n g :
  linspace stop n = Ok g ->
  0 <= n /\
  exists f,
    to_float stop = Ok f /\
    length g = Z.to_nat n /\
    (2 <= n -> List.last g pzero = f) /\
    (forall k : nat,
       (S k < Z.to_nat n)%nat \/ (n = 1 /\ k = 0%nat) ->
       g !! k = Some (fadd (scale f n (round_int (Z.of_nat k))) pzero)).
Proof.
  rewrite linspace_unfold. destruct (n <? 0) eqn:Hn; [done|].
  apply Z.ltb_ge in Hn.
  destruct (to_float stop) as [f|]; cbn [bind]; [|done].
  cbv zeta. set (y := map _ (arange n)).
  assert (length y = Z.to_nat n) as Hlen
    by (subst y; by rewrite length_map, arange_length).
  assert (forall k : nat, (k < Z.to_nat n)%nat ->
            y !! k = Some (fadd (scale f n (round_int (Z.of_nat k))) pzero))
    as Hy.
  { intros k Hk. subst y. rewrite list_lookup_fmap.
    by rewrite arange_lookup. }
  intros [= <-]. split; [done|]. exists f. split; [done|].
  destruct (1 <? n) eqn:H1.
  - apply Z.ltb_lt in H1.
    assert (y <> []) by (destruct y; simpl in *; [lia|done]).
    split; [by rewrite set_last_length|]. split.
    + intros _. by apply set_last_last.
    + intros k [Hk|[-> ->]]; [|lia].
      rewrite set_last_lookup by lia. apply Hy. lia.
  - apply Z.ltb_ge in H1. split; [done|]. split; [lia|].
    intros k [Hk|[-> ->]]; apply Hy; lia.
Qed.

End Linspace.

(** ** The grid of the constructor *)

Section Grid.

Lemma fadd_zero_pzero (sg : bool) : fadd (S754_zero sg) pzero = pzero.
Proof. by destruct sg. Qed.

Lemma fsub_pzero f :
  f_is_finite f = true ->
  f_is_finite (fsub f pzero) = true /\
  (forall s m e, f = S754_finite s m e -> fsub f pzero = f).
Proof. destruct f as [[]| | |]; try done. Qed.

Lemma fmul_pzero f :
  f_is_finite f = true -> f_is_zero (fmul pzero f) = true.
Proof. by destruct f. Qed.

(** The divisor [float(n - 1)] of [linspace]. *)
Lemma round_int_divisor z :
  1 <= z ->
  round_int z = S754_infinity false \/
  exists m e, round_int z = S754_finite false m e /\
    (2 <= z -> 2 <= Zdigits2 (Zpos m) + e).
Proof.
  intros Hz. destruct (round_int_positive z Hz) as [H|(m & e & H & _ & Hd)];
    [by left|].
  right. exists m, e. split; [done|]. intros H2.
  assert (2 <= Zdigits2 z); [|lia].
  destruct (Z_le_gt_dec 2 (Zdigits2 z)) as [|Hgt]; [done|].
  pose proof (Zdigits2_bounds z ltac:(lia)) as [_ Hhi].
  pose proof (Zdigits2_pos z ltac:(lia)).
  assert (Zdigits2 z = 1) as Heq by lia. rewrite Heq in Hhi.
  change (2 ^ 1) with 2 in Hhi. lia.
Qed.

(** The step of [linspace] is finite. *)
Lemma linspace_step_finite f n :
  valid_binary prec emax f = true -> f_is_finite f = true -> 2 <= n ->
  f_is_finite (fdiv (fsub f pzero) (round_int (n - 1))) = true.
Proof.
  intros Hv Hfin Hn. destruct (Z.eq_dec n 2) as [->|Hne].
  - change (round_int (2 - 1)) with (round_int 1).
    destruct f as [sf| | |sf mf ef]; try done.
    + by destruct sf.
    + change (fsub (S754_finite sf mf ef) pzero) with (S754_finite sf mf ef).
      by rewrite fdiv_one.
  - destruct (round_int_divisor (n - 1) ltac:(lia))
      as [->|(m & e & -> & Hd)].
    + destruct f as [[]| | |]; done.
    + destruct f as [sf| | |sf mf ef]; try done.
      * by destruct sf.
      * change (fsub (S754_finite sf mf ef) pzero)
          with (S754_finite sf mf ef).
        apply fdiv_finite; [by apply (valid_binary_digits sf)|].
        apply Hd. lia.
Qed.

(** The first sample of [linspace] is [0.0]. *)
Lemma linspace_first f n :
  valid_binary prec emax f = true -> f_is_finite f = true -> 1 <= n ->
  fadd (scale f n (round_int 0)) pzero = pzero.
Proof.
  intros Hv Hfin Hn. change (round_int 0) with pzero.
  destruct (fsub_pzero f Hfin) as [Hdelta _].
  assert (forall g, f_is_zero g = true -> fadd g pzero = pzero) as Hz.
  { intros [sg| | |]; try done. intros _. apply fadd_zero_pzero. }
  apply Hz. unfold scale. cbv zeta.
  destruct (0 <? n - 1) eqn:Hdiv.
  - apply Z.ltb_lt in Hdiv.
    pose proof (linspace_step_finite f n Hv Hfin ltac:(lia)) as Hstep.
    destruct (f_is_zero (fdiv (fsub f pzero) (round_int (n - 1)))) eqn:Hzero.
    + assert (f_is_zero (fdiv pzero (round_int (n - 1))) = true) as Hq.
      { destruct (round_int_divisor (n - 1) ltac:(lia))
          as [->|(m & e & -> & _)]; done. }
      destruct (fdiv pzero _) as [sq| | |], (fsub f pzero); done.
    + by apply fmul_pzero.
  - by apply fmul_pzero.
Qed.

Lemma int_of_finite q n : int_of q = Ok n -> is_finite q = true.
Proof. by destruct q as [z|[]]. Qed.

(** A quotient is finite only if its numerator is. *)
Lemma truediv_finite_numerator x y q :
  truediv x y = Ok q -> is_finite q = true -> is_finite x = true.
Proof.
  destruct x as [a|f]; [done|]. intros Hq Hfin.
  assert (exists b, q = NFloat (fdiv f b)) as (b & ->).
  { destruct y as [c|g]; simpl in Hq.
    - destruct (float_of_int c) as [b|]; simpl in Hq; [|done].
      destruct (f_is_zero b); [done|]. injection Hq as <-. eauto.
    - destruct (f_is_zero g); [done|]. injection Hq as <-. eauto. }
  simpl in *. by destruct f as [sf|sf| |sf mf ef], b as [sb|sb| |sb mb eb].
Qed.

Lemma to_float_well_formed x f :
  well_formed x = true -> is_finite x = true -> to_float x = Ok f ->
  valid_binary prec emax f = true /\ f_is_finite f = true.
Proof.
  destruct x as [z|g]; simpl.
  - intros _ _ Hf. split.
    + unfold float_of_int in Hf. pose proof (round_int_valid z) as Hv.
      destruct (round_int z); congruence.
    + destruct (float_of_int_cases z f Hf) as [[_ ->]|[_ (m & e & ->)]]; done.
  - intros Hv Hfin [= <-]. done.
Qed.

(** Truncation toward zero is [floor] on a number that is not negative. *)
Lemma int_of_floor q n :
  int_of q = Ok n -> ge q (NInt 0) = true -> Spec.floor q = Ok n.
Proof.
  destruct q as [z|f]; [done|]. rewrite ge_zero_float.
  destruct f as [sf|sf| |sf mf ef]; try done.
  simpl. intros Hn Hs. apply negb_true_iff in Hs. subst sf. simpl in *.
  by destruct (0 <=? ef).
Qed.

Lemma time_grid_inv T dt g :
  time_grid T dt = Ok g ->
  exists x y q n,
    number_of T = Some x /\ number_of dt = Some y /\
    truediv x y = Ok q /\ int_of q = Ok n /\ linspace x n = Ok g.
Proof.
  unfold time_grid.
  destruct (number_of T) as [x|]; [|done].
  destruct (number_of dt) as [y|]; [|done].
  destruct (truediv x y) as [q|] eqn:Hq; cbn [bind]; [|done].
  destruct (int_of q) as [n|] eqn:Hn; cbn [bind]; [|done].
  intros Hg. by exists x, y, q, n.
Qed.

Lemma configure_inv kwargs (N0 : object) T dt :
  configure kwargs = Ok (N0, T, dt) ->
  merge kwargs !! "N0" = Some N0 /\ merge kwargs !! "T" = Some T /\
  merge kwargs !! "dt" = Some dt.
Proof.
  destruct (merge_populated kwargs "N0") as [N0' HN]; [auto|].
  destruct (merge_populated kwargs "T") as [T' HT]; [auto|].
  destruct (merge_populated kwargs "dt") as [dt' Hdt]; [auto|].
  rewrite (configure_unfold kwargs N0' T' dt') by done.
  destruct (negb _); [done|]. destruct (negb _); [done|].
  destruct (negb _); [done|].
  destruct (object_gt dt' T') as [[]|]; cbn [bind]; try done.
  by intros [= <- <- <-].
Qed.

Lemma init_inv odeint beta gamma kwargs sim :
  __init__ odeint beta gamma kwargs = Ok sim ->
  configure kwargs = Ok (_N0 sim, _T sim, _dt sim) /\
  _beta sim = beta /\ _gamma sim = gamma /\
  total_of (_N0 sim) = Ok (_total sim) /\
  time_grid (_T sim) (_dt sim) = Ok (_t sim) /\
  odeint beta gamma (_N0 sim) (Ndarray (_t sim)) = Ok (_n sim).
Proof.
  unfold __init__.
  destruct (configure kwargs) as [[[N0 T] dt]|]; cbn [bind]; [|done].
  unfold _calculate.
  destruct (total_of N0) as [total|] eqn:Htot; cbn [bind]; [|done].
  destruct (time_grid T dt) as [t|] eqn:Ht; cbn [bind]; [|done].
  destruct (solve odeint beta gamma N0 (Ndarray t)) as [n|] eqn:Hs;
    cbn [bind]; [|done].
  intros [= <-]. cbn. repeat (split; [done|]).
  rewrite solve_unfold in Hs.
  destruct (sequence_items N0) as [l|]; [|done].
  by destruct (forallb isinstance_int_float l).
Qed.

Lemma euler_rows_length beta gamma ts : forall y t r,
  Euler.rows beta gamma y t ts = Ok r -> length r = length ts.
Proof.
  induction ts as [|t' ts IH]; intros y t r; simpl.
  - by intros [= <-].
  - destruct (Euler.step beta gamma y (fsub t' t)) as [y'|]; cbn [bind];
      [|done].
    destruct (Euler.rows beta gamma y' t' ts) as [r'|] eqn:Hr; cbn [bind];
      [|done].
    intros [= <-]. simpl. f_equal. by eapply IH.
Qed.

(** The forward Euler scheme returns one row per time point. *)
Lemma euler_one_row_per_point beta gamma u0 t rows :
  Euler.odeint beta gamma u0 (Ndarray t) = Ok rows -> length rows = length t.
Proof.
  unfold Euler.odeint.
  destruct (as_num beta) as [b|]; [|done].
  destruct (as_num gamma) as [g|]; [|done].
  destruct (sequence_items u0) as [l|]; [|done].
  destruct (Euler.map_result Euler.float_of_value l) as [y0|]; cbn [bind];
    [|done].
  destruct t as [|t0 ts]; [by intros [= <-]|].
  destruct (Euler.rows b g y0 t0 ts) as [r|] eqn:Hr; cbn [bind]; [|done].
  intros [= <-]. simpl. f_equal. by eapply euler_rows_length.
Qed.

End Grid.

(** ** C3 *)

Section Construction.

(** SciPy documents the result of [odeint] as an array of shape
    [(len(t), len(y0))]: one row per time point. *)
Variable odeint : integrator.
Hypothesis odeint_rows : forall beta gamma u0 t rows,
  odeint beta gamma u0 (Ndarray t) = Ok rows -> length rows = length t.

(** C3 (as amended): for every construction that succeeds, with [T] a
    binary64 number or an [int], the time grid is an ordered sequence of
    [n = int(T / dt)] points, where [int] truncates the binary64 quotient
    toward zero and agrees with [floor(T / dt)] whenever the quotient is not
    negative, and the Trajectory has exactly [n] rows, one per grid point.
    The grid starts at [0.0].  With at least two points it ends at [T] and
    is evenly spaced up to rounding: the step [T / (n - 1)] is finite, and
    point [k] before the last is the binary64 value [k * step + 0.0].  With
    one point the grid is [[0.0]] and does not reach [T]. *)
Theorem time_grid_points beta gamma kwargs sim T dt :
  __init__ odeint beta gamma kwargs = Ok sim ->
  number_of (_T sim) = Some T -> number_of (_dt sim) = Some dt ->
  well_formed T = true ->
  merge kwargs !! "T" = Some (_T sim) /\
  merge kwargs !! "dt" = Some (_dt sim) /\
  exists q n stop,
    truediv T dt = Ok q /\ int_of q = Ok n /\ 0 <= n /\
    (ge q (NInt 0) = true -> Spec.floor q = Ok n) /\
    length (_t sim) = Z.to_nat n /\
    length (_n sim) = Z.to_nat n /\
    to_float T = Ok stop /\
    (1 <= n -> _t sim !! 0%nat = Some pzero) /\
    (2 <= n -> List.last (_t sim) pzero = stop) /\
    (n = 1 -> _t sim = [pzero]) /\
    (forall k : nat, (S k < Z.to_nat n)%nat ->
       _t sim !! k =
       Some (fadd (scale stop n (round_int (Z.of_nat k))) pzero)) /\
    (2 <= n ->
     let step := fdiv (fsub stop pzero) (round_int (n - 1)) in
     f_is_finite step = true /\
     (f_is_zero step = false ->
      forall k : nat, (S k < Z.to_nat n)%nat ->
        _t sim !! k =
        Some (fadd (fmul (round_int (Z.of_nat k)) step) pzero))).
Proof.
  intros Hinit HT Hdt Hwf.
  destruct (init_inv _ _ _ _ _ Hinit) as (Hconf & _ & _ & _ & Hgrid & Hode).
  destruct (configure_inv _ _ _ _ Hconf) as (_ & HmT & Hmdt).
  split; [done|]. split; [done|].
  destruct (time_grid_inv _ _ _ Hgrid)
    as (x & y & q & n & Hx & Hy & Hq & Hn & Hlin).
  assert (x = T) as -> by congruence. assert (y = dt) as -> by congruence.
  destruct (linspace_inv _ _ _ Hlin) as (Hn0 & stop & Hstop & Hlen & Hlast & Hk).
  pose proof (truediv_finite_numerator _ _ _ Hq (int_of_finite _ _ Hn))
    as HTfin.
  destruct (to_float_well_formed _ _ Hwf HTfin Hstop) as [Hv Hfin].
  assert (1 <= n -> _t sim !! 0%nat = Some pzero) as Hfirst.
  { intros H1. destruct (Z.eq_dec n 1) as [->|Hne].
    - rewrite Hk by auto. f_equal. by apply linspace_first.
    - rewrite Hk by (left; lia). f_equal. by apply linspace_first. }
  exists q, n, stop.
  split; [done|]. split; [done|]. split; [done|].
  split; [by apply int_of_floor|]. split; [done|].
  split; [by rewrite (odeint_rows _ _ _ _ _ Hode)|].
  split; [done|]. split; [done|]. split; [done|]. split; [|split].
  - intros ->. specialize (Hfirst ltac:(lia)).
    destruct (_t sim) as [|a [|b l]]; simpl in *; try done.
    congruence.
  - intros k Hlt. apply Hk. by left.
  - intros H2. cbv zeta. split; [by apply linspace_step_finite|].
    intros Hnz k Hlt. rewrite Hk by (by left). do 2 f_equal.
    unfold scale. cbv zeta.
    replace (0 <? n - 1) with true by (symmetry; apply Z.ltb_lt; lia).
    by rewrite Hnz.
Qed.

End Construction.

Lemma time_grid_points_witness :
  let beta := VFloat (round_quotient 3 10) in
  let gamma := VFloat (round_quotient 1 10) in
  let kwargs := <["T" := Obj (VInt 10)]> (<["dt" := Obj (VInt 3)]> ∅) in
  exists sim,
    __init__ Euler.odeint beta gamma kwargs = Ok sim /\
    number_of (_T sim) = Some (NInt 10) /\
    number_of (_dt sim) = Some (NInt 3) /\
    well_formed (NInt 10) = true /\
    merge kwargs !! "T" = Some (_T sim) /\
    merge kwargs !! "dt" = Some (_dt sim) /\
    exists q n stop,
      truediv (NInt 10) (NInt 3) = Ok q /\ int_of q = Ok n /\ 0 <= n /\
      (ge q (NInt 0) = true -> Spec.floor q = Ok n) /\
      length (_t sim) = Z.to_nat n /\
      length (_n sim) = Z.to_nat n /\
      to_float (NInt 10) = Ok stop /\
      (1 <= n -> _t sim !! 0%nat = Some pzero) /\
      (2 <= n -> List.last (_t sim) pzero = stop) /\
      (n = 1 -> _t sim = [pzero]) /\
      (forall k : nat, (S k < Z.to_nat n)%nat ->
         _t sim !! k =
         Some (fadd (scale stop n (round_int (Z.of_nat k))) pzero)) /\
      (2 <= n ->
       let step := fdiv (fsub stop pzero) (round_int (n - 1)) in
       f_is_finite step = true /\
       (f_is_zero step = false ->
        forall k : nat, (S k < Z.to_nat n)%nat ->
          _t sim !! k =
          Some (fadd (fmul (round_int (Z.of_nat k)) step) pzero))).
Proof.
  intros beta gamma kwargs.
  destruct (__init__ Euler.odeint beta gamma kwargs) as [sim|] eqn:Hinit;
    [|vm_compute in Hinit; discriminate].
  exists sim. split; [reflexivity|].
  assert (number_of (_T sim) = Some (NInt 10)) as HT
    by (vm_compute in Hinit; injection Hinit as <-; reflexivity).
  assert (number_of (_dt sim) = Some (NInt 3)) as Hdt
    by (vm_compute in Hinit; injection Hinit as <-; reflexivity).
  split; [exact HT|]. split; [exact Hdt|]. split; [reflexivity|].
  apply (time_grid_points Euler.odeint euler_one_row_per_point
           beta gamma kwargs sim (NInt 10) (NInt 3) Hinit HT Hdt eq_refl).
Defined.

(** C3 (as stated) fails: with [T = 10] and [dt = 10] the grid has
    [floor(T/dt) = 1] point, [0.0], and does not reach [T], whatever the
    integrator; with the forward Euler scheme the construction
    succeeds. *)
Lemma one_point_grid_counterexample :
  let kwargs := <["T" := Obj (VInt 10)]> (<["dt" := Obj (VInt 10)]> ∅) in
  time_grid (Obj (VInt 10)) (Obj (VInt 10)) = Ok [pzero] /\
  Spec.floor (NFloat (round_quotient 10 10)) = Ok 1 /\
  (forall odeint beta gamma sim,
     __init__ odeint beta gamma kwargs = Ok sim ->
     _t sim = [pzero] /\ List.last (_t sim) pzero <> round_int 10) /\
  exists sim,
    __init__ Euler.odeint (VFloat (round_quotient 3 10))
      (VFloat (round_quotient 1 10)) kwargs = Ok sim /\
    _t sim = [pzero] /\
    List.last (_t sim) pzero <> round_int 10.
Proof.
  intros kwargs.
  split; [by vm_compute|]. split; [by vm_compute|].
  assert (forall odeint beta gamma sim,
            __init__ odeint beta gamma kwargs = Ok sim ->
            _t sim = [pzero] /\ List.last (_t sim) pzero <> round_int 10)
    as Hall.
  { intros odeint beta gamma sim Hinit.
    destruct (init_inv _ _ _ _ _ Hinit) as (Hconf & _ & _ & _ & Hgrid & _).
    assert (configure kwargs =
            Ok (Obj (VTuple [VInt 100; VInt 1; VInt 0]), Obj (VInt 10),
                Obj (VInt 10))) as Hc by reflexivity.
    rewrite Hc in Hconf. injection Hconf as _ HT Hdt.
    rewrite <- HT, <- Hdt in Hgrid.
    assert (time_grid (Obj (VInt 10)) (Obj (VInt 10)) = Ok [pzero]) as Hg
      by (by vm_compute).
    rewrite Hg in Hgrid. injection Hgrid as <-. split; [done|].
    by vm_compute. }
  split; [done|].
  destruct (__init__ Euler.odeint (VFloat (round_quotient 3 10))
              (VFloat (round_quotient 1 10)) kwargs) as [sim|] eqn:Hinit;
    [|vm_compute in Hinit; discriminate].
  exists sim. split; [done|]. by eapply Hall.
Qed.

(** ** The outcomes of a construction *)

Section Constructor.

Implicit Types (kwargs : gmap string object) (T dt : object).

(** X1: the checks of the constructor have three outcomes, decided by the
    entries [N0], [T] and [dt] of the merged configuration, which are
    always present: a [TypeError] exactly when [N0] is not a tuple or list
    or [T] or [dt] is not an [int] or [float]; a [ValueError] exactly when
    the three types are right and [dt > T]; and otherwise, exactly when
    the types are right and [dt > T] is false, the three entries are
    accepted unchanged.  The checks raise nothing else. *)
Theorem configure_outcomes kwargs :
  exists (N0 : object) T dt,
    merge kwargs !! "N0" = Some N0 /\
    merge kwargs !! "T" = Some T /\
    merge kwargs !! "dt" = Some dt /\
    (configure kwargs = Raise TypeError <->
       is_tuple_list N0 = false \/ is_int_float T = false \/
       is_int_float dt = false) /\
    (configure kwargs = Raise ValueError <->
       is_tuple_list N0 = true /\ is_int_float T = true /\
       is_int_float dt = true /\ object_gt dt T = Ok true) /\
    (configure kwargs = Ok (N0, T, dt) <->
       is_tuple_list N0 = true /\ is_int_float T = true /\
       is_int_float dt = true /\ object_gt dt T = Ok false) /\
    (forall e, configure kwargs = Raise e -> e = TypeError \/ e = ValueError) /\
    (forall c, configure kwargs = Ok c -> c = (N0, T, dt)).
Proof.
  destruct (merge_populated kwargs "N0") as [N0 HN]; [auto|].
  destruct (merge_populated kwargs "T") as [T HT]; [auto|].
  destruct (merge_populated kwargs "dt") as [dt Hdt]; [auto|].
  exists N0, T, dt. do 3 (split; [done|]).
  rewrite (configure_unfold kwargs N0 T dt) by done.
  destruct (is_tuple_list N0); cbn [negb];
    [|repeat split; try done; try tauto; intros; intuition congruence].
  destruct (is_int_float T) eqn:HnT; cbn [negb];
    [|repeat split; try done; try tauto; intros; intuition congruence].
  destruct (is_int_float dt) eqn:Hndt; cbn [negb];
    [|repeat split; try done; try tauto; intros; intuition congruence].
  apply is_int_float_number in HnT as [x Hx].
  apply is_int_float_number in Hndt as [y Hy].
  unfold object_gt. rewrite Hx, Hy. cbn [bind].
  destruct (gt y x); repeat split; try done; try tauto;
    intros; intuition congruence.
Qed.

(** The constructor reads nothing but the entries [N0], [T] and [dt] of
    the merged configuration. *)
Lemma init_agree odeint beta gamma kwargs kwargs' :
  merge kwargs !! "N0" = merge kwargs' !! "N0" ->
  merge kwargs !! "T" = merge kwargs' !! "T" ->
  merge kwargs !! "dt" = merge kwargs' !! "dt" ->
  __init__ odeint beta gamma kwargs = __init__ odeint beta gamma kwargs'.
Proof.
  intros HN HT Hdt.
  destruct (merge_populated kwargs "N0") as [N0 HN0]; [auto|].
  destruct (merge_populated kwargs "T") as [T HT0]; [auto|].
  destruct (merge_populated kwargs "dt") as [dt Hdt0]; [auto|].
  unfold __init__.
  rewrite (configure_unfold kwargs N0 T dt) by done.
  by rewrite (configure_unfold kwargs' N0 T dt) by congruence.
Qed.

(** X2: a keyword argument whose name is none of [N0], [T] and [dt] has
    no effect: passing it, with whatever value, or removing it gives the
    same construction, be it a simulator or an exception.  The names
    [self], [beta] and [gamma] are those of the parameters of [__init__]:
    Python binds an argument of such a name itself, or rejects the call,
    and they are never keys of [kwargs]. *)
Theorem unknown_keyword_ignored odeint beta gamma kwargs k (o : object) :
  k <> "self" -> k <> "beta" -> k <> "gamma" ->
  k <> "N0" -> k <> "T" -> k <> "dt" ->
  __init__ odeint beta gamma (<[k := o]> kwargs) =
  __init__ odeint beta gamma kwargs /\
  __init__ odeint beta gamma (delete k kwargs) =
  __init__ odeint beta gamma kwargs.
Proof.
  intros _ _ _ HN HT Hdt.
  split; apply init_agree; rewrite !merge_lookup;
    by rewrite ?lookup_insert_ne, ?lookup_delete_ne by done.
Qed.

Lemma unknown_keyword_ignored_witness :
  let beta := VFloat (round_quotient 3 10) in
  let gamma := VFloat (round_quotient 1 10) in
  let kwargs := <["T" := Obj (VInt 10)]> (<["dt" := Obj (VInt 3)]> ∅) in
  let k := "facecolor" in
  let o := Obj (VStr "#ffffff") in
  (k <> "self" /\ k <> "beta" /\ k <> "gamma" /\
   k <> "N0" /\ k <> "T" /\ k <> "dt") /\
  __init__ Euler.odeint beta gamma (<[k := o]> kwargs) =
  __init__ Euler.odeint beta gamma kwargs /\
  __init__ Euler.odeint beta gamma (delete k kwargs) =
  __init__ Euler.odeint beta gamma kwargs.
Proof.
  intros beta gamma kwargs k o.
  assert (k <> "self") as Hself by discriminate.
  assert (k <> "beta") as Hbeta by discriminate.
  assert (k <> "gamma") as Hgamma by discriminate.
  assert (k <> "N0") as HN by discriminate.
  assert (k <> "T") as HT by discriminate.
  assert (k <> "dt") as Hdt by discriminate.
  split; [by repeat split|].
  apply (unknown_keyword_ignored Euler.odeint beta gamma kwargs k o
           Hself Hbeta Hgamma HN HT Hdt).
Defined.

(** X3: a simulator stores the whole of its configuration: constructing
    again from the stored [beta], [gamma], [N0], [T] and [dt], with no
    default left to fill in, gives the same simulator. *)
Theorem reconstruct_from_stored odeint beta gamma kwargs sim :
  __init__ odeint beta gamma kwargs = Ok sim ->
  __init__ odeint (_beta sim) (_gamma sim)
    (<["N0" := _N0 sim]> (<["T" := _T sim]> (<["dt" := _dt sim]> ∅)))
  = Ok sim.
Proof.
  intros Hinit.
  destruct (init_inv _ _ _ _ _ Hinit) as (Hconf & -> & -> & _).
  destruct (configure_inv _ _ _ _ Hconf) as (HN & HT & Hdt).
  rewrite <- Hinit. apply init_agree; rewrite merge_lookup;
    by simplify_map_eq.
Qed.

Lemma reconstruct_from_stored_witness :
  let beta := VFloat (round_quotient 3 10) in
  let gamma := VFloat (round_quotient 1 10) in
  let kwargs := <["T" := Obj (VInt 10)]> (<["dt" := Obj (VInt 3)]> ∅) in
  exists sim,
    __init__ Euler.odeint beta gamma kwargs = Ok sim /\
    __init__ Euler.odeint (_beta sim) (_gamma sim)
      (<["N0" := _N0 sim]> (<["T" := _T sim]> (<["dt" := _dt sim]> ∅)))
    = Ok sim.
Proof.
  intros beta gamma kwargs.
  destruct (__init__ Euler.odeint beta gamma kwargs) as [sim|] eqn:Hinit;
    [|vm_compute in Hinit; discriminate].
  exists sim. split; [reflexivity|].
  apply (reconstruct_from_stored Euler.odeint beta gamma kwargs sim Hinit).
Defined.

Lemma sum_from_raise l : forall acc e,
  sum_from acc l = Raise e -> e = TypeError \/ e = OverflowError.
Proof.
  induction l as [|v l IH]; intros acc e; simpl; [done|].
  unfold add_value at 1.
  destruct (as_num v) as [x|]; cbn [bind]; [|intros [= <-]; by left].
  destruct (add acc x) as [acc'|e'] eqn:Hadd; cbn [bind]; [apply IH|].
  intros [= <-]. right.
  destruct acc, x; simpl in Hadd; try done; by eapply float_op_raise.
Qed.

Lemma int_of_raise q e :
  int_of q = Raise e -> e = ValueError \/ e = OverflowError.
Proof. destruct q as [z|[]]; simpl; try done; intros [= <-]; auto. Qed.

Lemma linspace_raise x n e :
  linspace x n = Raise e -> e = ValueError \/ e = OverflowError.
Proof.
  rewrite linspace_unfold. destruct (n <? 0); [intros [= <-]; by left|].
  destruct (to_float x) as [f|e'] eqn:Hf; cbn [bind]; [done|].
  intros [= <-]. right. by eapply to_float_raise.
Qed.

(** The outcome of the checks: an error is a [TypeError] or a
    [ValueError], and a success returns the merged entries, with [N0] a
    tuple or list and [T] and [dt] numbers such that [dt > T] is false. *)
Lemma configure_result kwargs :
  exists (N0 : object) T dt,
    (forall e, configure kwargs = Raise e -> e = TypeError \/ e = ValueError) /\
    (forall c, configure kwargs = Ok c ->
       c = (N0, T, dt) /\ is_tuple_list N0 = true /\
       exists x y, number_of T = Some x /\ number_of dt = Some y /\
         gt y x = false).
Proof.
  destruct (merge_populated kwargs "N0") as [N0 HN]; [auto|].
  destruct (merge_populated kwargs "T") as [T HT]; [auto|].
  destruct (merge_populated kwargs "dt") as [dt Hdt]; [auto|].
  exists N0, T, dt.
  rewrite (configure_unfold kwargs N0 T dt) by done.
  destruct (is_tuple_list N0); cbn [negb];
    [|split; [intros e [= <-]; auto|done]].
  destruct (is_int_float T) eqn:HnT; cbn [negb];
    [|split; [intros e [= <-]; auto|done]].
  destruct (is_int_float dt) eqn:Hndt; cbn [negb];
    [|split; [intros e [= <-]; auto|done]].
  apply is_int_float_number in HnT as [x Hx].
  apply is_int_float_number in Hndt as [y Hy].
  unfold object_gt. rewrite Hx, Hy. cbn [bind].
  destruct (gt y x) eqn:Hgt; (split; [intros e [= <-]; auto|]); [done|].
  intros c [= <-]. split; [done|]. split; [done|]. by exists x, y.
Qed.

Lemma time_grid_raise T dt x y e :
  number_of T = Some x -> number_of dt = Some y ->
  time_grid T dt = Raise e ->
  e = ZeroDivisionError \/ e = OverflowError \/ e = ValueError.
Proof.
  intros Hx Hy. unfold time_grid. rewrite Hx, Hy.
  destruct (truediv x y) as [q|e'] eqn:Hq; cbn [bind].
  2:{ intros [= <-].
      destruct (truediv_raise _ _ _ Hq) as [[-> _] | ->]; auto. }
  destruct (int_of q) as [n|e'] eqn:Hn; cbn [bind].
  2:{ intros [= <-]. destruct (int_of_raise _ _ Hn) as [-> | ->]; auto. }
  intros Ht. destruct (linspace_raise _ _ _ Ht) as [-> | ->]; auto.
Qed.

(** X4: where a failing construction fails.  Either the checks raise, a
    [TypeError] or a [ValueError]; or they pass and [sum(N0)] raises, a
    [TypeError] or an [OverflowError]; or the sum returns and building the
    time grid raises, a [ZeroDivisionError], an [OverflowError] or a
    [ValueError]; or the grid is built and [solve] raises, and then it is
    the [ValueError] of the check of the items or whatever the integrator
    raised.  The two [TypeError]s of [solve] cannot occur in a
    construction, and no lookup in the configuration fails. *)
Theorem init_error_provenance odeint beta gamma kwargs e :
  __init__ odeint beta gamma kwargs = Raise e ->
  (configure kwargs = Raise e /\ (e = TypeError \/ e = ValueError)) \/
  exists (N0 : object) T dt,
    configure kwargs = Ok (N0, T, dt) /\
    ((total_of N0 = Raise e /\ (e = TypeError \/ e = OverflowError)) \/
     (returns (total_of N0) /\ time_grid T dt = Raise e /\
      (e = ZeroDivisionError \/ e = OverflowError \/ e = ValueError)) \/
     (returns (total_of N0) /\
      exists t, time_grid T dt = Ok t /\
        solve odeint beta gamma N0 (Ndarray t) = Raise e /\
        (e = ValueError \/ odeint beta gamma N0 (Ndarray t) = Raise e))).
Proof.
  unfold __init__.
  destruct (configure_result kwargs) as (N0 & T & dt & Hraise & Hok).
  destruct (configure kwargs) as [c|e'] eqn:Hconf; cbn [bind].
  2:{ intros [= <-]. left. split; [done|]. by apply Hraise. }
  destruct (Hok c eq_refl) as (-> & Hseq & x & y & Hx & Hy & _).
  intros Hcalc. right. exists N0, T, dt. split; [done|].
  unfold _calculate in Hcalc.
  destruct (total_of N0) as [total|e'] eqn:Htot; cbn [bind] in Hcalc.
  2:{ injection Hcalc as <-. left. split; [done|].
      unfold total_of in Htot.
      destruct (sequence_items N0) as [l|]; [|injection Htot as <-; auto].
      by apply (sum_from_raise l (NInt 0)). }
  right.
  destruct (time_grid T dt) as [t|e'] eqn:Hgrid; cbn [bind] in Hcalc.
  2:{ injection Hcalc as <-. left. split; [by eexists|]. split; [done|].
      by apply (time_grid_raise T dt x y). }
  right. split; [by eexists|]. exists t. split; [done|].
  destruct (solve odeint beta gamma N0 (Ndarray t)) as [rows|e'] eqn:Hsolve;
    cbn [bind] in Hcalc; [done|].
  injection Hcalc as <-. split; [done|].
  rewrite solve_unfold in Hsolve.
  apply is_tuple_list_items in Hseq as [l Hl]. rewrite Hl in Hsolve.
  destruct (forallb isinstance_int_float l);
    [|injection Hsolve as <-; by left].
  cbn [is_int_float_ndarray] in Hsolve. by right.
Qed.

Lemma init_error_provenance_witness :
  let beta := VFloat (round_quotient 3 10) in
  let gamma := VFloat (round_quotient 1 10) in
  let kwargs := <["T" := Obj (VInt 10)]> (<["dt" := Obj (VInt 0)]> ∅) in
  let e := ZeroDivisionError in
  __init__ Euler.odeint beta gamma kwargs = Raise e /\
  ((configure kwargs = Raise e /\ (e = TypeError \/ e = ValueError)) \/
   exists (N0 : object) T dt,
     configure kwargs = Ok (N0, T, dt) /\
     ((total_of N0 = Raise e /\ (e = TypeError \/ e = OverflowError)) \/
      (returns (total_of N0) /\ time_grid T dt = Raise e /\
       (e = ZeroDivisionError \/ e = OverflowError \/ e = ValueError)) \/
      (returns (total_of N0) /\
       exists t, time_grid T dt = Ok t /\
         solve Euler.odeint beta gamma N0 (Ndarray t) = Raise e /\
         (e = ValueError \/
          Euler.odeint beta gamma N0 (Ndarray t) = Raise e)))).
Proof.
  intros beta gamma kwargs e.
  assert (__init__ Euler.odeint beta gamma kwargs = Raise e) as Hinit
    by (by vm_compute).
  split; [exact Hinit|].
  apply (init_error_provenance Euler.odeint beta gamma kwargs e Hinit).
Defined.

(** A finite quotient has a divisor that is neither zero nor a NaN. *)
Lemma truediv_finite_divisor x y q :
  truediv x y = Ok q -> is_finite q = true ->
  is_zero y = false /\ is_nan y = false.
Proof.
  intros Hq Hfin.
  assert (forall a b, to_float x = Ok a -> to_float y = Ok b ->
            (if f_is_zero b then Raise ZeroDivisionError
             else Ok (NFloat (fdiv a b))) = Ok q ->
            is_zero y = false /\ is_nan y = false) as Hmixed.
  { intros a b Ha Hb Hdiv. destruct (f_is_zero b) eqn:Hz; [done|].
    injection Hdiv as <-. split.
    - by rewrite <- (to_float_is_zero y b Hb).
    - destruct y as [c|g]; [done|]. simpl in *. injection Hb as ->.
      by destruct a as [sa|sa| |sa ma ea], b as [sb|sb| |sb mb eb]. }
  assert (bind (to_float x) (fun a => bind (to_float y) (fun b =>
            if f_is_zero b then Raise ZeroDivisionError
            else Ok (NFloat (fdiv a b)))) = Ok q ->
          is_zero y = false /\ is_nan y = false) as Hbind.
  { destruct (to_float x) as [a|] eqn:Ha; cbn [bind]; [|done].
    destruct (to_float y) as [b|] eqn:Hb; cbn [bind]; [|done].
    by apply Hmixed. }
  destruct x as [a|f], y as [b|g]; unfold truediv in Hq; try by apply Hbind.
  destruct (b =? 0) eqn:Hb; [done|]. cbn [is_zero is_nan]. by rewrite Hb.
Qed.

Lemma configure_ok_inv kwargs (N0 : object) T dt :
  configure kwargs = Ok (N0, T, dt) ->
  is_tuple_list N0 = true /\
  exists x y, number_of T = Some x /\ number_of dt = Some y /\
    gt y x = false.
Proof.
  intros Hconf.
  destruct (configure_result kwargs) as (N0' & T' & dt' & _ & Hok).
  by destruct (Hok _ Hconf) as ([= <- <- <-] & H).
Qed.

(** X5: what every constructed simulator satisfies.  Its rate parameters
    are the arguments; [N0], [T] and [dt] are the entries of the merged
    configuration; [N0] is a tuple or list whose items are all [int]s or
    [float]s and [_total] is their [sum]; [T] and [dt] are numbers with
    [dt > T] false, [T] finite, and [dt] neither zero nor a NaN; [_t] is
    the time grid of [T] and [dt]; and [_n] is what the integrator returned
    for [N0] and that grid. *)
Theorem constructed_invariants odeint beta gamma kwargs sim :
  __init__ odeint beta gamma kwargs = Ok sim ->
  _beta sim = beta /\ _gamma sim = gamma /\
  merge kwargs !! "N0" = Some (_N0 sim) /\
  merge kwargs !! "T" = Some (_T sim) /\
  merge kwargs !! "dt" = Some (_dt sim) /\
  exists l x y,
    sequence_items (_N0 sim) = Some l /\
    forallb isinstance_int_float l = true /\
    sum l = Ok (_total sim) /\
    number_of (_T sim) = Some x /\ number_of (_dt sim) = Some y /\
    gt y x = false /\ is_finite x = true /\
    is_zero y = false /\ is_nan y = false /\
    time_grid (_T sim) (_dt sim) = Ok (_t sim) /\
    odeint beta gamma (_N0 sim) (Ndarray (_t sim)) = Ok (_n sim).
Proof.
  intros Hinit. pose proof Hinit as Hinit'. unfold __init__ in Hinit'.
  destruct (init_inv _ _ _ _ _ Hinit) as (Hconf & Hb & Hg & Htot & Hgrid & Hode).
  destruct (configure_inv _ _ _ _ Hconf) as (HN & HT & Hdt).
  do 5 (split; [done|]).
  destruct (configure_ok_inv _ _ _ _ Hconf) as (Hseq & x & y & Hx & Hy & Hgt).
  apply is_tuple_list_items in Hseq as [l Hl].
  exists l, x, y. split; [done|].
  rewrite Hconf in Hinit'. cbn [bind] in Hinit'. unfold _calculate in Hinit'.
  rewrite Htot, Hgrid in Hinit'. cbn [bind] in Hinit'.
  rewrite solve_unfold, Hl in Hinit'.
  split; [by destruct (forallb isinstance_int_float l)|].
  split; [unfold total_of in Htot; by rewrite Hl in Htot|].
  do 3 (split; [done|]).
  destruct (time_grid_inv _ _ _ Hgrid)
    as (x' & y' & q & n & Hx' & Hy' & Hq & Hn & _).
  assert (x' = x) as -> by congruence. assert (y' = y) as -> by congruence.
  pose proof (int_of_finite _ _ Hn) as Hfin.
  split; [by eapply truediv_finite_numerator|].
  destruct (truediv_finite_divisor _ _ _ Hq Hfin). done.
Qed.

Lemma constructed_invariants_witness :
  let beta := VFloat (round_quotient 3 10) in
  let gamma := VFloat (round_quotient 1 10) in
  let kwargs := <["T" := Obj (VInt 10)]> (<["dt" := Obj (VInt 3)]> ∅) in
  exists sim,
    __init__ Euler.odeint beta gamma kwargs = Ok sim /\
    _beta sim = beta /\ _gamma sim = gamma /\
    merge kwargs !! "N0" = Some (_N0 sim) /\
    merge kwargs !! "T" = Some (_T sim) /\
    merge kwargs !! "dt" = Some (_dt sim) /\
    exists l x y,
      sequence_items (_N0 sim) = Some l /\
      forallb isinstance_int_float l = true /\
      sum l = Ok (_total sim) /\
      number_of (_T sim) = Some x /\ number_of (_dt sim) = Some y /\
      gt y x = false /\ is_finite x = true /\
      is_zero y = false /\ is_nan y = false /\
      time_grid (_T sim) (_dt sim) = Ok (_t sim) /\
      Euler.odeint beta gamma (_N0 sim) (Ndarray (_t sim)) = Ok (_n sim).
Proof.
  intros beta gamma kwargs.
  destruct (__init__ Euler.odeint beta gamma kwargs) as [sim|] eqn:Hinit;
    [|vm_compute in Hinit; discriminate].
  exists sim. split; [reflexivity|].
  apply (constructed_invariants Euler.odeint beta gamma kwargs sim Hinit).
Defined.

End Constructor.

(** ** The total population *)

Section Total.

Implicit Types (kwargs : gmap string object) (T dt : object).

Lemma sum_from_ints l zs :
  Forall2 (fun v z => as_num v = Some (NInt z)) l zs ->
  forall a, sum_from (NInt a) l = Ok (NInt (a + foldr Z.add 0 zs)).
Proof.
  induction 1 as [|v z l zs Hv _ IH]; intros a; simpl.
  - by rewrite Z.add_0_r.
  - unfold add_value. rewrite Hv. cbn [add bind]. rewrite IH.
    do 2 f_equal. lia.
Qed.

(** X6: the total of a population of [int]s (a [bool] counts as 0 or 1)
    is their exact sum: [sum(N0)] neither rounds nor raises, however large
    the numbers. *)
Theorem integer_total_exact (N0 : object) l zs :
  sequence_items N0 = Some l ->
  Forall2 (fun v z => as_num v = Some (NInt z)) l zs ->
  total_of N0 = Ok (NInt (foldr Z.add 0 zs)).
Proof.
  intros Hl Hints. unfold total_of, sum. rewrite Hl.
  by rewrite (sum_from_ints l zs Hints).
Qed.

Lemma integer_total_exact_witness :
  let l := [VInt (10 ^ 400); VBool true; VInt (-3)] in
  let zs := [10 ^ 400; 1; -3] in
  sequence_items (Obj (VList l)) = Some l /\
  Forall2 (fun v z => as_num v = Some (NInt z)) l zs /\
  total_of (Obj (VList l)) = Ok (NInt (foldr Z.add 0 zs)).
Proof.
  intros l zs.
  assert (Forall2 (fun v z => as_num v = Some (NInt z)) l zs) as Hints
    by (repeat constructor).
  split; [reflexivity|]. split; [exact Hints|].
  apply (integer_total_exact (Obj (VList l)) l zs eq_refl Hints).
Defined.





End Total.

(** ** A NaN in the configuration *)

Section NotANumber.

Implicit Types (kwargs : gmap string object) (T dt : object).

Lemma gt_nan x y : is_nan x = true \/ is_nan y = true -> gt y x = false.
Proof.
  unfold gt, compare.
  intros [H|H]; [destruct x as [|[]]|destruct y as [|[]]]; try done;
    by destruct (value_of _).
Qed.

Lemma truediv_nan x y a b :
  is_nan x = true \/ is_nan y = true ->
  to_float x = Ok a -> to_float y = Ok b -> is_zero y = false ->
  truediv x y = Ok (NFloat S754_nan).
Proof.
  intros Hnan Ha Hb Hz.
  assert (fdiv a b = S754_nan) as Hdiv.
  { destruct Hnan as [H|H].
    - destruct x as [|f]; [done|]. injection Ha as <-.
      destruct f; try done; by destruct b.
    - destruct y as [|f]; [done|]. injection Hb as <-.
      destruct f; try done; by destruct a. }
  assert (bind (to_float x) (fun a => bind (to_float y) (fun b =>
            if f_is_zero b then Raise ZeroDivisionError
            else Ok (NFloat (fdiv a b)))) = Ok (NFloat S754_nan)) as Hbind.
  { rewrite Ha, Hb. cbn [bind]. rewrite (to_float_is_zero y b Hb), Hz.
    by rewrite Hdiv. }
  destruct x as [c|f], y as [d|g]; try done.
  by destruct Hnan.
Qed.

(** X8: a NaN for [T] or [dt] passes the checks, [dt > T] being false for
    a NaN, and stops the construction in [int(T / dt)] with a
    [ValueError], provided that [sum(N0)] returns, that the other of the
    two converts to a [float] and that [dt] is not zero. *)
Theorem nan_reaches_int odeint beta gamma kwargs
    (N0 : object) T dt x y total a b :
  merge kwargs !! "N0" = Some N0 -> merge kwargs !! "T" = Some T ->
  merge kwargs !! "dt" = Some dt ->
  total_of N0 = Ok total ->
  number_of T = Some x -> number_of dt = Some y ->
  is_nan x = true \/ is_nan y = true ->
  to_float x = Ok a -> to_float y = Ok b -> is_zero y = false ->
  configure kwargs = Ok (N0, T, dt) /\
  time_grid T dt = Raise ValueError /\
  __init__ odeint beta gamma kwargs = Raise ValueError.
Proof.
  intros HN HT Hdt Htot Hx Hy Hnan Ha Hb Hz.
  assert (is_tuple_list N0 = true) as Hseq.
  { apply is_tuple_list_items. unfold total_of in Htot.
    destruct (sequence_items N0); [eauto|done]. }
  assert (configure kwargs = Ok (N0, T, dt)) as Hconf.
  { rewrite (configure_numbers kwargs N0 T dt x y) by done.
    by rewrite gt_nan. }
  assert (time_grid T dt = Raise ValueError) as Hgrid.
  { unfold time_grid. rewrite Hx, Hy.
    by rewrite (truediv_nan x y a b). }
  split; [done|]. split; [done|].
  unfold __init__. rewrite Hconf. cbn [bind]. unfold _calculate.
  by rewrite Htot, Hgrid.
Qed.

Lemma nan_reaches_int_witness :
  let beta := VFloat (round_quotient 3 10) in
  let gamma := VFloat (round_quotient 1 10) in
  let N0 := Obj (VTuple [VInt 100; VInt 1; VInt 0]) in
  let T := Obj (VFloat S754_nan) in
  let dt := Obj (VFloat float_0_1) in
  let kwargs := <["T" := T]> ∅ in
  (merge kwargs !! "N0" = Some N0 /\ merge kwargs !! "T" = Some T /\
   merge kwargs !! "dt" = Some dt /\ total_of N0 = Ok (NInt 101) /\
   is_nan (NFloat S754_nan) = true /\ is_zero (NFloat float_0_1) = false) /\
  configure kwargs = Ok (N0, T, dt) /\
  time_grid T dt = Raise ValueError /\
  __init__ Euler.odeint beta gamma kwargs = Raise ValueError.
Proof.
  intros beta gamma N0 T dt kwargs.
  split; [by repeat split|].
  apply (nan_reaches_int Euler.odeint beta gamma kwargs N0 T dt
           (NFloat S754_nan) (NFloat float_0_1) (NInt 101)
           S754_nan float_0_1);
    first [reflexivity | by left].
Defined.

End NotANumber.

(** ** The step [dt = T] *)

Section EqualStep.

Implicit Types (kwargs : gmap string object) (T dt : object).











End EqualStep.

(** ** The flows of the vector field *)

Section Flows.

Implicit Types (x y p q s i r n beta gamma : num) (f g : spec_float).

(** *** Negation and rounding *)

Lemma fopp_involutive f : fopp (fopp f) = f.
Proof. destruct f; simpl; by rewrite ?negb_involutive. Qed.

(** Rounding to nearest even is symmetric. *)
Lemma binary_round_aux_opp sx mx ex lx :
  binary_round_aux prec emax (negb sx) mx ex lx =
  fopp (binary_round_aux prec emax sx mx ex lx).
Proof.
  rewrite !binary_round_aux_unfold. cbv zeta.
  destruct (shr_m _); [done| |done]. by destruct (_ <=? _).
Qed.

Lemma binary_round_opp sx mx ex :
  binary_round prec emax (negb sx) mx ex =
  fopp (binary_round prec emax sx mx ex).
Proof.
  unfold binary_round. destruct (shl_align _ _ _).
  apply binary_round_aux_opp.
Qed.

Lemma round_int_opp z : z <> 0 -> round_int (- z) = fopp (round_int z).
Proof.
  intros Hz. unfold round_int, binary_normalize.
  destruct z as [|p|p]; [done| |]; cbn [Z.opp].
  - apply (binary_round_opp false).
  - rewrite (binary_round_opp false). by rewrite fopp_involutive.
Qed.

Lemma fmul_opp_l f g : fmul (fopp f) g = fopp (fmul f g).
Proof.
  unfold fmul, fopp.
  destruct f as [sf|sf| |sf mf ef], g as [sg|sg| |sg mg eg];
    cbn [SFmul SFopp]; rewrite <- ?negb_xorb_l; try done.
  apply binary_round_aux_opp.
Qed.

Lemma fdiv_opp_l f g : fdiv (fopp f) g = fopp (fdiv f g).
Proof.
  unfold fdiv, fopp.
  destruct f as [sf|sf| |sf mf ef], g as [sg|sg| |sg mg eg];
    cbn [SFdiv SFopp]; rewrite <- ?negb_xorb_l; try done.
  destruct (SFdiv_core_binary _ _ _ _ _ _) as [[mz ez] lz].
  apply binary_round_aux_opp.
Qed.

Lemma round_quotient_opp a b :
  a <> 0 -> round_quotient (- a) b = fopp (round_quotient a b).
Proof.
  intros Ha. unfold round_quotient.
  destruct a as [|p|p]; [done| |]; cbn [Z.opp Z.abs Z.ltb Z.compare];
    destruct (SFdiv_core_binary _ _ _ _ _ _) as [[mz ez] lz];
    destruct (b <? 0); cbn [xorb negb].
  - apply (binary_round_aux_opp true).
  - apply (binary_round_aux_opp false).
  - apply (binary_round_aux_opp false).
  - apply (binary_round_aux_opp true).
Qed.

(** *** Negating the left operand *)

(** Two [float]s are opposite up to the sign of a zero. *)
Lemma opposite_alike f f' :
  f = fopp f' \/ (f_is_zero f = true /\ f_is_zero f' = true) ->
  alike (NFloat f) (neg (NFloat f')).
Proof.
  intros [->|[H H']]; [by left|]. right.
  destruct f as [sg| | |], f' as [sg'| | |]; try done.
  simpl. by eexists _, _.
Qed.

Lemma to_float_neg x x' :
  alike x (neg x') ->
  match to_float x, to_float x' with
  | Ok f, Ok f' => f = fopp f' \/ (f_is_zero f = true /\ f_is_zero f' = true)
  | Raise e, Raise e' => e = e'
  | _, _ => False
  end.
Proof.
  intros [->|(sg & sg' & -> & H)].
  - destruct x' as [a|f']; cbn [neg to_float]; [|by left].
    destruct (Z.eq_dec a 0) as [->|Ha]; [by right|].
    unfold float_of_int. rewrite round_int_opp by done.
    destruct (round_int a); simpl; auto.
  - destruct x' as [a|[]]; try done. by right.
Qed.

Lemma fmul_neg_alike f f' g :
  f = fopp f' \/ (f_is_zero f = true /\ f_is_zero f' = true) ->
  fmul f g = fopp (fmul f' g) \/
  (f_is_zero (fmul f g) = true /\ f_is_zero (fmul f' g) = true).
Proof.
  intros [->|[H H']]; [left; apply fmul_opp_l|].
  destruct f as [sf| | |], f' as [sf'| | |], g as [sg|sg| |sg mg eg];
    try done; auto.
Qed.

Lemma fdiv_neg_alike f f' g :
  f = fopp f' \/ (f_is_zero f = true /\ f_is_zero f' = true) ->
  fdiv f g = fopp (fdiv f' g) \/
  (f_is_zero (fdiv f g) = true /\ f_is_zero (fdiv f' g) = true).
Proof.
  intros [->|[H H']]; [left; apply fdiv_opp_l|].
  destruct f as [sf| | |], f' as [sf'| | |], g as [sg|sg| |sg mg eg];
    try done; auto.
Qed.

Lemma alike_int x a : alike x (NInt a) -> x = NInt a.
Proof. by intros [->|(sg & sg' & _ & ?)]. Qed.

Lemma alike_float x f : alike x (NFloat f) -> exists f', x = NFloat f'.
Proof. intros [->|(sg & sg' & -> & _)]; eauto. Qed.

(** [(-x) * y] is [-(x * y)], up to the sign of a zero. *)
Lemma mul_neg_alike x x' y :
  alike x (neg x') ->
  alike_results (mul x y) (bind (mul x' y) (fun p => Ok (neg p))).
Proof.
  intros Hx.
  assert (alike_results (float_op fmul x y)
            (bind (float_op fmul x' y) (fun p => Ok (neg p)))) as Hop.
  { unfold float_op. pose proof (to_float_neg x x' Hx) as H.
    destruct (to_float x) as [f|e], (to_float x') as [f'|e'];
      cbn [bind]; try done.
    destruct (to_float y) as [g|e]; cbn [bind alike_results]; [|done].
    by apply opposite_alike, fmul_neg_alike. }
  destruct x' as [a|f'].
  - apply alike_int in Hx as Hx'. subst x.
    destruct y as [b|g]; [|exact Hop].
    cbn [neg mul bind alike_results]. left. f_equal. lia.
  - destruct (alike_float _ _ Hx) as [f ->]. exact Hop.
Qed.

(** [(-x) / n] is [-(x / n)], up to the sign of a zero. *)
Lemma truediv_neg_alike x x' n :
  alike x (neg x') ->
  alike_results (truediv x n) (bind (truediv x' n) (fun q => Ok (neg q))).
Proof.
  intros Hx.
  assert (alike_results
            (bind (to_float x) (fun a => bind (to_float n) (fun b =>
               if f_is_zero b then Raise ZeroDivisionError
               else Ok (NFloat (fdiv a b)))))
            (bind (bind (to_float x') (fun a => bind (to_float n) (fun b =>
               if f_is_zero b then Raise ZeroDivisionError
               else Ok (NFloat (fdiv a b))))) (fun q => Ok (neg q))))
    as Hop.
  { pose proof (to_float_neg x x' Hx) as H.
    destruct (to_float x) as [f|e], (to_float x') as [f'|e'];
      cbn [bind]; try done.
    destruct (to_float n) as [g|e]; cbn [bind alike_results]; [|done].
    destruct (f_is_zero g); cbn [bind alike_results]; [done|].
    by apply opposite_alike, fdiv_neg_alike. }
  destruct x' as [a|f'].
  - apply alike_int in Hx as Hx'. subst x.
    destruct n as [b|g]; [|exact Hop].
    cbn [neg]. unfold truediv.
    destruct (b =? 0); cbn [bind alike_results]; [done|].
    destruct (Z.eq_dec a 0) as [->|Ha].
    + cbn [Z.opp round_quotient bind alike_results]. right.
      by eexists _, _.
    + rewrite round_quotient_opp by done.
      destruct (round_quotient a b); cbn [fopp SFopp bind alike_results];
        try done; by left.
  - destruct (alike_float _ _ Hx) as [f ->]. exact Hop.
Qed.

(** What a returned triple was computed from. *)
Lemma call_inv beta gamma s i r (t : value) dS dI dR :
  __call__ beta gamma [s; i; r] t = Ok (dS, dI, dR) ->
  exists n x1 x2 p q y,
    sum (map of_num [s; i; r]) = Ok n /\
    mul (neg beta) s = Ok x1 /\ mul x1 i = Ok x2 /\ truediv x2 n = Ok dS /\
    mul beta s = Ok p /\ mul p i = Ok q /\ truediv q n = Ok y /\
    mul gamma i = Ok dR /\ sub y dR = Ok dI.
Proof.
  unfold __call__.
  destruct (mul (neg beta) s) as [x1|] eqn:Hx1; cbn [bind]; [|done].
  destruct (mul x1 i) as [x2|] eqn:Hx2; cbn [bind]; [|done].
  destruct (sum (map of_num [s; i; r])) as [n|] eqn:Hn; cbn [bind]; [|done].
  destruct (truediv x2 n) as [d|] eqn:Hd; cbn [bind]; [|done].
  destruct (mul beta s) as [p|] eqn:Hp; cbn [bind]; [|done].
  destruct (mul p i) as [q|] eqn:Hq; cbn [bind]; [|done].
  destruct (truediv q n) as [y|] eqn:Hy; cbn [bind]; [|done].
  destruct (mul gamma i) as [z|] eqn:Hz; cbn [bind]; [|done].
  destruct (sub y z) as [d'|] eqn:Hd'; cbn [bind]; [|done].
  intros [= <- <- <-]. by exists n, x1, x2, p, q, y.
Qed.

(** The first component is the opposite of the infection term. *)
Lemma outflow_opposite beta s i n x1 x2 d p q y :
  mul (neg beta) s = Ok x1 -> mul x1 i = Ok x2 -> truediv x2 n = Ok d ->
  mul beta s = Ok p -> mul p i = Ok q -> truediv q n = Ok y ->
  alike x1 (neg p) /\ alike x2 (neg q) /\ alike d (neg y).
Proof.
  intros Hx1 Hx2 Hd Hp Hq Hy.
  pose proof (mul_neg_alike (neg beta) beta s (alike_refl _)) as H1.
  rewrite Hx1, Hp in H1. cbn [bind alike_results] in H1.
  pose proof (mul_neg_alike x1 p i H1) as H2.
  rewrite Hx2, Hq in H2. cbn [bind alike_results] in H2.
  pose proof (truediv_neg_alike x2 q n H2) as H3.
  rewrite Hd, Hy in H3. cbn [bind alike_results] in H3.
  done.
Qed.



(** *** Signs *)






(** A number that is not negative converts to a [float] that is not
    negative. *)
Lemma to_float_sign x f :
  ge x (NInt 0) || is_nan x = true -> to_float x = Ok f ->
  f_nonnegative f || f_is_nan f = true.
Proof.
  destruct x as [z|g].
  - rewrite ge_zero_int. cbn [is_nan]. rewrite orb_false_r.
    intros Hz Hf. apply Z.leb_le in Hz.
    destruct (float_of_int_cases z f Hf) as [[_ ->]|[_ (m & e & ->)]];
      [done|].
    by replace (z <? 0) with false by (symmetry; apply Z.ltb_ge; lia).
  - rewrite ge_zero_float. by intros H [= <-].
Qed.











(** *** No infection *)

Lemma to_float_finite x f :
  is_finite x = true -> to_float x = Ok f -> f_is_finite f = true.
Proof.
  destruct x as [z|g]; [|by intros H [= <-]].
  intros _ Hf.
  by destruct (float_of_int_cases z f Hf) as [[_ ->]|[_ (m & e & ->)]].
Qed.

Lemma to_float_not_nan x f :
  is_nan x = false -> to_float x = Ok f -> f_is_nan f = false.
Proof.
  destruct x as [z|g]; [|by intros H [= <-]].
  intros _ Hf.
  by destruct (float_of_int_cases z f Hf) as [[_ ->]|[_ (m & e & ->)]].
Qed.

Lemma alike_finite x y : alike x y -> is_finite x = is_finite y.
Proof. by intros [->|(sg & sg' & -> & ->)]. Qed.

Lemma neg_zero x : is_zero (neg x) = is_zero x.
Proof.
  destruct x as [z|[]]; try done. simpl.
  destruct (Z.eqb_spec z 0), (Z.eqb_spec (- z) 0); try done; lia.
Qed.

(** A finite product has finite factors. *)
Lemma mul_finite x y p :
  mul x y = Ok p -> is_finite p = true ->
  is_finite x = true /\ is_finite y = true.
Proof.
  intros Hp Hfin.
  assert (float_op fmul x y = Ok p ->
          is_finite x = true /\ is_finite y = true) as Hop.
  { unfold float_op.
    destruct (to_float x) as [f|] eqn:Hf; cbn [bind]; [|done].
    destruct (to_float y) as [g|] eqn:Hg; cbn [bind]; [|done].
    intros [= <-].
    assert (f_is_finite f = true /\ f_is_finite g = true) as [Hff Hfg].
    { destruct f as [sf|sf| |sf mf ef], g as [sg|sg| |sg mg eg]; done. }
    split.
    - destruct x as [a|f']; [done|]. by injection Hf as ->.
    - destruct y as [b|g']; [done|]. by injection Hg as ->. }
  destruct x as [a|f], y as [b|g]; try (by apply Hop). done.
Qed.

(** A finite number times zero is zero. *)
Lemma mul_zero_r x i q :
  is_finite x = true -> is_zero i = true -> mul x i = Ok q ->
  is_zero q = true.
Proof.
  intros Hfin Hz.
  assert (float_op fmul x i = Ok q -> is_zero q = true) as Hop.
  { unfold float_op.
    destruct (to_float x) as [f|] eqn:Hf; cbn [bind]; [|done].
    destruct (to_float i) as [g|] eqn:Hg; cbn [bind]; [|done].
    intros [= <-].
    pose proof (to_float_finite x f Hfin Hf) as Hff.
    pose proof (to_float_is_zero i g Hg) as Hzg. rewrite Hz in Hzg.
    destruct f as [sf|sf| |sf mf ef], g as [sg|sg| |sg mg eg]; done. }
  destruct x as [a|f], i as [b|g]; try (by apply Hop).
  simpl in Hz. apply Z.eqb_eq in Hz. subst b. intros [= <-].
  simpl. apply Z.eqb_eq. lia.
Qed.

(** Zero divided by a number that is not a NaN is zero. *)
Lemma truediv_zero_l x n q :
  is_zero x = true -> is_nan n = false -> truediv x n = Ok q ->
  is_zero q = true.
Proof.
  intros Hz Hnan.
  assert (bind (to_float x) (fun a => bind (to_float n) (fun b =>
            if f_is_zero b then Raise ZeroDivisionError
            else Ok (NFloat (fdiv a b)))) = Ok q ->
          is_zero q = true) as Hop.
  { destruct (to_float x) as [f|] eqn:Hf; cbn [bind]; [|done].
    destruct (to_float n) as [g|] eqn:Hg; cbn [bind]; [|done].
    destruct (f_is_zero g) eqn:Hzg; [done|]. intros [= <-].
    pose proof (to_float_is_zero x f Hf) as Hzf. rewrite Hz in Hzf.
    pose proof (to_float_not_nan n g Hnan Hg) as Hng.
    destruct f as [sf|sf| |sf mf ef], g as [sg|sg| |sg mg eg]; done. }
  destruct x as [a|f], n as [b|g]; try exact Hop.
  simpl in Hz. apply Z.eqb_eq in Hz. subst a.
  unfold truediv. destruct (b =? 0); [done|].
  cbn [round_quotient]. by intros [= <-].
Qed.

Lemma sub_zero y z d :
  is_zero y = true -> is_zero z = true -> sub y z = Ok d ->
  is_zero d = true.
Proof.
  intros Hy Hz.
  assert (float_op fsub y z = Ok d -> is_zero d = true) as Hop.
  { unfold float_op.
    destruct (to_float y) as [f|] eqn:Hf; cbn [bind]; [|done].
    destruct (to_float z) as [g|] eqn:Hg; cbn [bind]; [|done].
    intros [= <-].
    pose proof (to_float_is_zero y f Hf) as Hzf. rewrite Hy in Hzf.
    pose proof (to_float_is_zero z g Hg) as Hzg. rewrite Hz in Hzg.
    destruct f as [[]| | |], g as [[]| | |]; done. }
  destruct y as [a|f], z as [b|g]; try (by apply Hop).
  simpl in Hy, Hz. apply Z.eqb_eq in Hy, Hz. subst a b.
  by intros [= <-].
Qed.

Lemma fadd_not_nan f g :
  f_is_finite f = true -> f_is_nan g = false -> f_is_nan (fadd f g) = false.
Proof.
  destruct f as [sf|sf| |sf mf ef], g as [sg|sg| |sg mg eg]; try done.
  - by destruct sf, sg.
  - intros _ _. unfold fadd. cbn [SFadd].
    destruct (_ + _) as [|pz|pz]; cbn [binary_normalize]; [done| |].
    + destruct (binary_round_sign false pz (ef `min` eg))
        as [H|[(m & e & H)|H]]; by rewrite H.
    + destruct (binary_round_sign true pz (ef `min` eg))
        as [H|[(m & e & H)|H]]; by rewrite H.
Qed.

Lemma fadd_finite_zero f g :
  f_is_finite f = true -> f_is_zero g = true ->
  f_is_finite (fadd f g) = true.
Proof.
  destruct f as [sf|sf| |sf mf ef], g as [sg|sg| |sg mg eg]; try done.
  by destruct sf, sg.
Qed.

(** The sum of a state without infection is not a NaN. *)
Lemma sum_not_nan s i r n :
  is_finite s = true -> is_zero i = true -> is_nan r = false ->
  sum (map of_num [s; i; r]) = Ok n -> is_nan n = false.
Proof.
  intros Hs Hi Hr. rewrite sum_three.
  destruct (add_zero_l s) as (a & -> & Ha). cbn [bind].
  rewrite <- (alike_finite a s Ha) in Hs.
  destruct (add a i) as [b|] eqn:Hb; cbn [bind]; [|done].
  assert (is_finite b = true) as Hfb.
  { destruct a as [za|fa], i as [zi|fi]; try (by injection Hb as <-);
      unfold add, float_op in Hb.
    - destruct (to_float (NInt za)) as [f|] eqn:Hf; cbn [bind] in Hb; [|done].
      injection Hb as <-. cbn [to_float] in Hf.
      apply fadd_finite_zero; [|done].
      by apply (to_float_finite (NInt za)).
    - destruct (to_float (NInt zi)) as [g|] eqn:Hg; cbn [bind to_float] in Hb;
        [|done].
      injection Hb as <-. apply fadd_finite_zero; [done|].
      by rewrite (to_float_is_zero (NInt zi) g Hg).
    - cbn [to_float bind] in Hb. injection Hb as <-.
      by apply fadd_finite_zero. }
  intros Hn.
  destruct b as [zb|fb], r as [zr|fr]; try (by injection Hn as <-);
    unfold add, float_op in Hn.
  - destruct (to_float (NInt zb)) as [f|] eqn:Hf; cbn [bind to_float] in Hn;
      [|done].
    injection Hn as <-. apply fadd_not_nan; [|done].
    by apply (to_float_finite (NInt zb)).
  - destruct (to_float (NInt zr)) as [g|] eqn:Hg; cbn [bind to_float] in Hn;
      [|done].
    injection Hn as <-. apply fadd_not_nan; [done|].
    by apply (to_float_not_nan (NInt zr)).
  - cbn [to_float bind] in Hn. injection Hn as <-.
    by apply fadd_not_nan.
Qed.

(** Without infection, the rates that the evaluation on Python numbers
    returns are zero. *)
Lemma no_infection_rates beta gamma s i r (t : value) p dS dI dR :
  is_zero i = true ->
  mul beta s = Ok p -> is_finite p = true ->
  is_finite gamma = true -> is_nan r = false ->
  __call__ beta gamma [s; i; r] t = Ok (dS, dI, dR) ->
  is_zero dS = true /\ is_zero dI = true /\ is_zero dR = true.
Proof.
  intros Hi Hp Hfin Hgamma Hr Hcall.
  destruct (call_inv _ _ _ _ _ _ _ _ _ Hcall)
    as (n & x1 & x2 & p' & q & y & Hn & Hx1 & Hx2 & Hd & Hp' & Hq & Hy
        & Hz & HdI).
  assert (p' = p) as -> by congruence.
  destruct (outflow_opposite _ _ _ _ _ _ _ _ _ _ Hx1 Hx2 Hd Hp Hq Hy)
    as (_ & _ & Hopp).
  destruct (mul_finite _ _ _ Hp Hfin) as [_ Hs].
  pose proof (sum_not_nan s i r n Hs Hi Hr Hn) as Hnan.
  pose proof (mul_zero_r p i q Hfin Hi Hq) as Hzq.
  pose proof (truediv_zero_l q n y Hzq Hnan Hy) as Hzy.
  pose proof (mul_zero_r gamma i dR Hgamma Hi Hz) as HzR.
  split; [|split].
  - by rewrite (alike_zero _ _ Hopp), neg_zero.
  - by apply (sub_zero y dR).
  - done.
Qed.

(** The conversion of [-beta] succeeds where that of [beta] does. *)
Lemma to_float_neg_returns beta b :
  to_float beta = Ok b -> exists f, to_float (neg beta) = Ok f.
Proof.
  intros Hb.
  pose proof (to_float_neg (neg beta) beta (alike_refl _)) as H.
  rewrite Hb in H. destruct (to_float (neg beta)) as [f|]; [eauto|done].
Qed.

(** Without infection and with a population that is not zero, the
    evaluation on an array returns three rates that are zero. *)
Lemma array_no_infection_rates beta gamma (s i r : spec_float) (t : value)
    b g :
  f_is_zero i = true ->
  to_float beta = Ok b -> f_is_finite (fmul b s) = true ->
  to_float gamma = Ok g -> f_is_finite g = true ->
  f_is_nan r = false ->
  f_is_zero (ndarray_sum [s; i; r]) = false ->
  exists dS dI dR,
    __call__ndarray beta gamma [s; i; r] t = Ok (dS, dI, dR) /\
    f_is_zero dS = true /\ f_is_zero dI = true /\ f_is_zero dR = true.
Proof.
  intros Hi Hb Hfin Hg Hgfin Hr Hn.
  pose proof (array_call_agrees beta gamma s i r t Hn) as Hsame.
  assert (exists dS dI dR,
            __call__ndarray beta gamma [s; i; r] t = Ok (dS, dI, dR))
    as (dS & dI & dR & Hcall).
  { unfold __call__ndarray. cbv zeta.
    destruct (to_float_neg_returns beta b Hb) as [f ->].
    rewrite Hb, Hg. cbn [bind]. by eexists _, _, _. }
  exists dS, dI, dR. split; [done|].
  rewrite Hcall in Hsame. cbn [bind] in Hsame.
  assert (mul beta (NFloat s) = Ok (NFloat (fmul b s))) as Hp.
  { destruct beta as [z|f]; unfold mul, float_op; rewrite Hb; done. }
  assert (is_finite gamma = true) as Hgamma.
  { destruct gamma as [z|f]; [done|]. by injection Hg as ->. }
  apply (no_infection_rates beta gamma (NFloat s) (NFloat i) (NFloat r) t
           (NFloat (fmul b s)) (NFloat dS) (NFloat dI) (NFloat dR));
    done.
Qed.

(** X12: without infection nothing moves, where the population is not
    zero.  When [I] is zero, [N = S + I + R] is not zero, [beta * S] and
    [gamma] are finite and [R] is not a NaN, the three rates are zero: on
    Python numbers whenever the vector field returns them, which it does
    on [float]s; on a float64 array, as [odeint] passes it, always.  With
    a population of zero there are no such rates: on Python numbers the
    evaluation raises, and on an array the first two rates that it
    returns are infinite or NaN. *)
Theorem disease_free_equilibrium beta gamma :
  (forall s i r (t : value) p n,
     is_zero i = true ->
     mul beta s = Ok p -> is_finite p = true ->
     is_finite gamma = true -> is_nan r = false ->
     Spec.population s i r = Ok n -> is_zero n = false ->
     (forall dS dI dR,
        __call__ beta gamma [s; i; r] t = Ok (dS, dI, dR) ->
        is_zero dS = true /\ is_zero dI = true /\ is_zero dR = true) /\
     (all_float [beta; gamma; s; i; r] ->
      exists dS dI dR,
        __call__ beta gamma [s; i; r] t = Ok (dS, dI, dR) /\
        is_zero dS = true /\ is_zero dI = true /\ is_zero dR = true)) /\
  (forall (s i r : spec_float) (t : value) b g,
     f_is_zero i = true ->
     to_float beta = Ok b -> f_is_finite (fmul b s) = true ->
     to_float gamma = Ok g -> f_is_finite g = true ->
     f_is_nan r = false ->
     f_is_zero (ndarray_sum [s; i; r]) = false ->
     exists dS dI dR,
       __call__ndarray beta gamma [s; i; r] t = Ok (dS, dI, dR) /\
       f_is_zero dS = true /\ f_is_zero dI = true /\ f_is_zero dR = true) /\
  (forall s i r (t : value) n,
     Spec.population s i r = Ok n -> is_zero n = true ->
     raises (__call__ beta gamma [s; i; r] t)) /\
  (forall (s i r : spec_float) (t : value) dS dI dR,
     f_is_zero (ndarray_sum [s; i; r]) = true ->
     __call__ndarray beta gamma [s; i; r] t = Ok (dS, dI, dR) ->
     f_is_zero dS = false /\ f_is_zero dI = false).
Proof.
  split; [|split; [|split]].
  - intros s i r t p n Hi Hp Hfin Hgamma Hr Hn Hz.
    assert (forall dS dI dR,
              __call__ beta gamma [s; i; r] t = Ok (dS, dI, dR) ->
              is_zero dS = true /\ is_zero dI = true /\ is_zero dR = true)
      as Hzero.
    { intros dS dI dR. by apply no_infection_rates with (p := p). }
    split; [done|]. intros Hfloat.
    destruct (call_floats_return beta gamma s i r t n Hn Hz Hfloat)
      as [[[dS dI] dR] Hcall].
    exists dS, dI, dR. split; [done|]. by apply Hzero.
  - intros s i r t b g. apply array_no_infection_rates.
  - intros s i r t n Hn Hz.
    destruct (call_zero_population beta gamma s i r t n Hn Hz)
      as [[H|H] _]; rewrite H; by eexists.
  - intros s i r t dS dI dR Hz Hcall.
    destruct (array_call_zero_population beta gamma s i r t dS dI dR
                Hz Hcall) as [HS HI].
    split; [by destruct dS|by destruct dI].
Qed.

Lemma disease_free_equilibrium_witness :
  let beta := NFloat (round_quotient 3 10) in
  let gamma := NFloat (round_quotient 1 10) in
  let s := round_int 100 in
  let i := pzero in
  let r := round_quotient 5 2 in
  (f_is_zero i = true /\ f_is_finite (fmul (round_quotient 3 10) s) = true /\
   f_is_finite (round_quotient 1 10) = true /\ f_is_nan r = false /\
   f_is_zero (ndarray_sum [s; i; r]) = false) /\
  (exists dS dI dR,
     __call__ beta gamma [NFloat s; NFloat i; NFloat r] VNone
       = Ok (dS, dI, dR) /\
     is_zero dS = true /\ is_zero dI = true /\ is_zero dR = true) /\
  (exists dS dI dR,
     __call__ndarray beta gamma [s; i; r] VNone = Ok (dS, dI, dR) /\
     f_is_zero dS = true /\ f_is_zero dI = true /\ f_is_zero dR = true).
Proof.
  intros beta gamma s i r.
  destruct (disease_free_equilibrium beta gamma) as (Hnum & Harr & _).
  split; [by repeat split|]. split.
  - destruct (Hnum (NFloat s) (NFloat i) (NFloat r) VNone
                (NFloat (fmul (round_quotient 3 10) s))
                (NFloat (fadd (fadd s i) r))
                eq_refl eq_refl eq_refl eq_refl eq_refl eq_refl eq_refl)
      as [_ H].
    apply H. repeat constructor; by eexists.
  - apply (Harr s i r VNone (round_quotient 3 10) (round_quotient 1 10));
      reflexivity.
Defined.

End Flows.

(** ** Quotients that are at least 1 *)

Section AtLeastOnePoint.

Implicit Types (kwargs : gmap string object) (T dt : object).

(** A mantissa [m] and an exponent [e] with [1 <= m] and [2 ^ (- e) <= m]
    stand for a number [m * 2 ^ e] that is at least 1; shifting the
    mantissa to the exponent of the format keeps that. *)
Lemma shr_fexp_at_least_one m e l :
  1 <= m -> 2 ^ (- e) <= m ->
  let p := shr_fexp prec emax m e l in
  1 <= shr_m (fst p) /\ 2 ^ (- snd p) <= shr_m (fst p).
Proof.
  intros Hm He. cbv zeta.
  destruct (shr_fexp_m m e l ltac:(lia)) as [-> ->].
  set (n := fexp prec emax (Zdigits2 m + e) - e).
  destruct (0 <? n) eqn:Hn; [|done]. apply Z.ltb_lt in Hn.
  assert (0 < 2 ^ n) as Hpow by (apply Z.pow_pos_nonneg; lia).
  destruct (Z_le_gt_dec (e + n) 0) as [Hle|Hgt].
  - assert (2 ^ (- (e + n)) <= m / 2 ^ n) as Hq.
    { apply Z.div_le_lower_bound; [done|].
      rewrite <- Z.pow_add_r by lia.
      by replace (n + - (e + n)) with (- e) by lia. }
    pose proof (pow2_pos (- (e + n)) ltac:(lia)). lia.
  - rewrite (Z.pow_neg_r 2 (- (e + n))) by lia.
    assert (n = Zdigits2 m - 53) as Hn'
      by (subst n; unfold fexp, emin, prec, emax in *; lia).
    pose proof (Zdigits2_bounds m ltac:(lia)) as [Hlo _].
    assert (2 ^ 52 <= m / 2 ^ n) as Hq.
    { apply Z.div_le_lower_bound; [done|].
      rewrite <- Z.pow_add_r by lia.
      by replace (n + 52) with (Zdigits2 m - 1) by lia. }
    pose proof (pow2_pos 52 ltac:(lia)). lia.
Qed.

(** Rounding a number that is at least 1 gives a number that is at least
    1, or overflows. *)
Lemma binary_round_aux_at_least_one mx ex lx :
  1 <= mx -> 2 ^ (- ex) <= mx ->
  let f := binary_round_aux prec emax false mx ex lx in
  f = S754_infinity false \/
  exists m e, f = S754_finite false m e /\ 2 ^ (- e) <= Zpos m.
Proof.
  intros Hm He. rewrite binary_round_aux_unfold. cbv zeta.
  destruct (shr_fexp_at_least_one mx ex lx Hm He) as [H1 H1e].
  set (p1 := shr_fexp prec emax mx ex lx) in *.
  pose proof (round_nearest_even_bounds (shr_m (fst p1))
                (loc_of_shr_record (fst p1))) as Hr.
  set (mr := round_nearest_even _ _) in *.
  destruct (shr_fexp_at_least_one mr (snd p1) loc_Exact ltac:(lia) ltac:(lia))
    as [H2 H2e].
  set (p2 := shr_fexp prec emax mr (snd p1) loc_Exact) in *.
  destruct (shr_m (fst p2)) as [|m|m]; [lia| |lia].
  destruct (_ <=? _); [right|by left]. by exists m, (snd p2).
Qed.

(** [int] of a [float] that is at least 1 is at least 1. *)
Lemma int_of_at_least_one m e :
  2 ^ (- e) <= Zpos m ->
  exists n, int_of (NFloat (S754_finite false m e)) = Ok n /\ 1 <= n.
Proof.
  intros He. cbn [int_of cond_Zopp]. eexists. split; [done|].
  destruct (0 <=? e) eqn:H0.
  - apply Z.leb_le in H0. pose proof (pow2_pos e H0). nia.
  - apply Z.leb_gt in H0. pose proof (pow2_pos (- e) ltac:(lia)).
    apply Z.div_le_lower_bound; lia.
Qed.

(** The quotient of two positive numbers, the divisor not above the
    dividend, is at least 1 before it is rounded. *)
Lemma SFdiv_core_binary_at_least_one mx ex my ey :
  Zpos my * 2 ^ (ey - Z.min ey ex) <= Zpos mx * 2 ^ (ex - Z.min ey ex) ->
  let '(q, e, _) := SFdiv_core_binary prec emax (Zpos mx) ex (Zpos my) ey in
  1 <= q /\ 2 ^ (- e) <= q.
Proof.
  intros Hle. unfold SFdiv_core_binary.
  set (dx := Zdigits2 (Zpos mx)). set (dy := Zdigits2 (Zpos my)).
  set (e' := Z.min (fexp prec emax (dx + ex - (dy + ey))) (ex - ey)).
  set (s := ex - ey - e').
  assert (0 <= s) as Hs by (subst s e'; lia).
  set (m' := match s with
             | 0 => Zpos mx
             | Zpos _ => Z.shiftl (Zpos mx) s
             | Zneg _ => 0
             end).
  assert (m' = Zpos mx * 2 ^ s) as Hm'.
  { subst m'. destruct s as [|p|p] eqn:Hp; [simpl; lia| |lia].
    by rewrite Z.shiftl_mul_pow2. }
  pose proof (Z.div_eucl_eq m' (Zpos my) ltac:(lia)) as Hdiv.
  pose proof (Z.mod_pos_bound m' (Zpos my) ltac:(lia)) as Hmod.
  assert (fst (Z.div_eucl m' (Zpos my)) = m' / Zpos my) as Hq by done.
  destruct (Z.div_eucl m' (Zpos my)) as [q r]. cbn [fst] in Hq. subst q.
  pose proof (pow2_pos s Hs) as Hps.
  pose proof (Zdigits2_bounds (Zpos mx) ltac:(lia)) as [Hxlo Hxhi].
  pose proof (Zdigits2_bounds (Zpos my) ltac:(lia)) as [Hylo Hyhi].
  fold dx in Hxlo, Hxhi. fold dy in Hylo, Hyhi.
  destruct (Z_le_gt_dec e' 0) as [He'|He'].
  - assert (Zpos my * 2 ^ (- e') <= m') as Hbound.
    { rewrite Hm'. destruct (Z_le_gt_dec ey ex) as [Hee|Hee].
      - rewrite Z.min_l, Z.sub_diag, Z.mul_1_r in Hle by lia.
        replace s with (ex - ey + - e') by (subst s; lia).
        rewrite Z.pow_add_r by lia.
        pose proof (pow2_pos (- e') ltac:(lia)). nia.
      - rewrite Z.min_r, Z.sub_diag, Z.mul_1_r in Hle by lia.
        replace (- e') with (ey - ex + s) by (subst s; lia).
        rewrite Z.pow_add_r by lia. nia. }
    assert (2 ^ (- e') <= m' / Zpos my) as Hq.
    { apply Z.div_le_lower_bound; lia. }
    pose proof (pow2_pos (- e') ltac:(lia)). lia.
  - rewrite (Z.pow_neg_r 2 (- e')) by lia.
    assert (dy - dx + 53 <= s) as Hs'
      by (subst s e'; unfold fexp, emin, prec, emax in *; lia).
    assert (Zpos my <= m') as Hbound.
    { rewrite Hm'.
      pose proof (Zdigits2_pos (Zpos mx) ltac:(lia)) as Hdx. fold dx in Hdx.
      pose proof (Zdigits2_pos (Zpos my) ltac:(lia)) as Hdy. fold dy in Hdy.
      assert (2 ^ dy <= 2 ^ (dx - 1) * 2 ^ s) as Hp.
      { rewrite <- Z.pow_add_r by lia. apply Z.pow_le_mono_r; lia. }
      nia. }
    assert (1 <= m' / Zpos my) as Hq
      by (apply Z.div_le_lower_bound; lia).
    lia.
Qed.

Lemma fdiv_at_least_one f g :
  gt (NFloat g) (NInt 0) = true -> le (NFloat g) (NFloat f) = true ->
  f_is_finite f = true ->
  fdiv f g = S754_infinity false \/
  exists m e, fdiv f g = S754_finite false m e /\ 2 ^ (- e) <= Zpos m.
Proof.
  intros Hg Hle Hfin.
  destruct (gt_zero_float g Hg) as [->|(mg & eg & ->)].
  { by destruct f as [[]|[]| |[]]. }
  destruct f as [sf|sf| |sf mf ef]; try done.
  { unfold le, compare in Hle. cbn [value_of cond_Zopp] in Hle.
    rewrite dyadic_compare_zero in Hle. done. }
  unfold le, compare in Hle. cbn [value_of cond_Zopp] in Hle.
  unfold dyadic_compare in Hle.
  pose proof (pow2_pos (eg - Z.min eg ef) ltac:(lia)) as Hp1.
  pose proof (pow2_pos (ef - Z.min eg ef) ltac:(lia)) as Hp2.
  destruct sf.
  { cbn [cond_Zopp] in Hle. change (- Zpos mf) with (Zneg mf) in Hle.
    pose proof (Z.mul_pos_pos (Zpos mg) _ ltac:(lia) Hp1).
    pose proof (Z.mul_neg_pos (Zneg mf) _ ltac:(lia) Hp2).
    destruct (Z.compare_spec (Zpos mg * 2 ^ (eg - Z.min eg ef))
                (Zneg mf * 2 ^ (ef - Z.min eg ef))); try done; lia. }
  cbn [cond_Zopp] in Hle.
  assert (Zpos mg * 2 ^ (eg - Z.min eg ef) <=
          Zpos mf * 2 ^ (ef - Z.min eg ef)) as Hle'.
  { destruct (Z.compare_spec (Zpos mg * 2 ^ (eg - Z.min eg ef))
                (Zpos mf * 2 ^ (ef - Z.min eg ef))); try done; lia. }
  unfold fdiv. cbn [SFdiv xorb].
  pose proof (SFdiv_core_binary_at_least_one mf ef mg eg Hle') as Hq.
  destruct (SFdiv_core_binary _ _ _ _ _ _) as [[q e] l].
  destruct Hq as [Hq1 Hq2].
  by apply binary_round_aux_at_least_one.
Qed.

Lemma le_int a b : le (NInt b) (NInt a) = (b <=? a).
Proof.
  unfold le, compare. cbn [value_of]. unfold dyadic_compare.
  change (2 ^ (0 - Z.min 0 0)) with 1. rewrite !Z.mul_1_r.
  destruct (Z.compare_spec b a); symmetry;
    first [apply Z.leb_le; lia | apply Z.leb_gt; lia].
Qed.

Lemma round_quotient_at_least_one a b :
  0 < b -> b <= a ->
  round_quotient a b = S754_infinity false \/
  exists m e, round_quotient a b = S754_finite false m e /\
    2 ^ (- e) <= Zpos m.
Proof.
  intros Hb Hle. unfold round_quotient.
  destruct a as [|pa|pa]; try lia. destruct b as [|pb|pb]; try lia.
  cbn [Z.abs Z.ltb Z.compare xorb].
  pose proof (SFdiv_core_binary_at_least_one pa 0 pb 0) as Hq.
  change (2 ^ (0 - Z.min 0 0)) with 1 in Hq. rewrite !Z.mul_1_r in Hq.
  specialize (Hq Hle).
  destruct (SFdiv_core_binary _ _ _ _ _ _) as [[q e] l].
  destruct Hq as [Hq1 Hq2].
  by apply binary_round_aux_at_least_one.
Qed.

(** Where [dt > T] is false and neither is a NaN, [dt <= T]. *)
Lemma not_gt_le x y :
  gt y x = false -> is_nan x = false -> is_nan y = false -> le y x = true.
Proof.
  unfold gt, le, compare.
  destruct x as [a|[]], y as [b|[]]; cbn [value_of is_nan f_is_nan];
    try done; try (by destruct s); try (by destruct s, s0);
    by destruct (dyadic_compare _ _ _ _).
Qed.

Lemma gt_not_nan y x : gt y x = true -> is_nan y = false.
Proof. unfold gt, compare. by destruct y as [b|[]]. Qed.

Lemma finite_not_nan x : is_finite x = true -> is_nan x = false.
Proof. by destruct x as [a|[]]. Qed.

End AtLeastOnePoint.

(** ** The order of [int]s and [float]s under conversion *)

Section Conversion.

(** *** Shifting out zeros *)

Lemma shr_1_double k :
  0 <= k ->
  shr_1 {| shr_m := 2 * k; shr_r := false; shr_s := false |} =
  {| shr_m := k; shr_r := false; shr_s := false |}.
Proof. by destruct k as [|p|p]; [| |lia]. Qed.

(** Shifting a multiple of [2 ^ p] right by [p] places loses nothing. *)
Lemma iter_pos_shr_exact p : forall k,
  0 <= k ->
  SpecFloat.iter_pos shr_1 p
    {| shr_m := k * 2 ^ Zpos p; shr_r := false; shr_s := false |} =
  {| shr_m := k; shr_r := false; shr_s := false |}.
Proof.
  assert (forall q, 0 < 2 ^ Zpos q) as Hpow
    by (intros q; apply Z.pow_pos_nonneg; lia).
  induction p as [p IH|p IH|]; intros k Hk; cbn [SpecFloat.iter_pos].
  - pose proof (Hpow p).
    replace (k * 2 ^ Zpos p~1) with (2 * (k * 2 ^ Zpos p * 2 ^ Zpos p)).
    2:{ replace (Zpos p~1) with (Zpos p + Zpos p + 1) by lia.
        rewrite !Z.pow_add_r, Z.pow_1_r by lia. lia. }
    rewrite shr_1_double by nia. rewrite IH by nia. by rewrite IH.
  - pose proof (Hpow p).
    replace (k * 2 ^ Zpos p~0) with (k * 2 ^ Zpos p * 2 ^ Zpos p).
    2:{ replace (Zpos p~0) with (Zpos p + Zpos p) by lia.
        rewrite Z.pow_add_r by lia. lia. }
    rewrite IH by nia. by rewrite IH.
  - rewrite Z.pow_1_r, Z.mul_comm. by apply shr_1_double.
Qed.

Lemma shr_fexp_exact k e n :
  0 <= k -> 0 < n ->
  fexp prec emax (Zdigits2 (k * 2 ^ n) + e) - e = n ->
  shr_fexp prec emax (k * 2 ^ n) e loc_Exact =
  ({| shr_m := k; shr_r := false; shr_s := false |}, e + n).
Proof.
  intros Hk Hn Hf. unfold shr_fexp, shr. rewrite Hf.
  destruct n as [|p|p]; try lia. cbn [shr_record_of_loc].
  by rewrite iter_pos_shr_exact.
Qed.

(** *** [float] of a positive [int] *)

(** An [int] of at most 53 binary digits converts exactly. *)
Lemma round_int_small a :
  1 <= a -> Zdigits2 a <= 53 ->
  exists m e,
    round_int a = S754_finite false m e /\ e <= 0 /\
    Zpos m = a * 2 ^ (- e).
Proof.
  intros Ha Hd. destruct a as [|p|p]; try lia.
  unfold round_int, binary_normalize, binary_round.
  pose proof (Zdigits2_pos (Zpos p) ltac:(lia)) as Hpos.
  change (Zpos (digits2_pos p)) with (Zdigits2 (Zpos p)).
  set (d := Zdigits2 (Zpos p)) in *.
  rewrite (fexp_normal (d + 0)) by lia.
  pose proof (shl_align_digits p 0 (d + 0 - 53)) as Hdig.
  unfold shl_align in *.
  destruct (d + 0 - 53 - 0) as [|k|k] eqn:Hk; try lia; cbn [fst snd] in Hdig.
  - exists p, 0. split; [|split; [lia|simpl; lia]].
    apply binary_round_aux_canonical; [|lia].
    change (Zpos (digits2_pos p)) with d. rewrite fexp_normal by lia. lia.
  - exists (Pos.iter xO p k), (d + 0 - 53). split; [|split; [lia|]].
    + apply binary_round_aux_canonical; [|lia].
      change (Zpos (digits2_pos (Pos.iter xO p k)))
        with (Zdigits2 (Zpos (Pos.iter xO p k))).
      rewrite Hdig. fold d. rewrite fexp_normal by lia. lia.
    + rewrite pos_iter_xO. do 2 f_equal. lia.
Qed.

(** A larger one is shifted right by [n] places and rounded: the result
    is [mr * 2 ^ n] with [mr] the shifted mantissa or the next integer,
    and the former when nothing was shifted out. *)
Lemma round_int_large a :
  1 <= a -> 53 < Zdigits2 a ->
  let n := Zdigits2 a - 53 in
  exists mr,
    a / 2 ^ n <= mr <= a / 2 ^ n + 1 /\
    (a mod 2 ^ n = 0 -> mr = a / 2 ^ n) /\
    2 ^ 52 <= mr /\
    (round_int a = S754_infinity false \/
     exists m e,
       round_int a = S754_finite false m e /\ n <= e /\
       Zpos m * 2 ^ (e - n) = mr).
Proof.
  intros Ha Hd n. destruct a as [|p|p]; try lia.
  unfold round_int, binary_normalize, binary_round.
  change (Zpos (digits2_pos p)) with (Zdigits2 (Zpos p)).
  set (a := Zpos p) in *. set (d := Zdigits2 a) in *.
  rewrite (fexp_normal (d + 0)) by lia.
  unfold shl_align.
  destruct (d + 0 - 53 - 0) as [|k|k] eqn:Hk; try lia.
  rewrite binary_round_aux_unfold. cbv zeta. fold a.
  assert (0 < 2 ^ n) as Hpow by (apply Z.pow_pos_nonneg; lia).
  pose proof (Zdigits2_bounds a ltac:(lia)) as [Hlo Hhi]. fold d in Hlo, Hhi.
  assert (2 ^ 52 <= a / 2 ^ n < 2 ^ 53) as Hq.
  { split.
    - apply Z.div_le_lower_bound; [done|].
      rewrite <- Z.pow_add_r by lia.
      by replace (n + 52) with (d - 1) by lia.
    - apply Z.div_lt_upper_bound; [done|].
      rewrite <- Z.pow_add_r by lia.
      by replace (n + 53) with d by lia. }
  assert (fexp prec emax (Zdigits2 a + 0) - 0 = n) as Hf
    by (fold d; rewrite fexp_normal by lia; lia).
  destruct (shr_fexp_m a 0 loc_Exact ltac:(lia)) as [Hm1 He1].
  cbv zeta in Hm1, He1. rewrite Hf in Hm1, He1.
  replace (0 <? n) with true in Hm1, He1 by (symmetry; apply Z.ltb_lt; lia).
  set (p1 := shr_fexp prec emax a 0 loc_Exact) in *.
  pose proof (round_nearest_even_bounds (shr_m (fst p1))
                (loc_of_shr_record (fst p1))) as Hr.
  assert (a mod 2 ^ n = 0 ->
          round_nearest_even (shr_m (fst p1)) (loc_of_shr_record (fst p1)) =
          a / 2 ^ n) as Hexact.
  { intros Hmod. subst p1.
    pose proof (Z.div_mod a (2 ^ n) ltac:(lia)) as Ha'.
    rewrite Hmod, Z.add_0_r, Z.mul_comm in Ha'.
    rewrite Ha' at 1 2. rewrite shr_fexp_exact; [done|lia|lia|].
    by rewrite <- Ha'. }
  set (mr := round_nearest_even _ _) in *.
  rewrite Hm1 in Hr. rewrite He1.
  exists mr. split; [lia|]. split; [done|]. split; [lia|].
  destruct (shr_fexp_m mr (0 + n) loc_Exact ltac:(lia)) as [Hm2 He2].
  cbv zeta in Hm2, He2.
  set (p2 := shr_fexp prec emax mr (0 + n) loc_Exact) in *.
  destruct (Z_lt_ge_dec mr (2 ^ 53)) as [Hlt|Hge].
  - rewrite (Zdigits2_unique mr 53) in Hm2, He2 by (simpl; lia).
    rewrite fexp_normal in Hm2, He2 by lia.
    replace (0 <? 53 + (0 + n) - 53 - (0 + n)) with false in Hm2, He2
      by (symmetry; apply Z.ltb_ge; lia).
    rewrite Hm2, He2.
    destruct mr as [|m|m] eqn:Hmr; try lia.
    destruct (_ <=? _); [right|by left]. exists m, (0 + n).
    split; [done|]. split; [lia|].
    replace (0 + n - n) with 0 by lia. simpl. lia.
  - assert (mr = 2 ^ 53) as Hmr by lia.
    rewrite (Zdigits2_unique mr 54) in Hm2, He2 by (simpl; lia).
    rewrite fexp_normal in Hm2, He2 by lia.
    replace (54 + (0 + n) - 53 - (0 + n)) with 1 in Hm2, He2 by lia.
    cbn [Z.ltb Z.compare] in Hm2, He2.
    rewrite Hm2, He2, Hmr. change (2 ^ 53 / 2 ^ 1) with (Zpos (2 ^ 52)%positive).
    destruct (_ <=? _); [right|by left].
    exists (2 ^ 52)%positive, (0 + n + 1).
    split; [done|]. split; [lia|].
    replace (0 + n + 1 - n) with 1 by lia. done.
Qed.

(** *** Order and conversion *)

(** [x <= y] on two numbers with values [m1 * 2 ^ e1] and [m2 * 2 ^ e2],
    brought to a common exponent [c]. *)
Lemma le_dyadic x y m1 e1 m2 e2 c :
  value_of x = XDyadic m1 e1 -> value_of y = XDyadic m2 e2 ->
  c <= e1 -> c <= e2 ->
  le x y = true <-> m1 * 2 ^ (e1 - c) <= m2 * 2 ^ (e2 - c).
Proof.
  intros Hx Hy H1 H2. unfold le, compare. rewrite Hx, Hy.
  unfold dyadic_compare. set (c0 := Z.min e1 e2).
  pose proof (pow2_pos (c0 - c) ltac:(lia)) as Hp.
  replace (e1 - c) with (e1 - c0 + (c0 - c)) by lia.
  replace (e2 - c) with (e2 - c0 + (c0 - c)) by lia.
  rewrite !Z.pow_add_r by lia.
  destruct (Z.compare_spec (m1 * 2 ^ (e1 - c0)) (m2 * 2 ^ (e2 - c0)));
    split; try done; intros; nia.
Qed.

Lemma valid_mantissa sx mx ex :
  valid_binary prec emax (S754_finite sx mx ex) = true -> Zpos mx < 2 ^ 53.
Proof.
  intros Hv. destruct (valid_binary_finite sx mx ex Hv) as [Hc _].
  pose proof (digits2_bounds mx) as [_ Hhi].
  assert (Zpos (digits2_pos mx) <= 53) as Hd
    by (unfold fexp, emin, prec, emax in Hc; lia).
  pose proof (Z.pow_le_mono_r 2 (Zpos (digits2_pos mx)) 53 ltac:(lia) Hd).
  lia.
Qed.

(** Converting an [int] to [float] does not take it below a [float] that
    is not above it. *)
Lemma float_of_int_above mg eg a f :
  valid_binary prec emax (S754_finite false mg eg) = true ->
  le (NFloat (S754_finite false mg eg)) (NInt a) = true ->
  float_of_int a = Ok f ->
  le (NFloat (S754_finite false mg eg)) (NFloat f) = true.
Proof.
  intros Hv Hle Hf. pose proof (valid_mantissa _ _ _ Hv) as Hmg.
  assert (1 <= a) as Ha.
  { apply (le_dyadic _ _ (Zpos mg) eg a 0 (Z.min eg 0)) in Hle;
      [|done|done|lia|lia].
    pose proof (pow2_pos (eg - Z.min eg 0) ltac:(lia)).
    pose proof (pow2_pos (0 - Z.min eg 0) ltac:(lia)). nia. }
  unfold float_of_int in Hf.
  destruct (Z_le_gt_dec (Zdigits2 a) 53) as [Hd|Hd].
  - destruct (round_int_small a Ha Hd) as (m & e & Hr & He & Hm).
    rewrite Hr in Hf. injection Hf as <-.
    apply (le_dyadic _ _ (Zpos mg) eg (Zpos m) e (Z.min eg e));
      [done|done|lia|lia|].
    apply (le_dyadic _ _ (Zpos mg) eg a 0 (Z.min eg e)) in Hle;
      [|done|done|lia|lia].
    rewrite Hm. rewrite <- Z.mul_assoc, <- Z.pow_add_r by lia.
    by replace (- e + (e - Z.min eg e)) with (0 - Z.min eg e) by lia.
  - destruct (round_int_large a Ha ltac:(lia))
      as (mr & Hmr & _ & Hlo & [Hr|(m & e & Hr & He & Hm)]);
      rewrite Hr in Hf; [done|]. injection Hf as <-.
    set (n := Zdigits2 a - 53) in *.
    assert (0 < 2 ^ n) as Hpow by (apply Z.pow_pos_nonneg; lia).
    destruct (Z_le_gt_dec n eg) as [Hge|Hlt].
    + apply (le_dyadic _ _ (Zpos mg) eg (Zpos m) e n);
        [done|done|lia|lia|].
      apply (le_dyadic _ _ (Zpos mg) eg a 0 0) in Hle;
        [|done|done|lia|lia].
      rewrite Z.sub_0_r, Z.pow_0_r, Z.mul_1_r in Hle. rewrite Hm.
      assert (Zpos mg * 2 ^ (eg - n) <= a / 2 ^ n); [|lia].
      apply Z.div_le_lower_bound; [done|].
      rewrite Z.mul_comm, <- Z.mul_assoc, <- Z.pow_add_r by lia.
      by replace (eg - n + n) with eg by lia.
    + apply (le_dyadic _ _ (Zpos mg) eg (Zpos m) e eg);
        [done|done|lia|lia|].
      rewrite Z.sub_diag, Z.pow_0_r, Z.mul_1_r.
      replace (e - eg) with (e - n + (n - eg)) by lia.
      rewrite Z.pow_add_r, Z.mul_assoc, Hm by lia.
      assert (2 ^ 1 <= 2 ^ (n - eg)) as Hp
        by (apply Z.pow_le_mono_r; lia).
      change (2 ^ 1) with 2 in Hp. change (2 ^ 52) with 4503599627370496 in Hlo.
      change (2 ^ 53) with 9007199254740992 in Hmg. nia.
Qed.

(** Converting an [int] to [float] does not take it above a [float] that
    is not below it. *)
Lemma float_of_int_below mf ef b g :
  valid_binary prec emax (S754_finite false mf ef) = true ->
  1 <= b ->
  le (NInt b) (NFloat (S754_finite false mf ef)) = true ->
  float_of_int b = Ok g ->
  le (NFloat g) (NFloat (S754_finite false mf ef)) = true.
Proof.
  intros Hv Hb Hle Hg. pose proof (valid_mantissa _ _ _ Hv) as Hmf.
  unfold float_of_int in Hg.
  destruct (Z_le_gt_dec (Zdigits2 b) 53) as [Hd|Hd].
  - destruct (round_int_small b Hb Hd) as (m & e & Hr & He & Hm).
    rewrite Hr in Hg. injection Hg as <-.
    apply (le_dyadic _ _ (Zpos m) e (Zpos mf) ef (Z.min e ef));
      [done|done|lia|lia|].
    apply (le_dyadic _ _ b 0 (Zpos mf) ef (Z.min e ef)) in Hle;
      [|done|done|lia|lia].
    rewrite Hm. rewrite <- Z.mul_assoc, <- Z.pow_add_r by lia.
    by replace (- e + (e - Z.min e ef)) with (0 - Z.min e ef) by lia.
  - destruct (round_int_large b Hb ltac:(lia))
      as (mr & Hmr & Hexact & Hlo & [Hr|(m & e & Hr & He & Hm)]);
      rewrite Hr in Hg; [done|]. injection Hg as <-.
    set (n := Zdigits2 b - 53) in *.
    assert (0 < 2 ^ n) as Hpow by (apply Z.pow_pos_nonneg; lia).
    pose proof (Zdigits2_bounds b ltac:(lia)) as [Hblo _].
    replace (Zdigits2 b - 1) with (52 + n) in Hblo by (subst n; lia).
    rewrite Z.pow_add_r in Hblo by lia.
    change (2 ^ 52) with 4503599627370496 in Hblo, Hlo.
    change (2 ^ 53) with 9007199254740992 in Hmf.
    destruct (Z_le_gt_dec n ef) as [Hge|Hlt].
    + apply (le_dyadic _ _ (Zpos m) e (Zpos mf) ef n);
        [done|done|lia|lia|].
      apply (le_dyadic _ _ b 0 (Zpos mf) ef 0) in Hle;
        [|done|done|lia|lia].
      replace (ef - 0) with (ef - n + n) in Hle by lia.
      replace (0 - 0) with 0 in Hle by lia.
      rewrite Z.pow_0_r, Z.mul_1_r, Z.pow_add_r, Z.mul_assoc in Hle by lia.
      rewrite Hm.
      set (Fk := Zpos mf * 2 ^ (ef - n)) in *.
      pose proof (Z.div_mod b (2 ^ n) ltac:(lia)) as Hdm.
      pose proof (Z.mod_pos_bound b (2 ^ n) Hpow) as Hmod.
      destruct (Z.eq_dec (b mod 2 ^ n) 0) as [H0|H0].
      * rewrite (Hexact H0). nia.
      * assert (b / 2 ^ n < Fk) by nia. lia.
    + exfalso.
      apply (le_dyadic _ _ b 0 (Zpos mf) ef (Z.min ef 0)) in Hle;
        [|done|done|lia|lia].
      destruct (Z_le_gt_dec 0 ef) as [H0|H0].
      * rewrite Z.min_r in Hle by lia.
        replace (ef - 0) with ef in Hle by lia.
        replace (0 - 0) with 0 in Hle by lia.
        rewrite Z.pow_0_r, Z.mul_1_r in Hle.
        assert (2 * 2 ^ ef <= 2 ^ n) as Hp.
        { rewrite <- (Z.pow_succ_r 2 ef) by lia.
          apply Z.pow_le_mono_r; lia. }
        pose proof (pow2_pos ef H0). nia.
      * rewrite Z.min_l, Z.sub_diag, Z.pow_0_r, Z.mul_1_r in Hle by lia.
        pose proof (pow2_pos (0 - ef) ltac:(lia)).
        pose proof (Z.pow_le_mono_r 2 1 n ltac:(lia) ltac:(lia)) as Hp.
        change (2 ^ 1) with 2 in Hp. nia.
Qed.

End Conversion.

(** ** A positive step *)

Section GridNotEmpty.

Implicit Types (kwargs : gmap string object) (T dt : object).

(** For [0 < dt <= T], the conversions to [float] that a division of
    mixed operands applies keep [dt <= T]. *)
Lemma to_float_le x y f g :
  gt y (NInt 0) = true -> le y x = true -> is_finite x = true ->
  well_formed x = true -> well_formed y = true ->
  (forall a b, x = NInt a -> y = NInt b -> False) ->
  to_float x = Ok f -> to_float y = Ok g ->
  le (NFloat g) (NFloat f) = true.
Proof.
  intros Hy Hle Hfin Hwx Hwy Hmixed Hf Hg.
  destruct x as [a|fx], y as [b|gy]; cbn [to_float] in Hf, Hg.
  - by destruct (Hmixed a b).
  - injection Hg as <-.
    destruct (gt_zero_float gy Hy) as [->|(mg & eg & ->)]; [done|].
    by apply (float_of_int_above mg eg a f).
  - injection Hf as <-. apply gt_zero_int in Hy.
    destruct fx as [sf|sf| |sf mf ef]; try done.
    + apply (le_dyadic _ _ b 0 0 0 0) in Hle; [|done|done|lia|lia]. lia.
    + destruct sf.
      * apply (le_dyadic _ _ b 0 (Zneg mf) ef (Z.min ef 0)) in Hle;
          [|done|done|lia|lia].
        pose proof (pow2_pos (0 - Z.min ef 0) ltac:(lia)).
        pose proof (pow2_pos (ef - Z.min ef 0) ltac:(lia)). nia.
      * by apply (float_of_int_below mf ef b g); [|lia| |].
  - by injection Hf as <-; injection Hg as <-.
Qed.

(** The quotient [T / dt] for [0 < dt <= T]: at least 1, or infinite. *)
Lemma truediv_at_least_one x y q :
  gt y (NInt 0) = true -> le y x = true -> is_finite x = true ->
  well_formed x = true -> well_formed y = true ->
  truediv x y = Ok q ->
  q = NFloat (S754_infinity false) \/
  exists m e, q = NFloat (S754_finite false m e) /\ 2 ^ (- e) <= Zpos m.
Proof.
  intros Hy Hle Hfin Hwx Hwy Hq.
  assert ((forall a b, x = NInt a -> y = NInt b -> False) ->
          bind (to_float x) (fun a => bind (to_float y) (fun b =>
            if f_is_zero b then Raise ZeroDivisionError
            else Ok (NFloat (fdiv a b)))) = Ok q ->
          q = NFloat (S754_infinity false) \/
          exists m e, q = NFloat (S754_finite false m e) /\
            2 ^ (- e) <= Zpos m) as Hop.
  { intros Hmixed.
    destruct (to_float x) as [f|] eqn:Hf; cbn [bind]; [|done].
    destruct (to_float y) as [g|] eqn:Hg; cbn [bind]; [|done].
    destruct (f_is_zero g); [done|]. intros [= <-].
    pose proof (to_float_le x y f g Hy Hle Hfin Hwx Hwy Hmixed Hf Hg) as Hfg.
    assert (gt (NFloat g) (NInt 0) = true) as Hgpos.
    { destruct y as [b|g']; [|by injection Hg as <-].
      apply gt_zero_int in Hy.
      destruct (float_of_int_cases b g Hg) as [[-> _]|[_ (m & e & ->)]];
        [lia|].
      replace (b <? 0) with false by (symmetry; apply Z.ltb_ge; lia).
      unfold gt, compare. cbn [value_of cond_Zopp].
      by rewrite dyadic_compare_zero. }
    pose proof (to_float_finite x f Hfin Hf) as Hff.
    destruct (fdiv_at_least_one f g Hgpos Hfg Hff) as [->|(m & e & -> & H)];
      eauto. }
  destruct x as [a|f], y as [b|g]; try (by apply Hop).
  apply gt_zero_int in Hy. rewrite le_int in Hle. apply Z.leb_le in Hle.
  unfold truediv in Hq.
  destruct (b =? 0); [done|].
  destruct (round_quotient_at_least_one a b Hy Hle)
    as [H|(m & e & H & Hm)]; rewrite H in Hq; [done|].
  injection Hq as <-. eauto.
Qed.

(** X13: a positive step leaves no grid empty.  In every construction
    that succeeds with [dt > 0], [T] and [dt] being [int]s or binary64
    numbers in any combination, [dt <= T] holds, the quotient [T / dt] is
    at least 1 after rounding, the time grid has [int(T / dt) >= 1]
    points, and its first point is [0.0]. *)
Theorem positive_step_grid_not_empty odeint beta gamma kwargs sim x y :
  __init__ odeint beta gamma kwargs = Ok sim ->
  number_of (_T sim) = Some x -> number_of (_dt sim) = Some y ->
  well_formed x = true -> well_formed y = true ->
  gt y (NInt 0) = true ->
  le y x = true /\
  exists q n,
    truediv x y = Ok q /\ int_of q = Ok n /\ 1 <= n /\
    length (_t sim) = Z.to_nat n /\
    _t sim !! 0%nat = Some pzero.
Proof.
  intros Hinit Hx Hy Hwx Hwy Hpos.
  destruct (init_inv _ _ _ _ _ Hinit) as (Hconf & _ & _ & _ & Hgrid & _).
  destruct (configure_ok_inv _ _ _ _ Hconf)
    as (_ & x' & y' & Hx' & Hy' & Hgt).
  assert (x' = x) as -> by congruence. assert (y' = y) as -> by congruence.
  destruct (time_grid_inv _ _ _ Hgrid)
    as (x' & y' & q & n & Hx'' & Hy'' & Hq & Hn & Hlin).
  assert (x' = x) as -> by congruence. assert (y' = y) as -> by congruence.
  pose proof (truediv_finite_numerator _ _ _ Hq (int_of_finite _ _ Hn))
    as Hfin.
  assert (le y x = true) as Hle.
  { apply not_gt_le; [done|by apply finite_not_nan|by eapply gt_not_nan]. }
  split; [done|]. exists q, n. split; [done|]. split; [done|].
  assert (1 <= n) as H1.
  { destruct (truediv_at_least_one x y q Hpos Hle Hfin Hwx Hwy Hq)
      as [->|(m & e & -> & Hm)]; [done|].
    destruct (int_of_at_least_one m e Hm) as (n' & Hn' & H1). congruence. }
  split; [done|].
  destruct (linspace_inv _ _ _ Hlin) as (_ & f & Hf & Hlen & _ & Hk).
  split; [done|].
  destruct (to_float_well_formed _ _ Hwx Hfin Hf) as [Hv Hff].
  destruct (Z.eq_dec n 1) as [->|Hne].
  - rewrite Hk by auto. f_equal. by apply linspace_first.
  - rewrite Hk by (left; lia). f_equal. by apply linspace_first.
Qed.

Lemma positive_step_grid_not_empty_witness :
  let beta := VFloat (round_quotient 3 10) in
  let gamma := VFloat (round_quotient 1 10) in
  let x := NInt 10 in
  let y := NFloat (round_quotient 1 2) in
  let kwargs :=
    <["T" := Obj (of_num x)]> (<["dt" := Obj (of_num y)]> ∅) in
  exists sim,
    __init__ Euler.odeint beta gamma kwargs = Ok sim /\
    (number_of (_T sim) = Some x /\ number_of (_dt sim) = Some y /\
     well_formed x = true /\ well_formed y = true /\
     gt y (NInt 0) = true) /\
    le y x = true /\
    exists q n,
      truediv x y = Ok q /\ int_of q = Ok n /\ 1 <= n /\
      length (_t sim) = Z.to_nat n /\
      _t sim !! 0%nat = Some pzero.
Proof.
  intros beta gamma x y kwargs.
  destruct (__init__ Euler.odeint beta gamma kwargs) as [sim|] eqn:Hinit;
    [|vm_compute in Hinit; discriminate].
  exists sim. split; [reflexivity|].
  destruct (init_inv _ _ _ _ _ Hinit) as (Hconf & _).
  assert (configure kwargs =
          Ok (Obj (VTuple [VInt 100; VInt 1; VInt 0]), Obj (of_num x),
              Obj (of_num y))) as Hc by reflexivity.
  rewrite Hc in Hconf. injection Hconf as _ HT Hdt.
  assert (number_of (_T sim) = Some x) as Hx by (by rewrite <- HT).
  assert (number_of (_dt sim) = Some y) as Hy by (by rewrite <- Hdt).
  split; [by repeat split|].
  apply (positive_step_grid_not_empty Euler.odeint beta gamma kwargs sim x y
           Hinit Hx Hy eq_refl eq_refl eq_refl).
Defined.

End GridNotEmpty.

(** ** A negative step *)

Section NegativeStep.

Implicit Types (kwargs : gmap string object) (T dt : object).

Lemma lt_zero_int b : gt (NInt 0) (NInt b) = true -> b < 0.
Proof.
  unfold gt, compare. cbn [value_of]. unfold dyadic_compare.
  change (2 ^ (0 - Z.min 0 0)) with 1. rewrite !Z.mul_1_r.
  destruct (Z.compare_spec 0 b); intros; try done; lia.
Qed.

Lemma lt_zero_float g :
  gt (NInt 0) (NFloat g) = true ->
  g = S754_infinity true \/ exists m e, g = S754_finite true m e.
Proof.
  unfold gt, compare. destruct g as [sg|sg| |sg m e]; cbn [value_of];
    try done.
  - destruct sg; [auto|done].
  - unfold dyadic_compare.
    pose proof (pow2_pos (e - Z.min 0 e) ltac:(lia)) as Hp.
    destruct sg; [eauto|]. cbn [cond_Zopp]. rewrite Z.mul_0_l.
    destruct (Z.compare_spec 0 (Zpos m * 2 ^ (e - Z.min 0 e))); try done; nia.
Qed.

(** A negative number is not above one that is not negative. *)
Lemma negative_not_gt x y :
  ge x (NInt 0) = true -> gt (NInt 0) y = true -> gt y x = false.
Proof.
  intros Hx Hy.
  assert (exists my ey, value_of y = XDyadic my ey /\ my < 0 \/
                        value_of y = XInf true) as (my & ey & Hvy).
  { destruct y as [b|g].
    - apply lt_zero_int in Hy. exists b, 0. by left.
    - destruct (lt_zero_float g Hy) as [->|(m & e & ->)].
      + exists 0, 0. by right.
      + exists (Zneg m), e. left. split; [done|lia]. }
  assert (exists mx ex, value_of x = XDyadic mx ex /\ 0 <= mx \/
                        value_of x = XInf false) as (mx & ex & Hvx).
  { destruct x as [a|f].
    - rewrite ge_zero_int in Hx. apply Z.leb_le in Hx.
      exists a, 0. by left.
    - rewrite ge_zero_float in Hx.
      destruct f as [sf|sf| |sf m e]; try done.
      + exists 0, 0. by left.
      + destruct sf; [done|]. exists 0, 0. by right.
      + destruct sf; [done|]. exists (Zpos m), e. left. split; [done|lia]. }
  unfold gt, compare.
  destruct Hvy as [[-> Hmy]| ->], Hvx as [[-> Hmx]| ->]; try done.
  unfold dyadic_compare.
  pose proof (pow2_pos (ey - Z.min ey ex) ltac:(lia)).
  pose proof (pow2_pos (ex - Z.min ey ex) ltac:(lia)).
  destruct (Z.compare_spec (my * 2 ^ (ey - Z.min ey ex))
              (mx * 2 ^ (ex - Z.min ey ex))); try done; nia.
Qed.

(** A quotient by a negative [float] of a [float] that is not negative
    is not positive. *)
Lemma fdiv_by_negative f g :
  f_nonnegative f || f_is_nan f = true ->
  (g = S754_infinity true \/ exists m e, g = S754_finite true m e) ->
  f_nonnegative (fopp (fdiv f g)) || f_is_nan (fdiv f g) = true.
Proof.
  intros Hf [->|(mg & eg & ->)].
  - by destruct f as [[]|[]| |[]].
  - destruct f as [[]|[]| |[] mf ef]; try done.
    unfold fdiv. cbn [SFdiv xorb].
    pose proof (SFdiv_core_binary_bounds mf ef mg eg) as Hb.
    destruct (SFdiv_core_binary _ _ _ _ _ _) as [[mz ez] lz].
    cbv zeta in Hb. destruct Hb as (Hq & _).
    destruct (binary_round_aux_sign true mz ez lz Hq)
      as [H|[(m & e & H)|H]]; by rewrite H.
Qed.

Lemma round_quotient_by_negative a b :
  0 <= a -> b < 0 ->
  f_nonnegative (fopp (round_quotient a b)) = true.
Proof.
  intros Ha Hb. unfold round_quotient.
  destruct b as [|pb|pb]; try lia.
  destruct a as [|pa|pa]; [done| |lia].
  cbn [Z.abs Z.ltb Z.compare xorb].
  pose proof (SFdiv_core_binary_bounds pa 0 pb 0) as Hbd.
  destruct (SFdiv_core_binary _ _ _ _ _ _) as [[mz ez] lz].
  cbv zeta in Hbd. destruct Hbd as (Hq & _).
  destruct (binary_round_aux_sign true mz ez lz Hq)
    as [H|[(m & e & H)|H]]; by rewrite H.
Qed.

(** [int] of a [float] that is not positive is not positive. *)
Lemma int_of_not_positive f n :
  f_nonnegative (fopp f) || f_is_nan f = true ->
  int_of (NFloat f) = Ok n -> n <= 0.
Proof.
  destruct f as [sf|sf| |sf m e]; cbn [int_of]; try done.
  - intros _ [= <-]. lia.
  - destruct sf; [|done]. intros _ [= <-]. cbn [cond_Zopp].
    destruct (0 <=? e) eqn:He.
    + apply Z.leb_le in He. pose proof (pow2_pos e He). nia.
    + apply Z.leb_gt in He. pose proof (pow2_pos (- e) ltac:(lia)).
      pose proof (Z.div_pos (Zpos m) (2 ^ (- e)) ltac:(lia) ltac:(lia)). lia.
Qed.

(** The number of grid points for a negative step. *)
Lemma truediv_by_negative x y q n :
  ge x (NInt 0) = true -> gt (NInt 0) y = true ->
  truediv x y = Ok q -> int_of q = Ok n -> n <= 0.
Proof.
  intros Hx Hy Hq Hn.
  assert (bind (to_float x) (fun a => bind (to_float y) (fun b =>
            if f_is_zero b then Raise ZeroDivisionError
            else Ok (NFloat (fdiv a b)))) = Ok q -> n <= 0) as Hop.
  { destruct (to_float x) as [f|] eqn:Hf; cbn [bind]; [|done].
    destruct (to_float y) as [g|] eqn:Hg; cbn [bind]; [|done].
    destruct (f_is_zero g); [done|]. intros [= <-].
    apply (int_of_not_positive (fdiv f g)); [|done].
    apply fdiv_by_negative.
    - apply (to_float_sign x); [by rewrite Hx|done].
    - destruct y as [b|g']; [|injection Hg as <-; by apply lt_zero_float].
      apply lt_zero_int in Hy. right.
      destruct (float_of_int_cases b g Hg) as [[-> _]|[_ (m & e & ->)]];
        [lia|].
      replace (b <? 0) with true by (symmetry; apply Z.ltb_lt; lia).
      eauto. }
  destruct x as [a|f], y as [b|g]; try (by apply Hop).
  apply lt_zero_int in Hy. rewrite ge_zero_int in Hx. apply Z.leb_le in Hx.
  unfold truediv in Hq. destruct (b =? 0); [done|].
  pose proof (round_quotient_by_negative a b Hx Hy) as Hs.
  destruct (round_quotient a b) as [sq|sq| |sq m e] eqn:Hr; try done;
    injection Hq as <-;
    (eapply int_of_not_positive; [|exact Hn]); by rewrite Hs.
Qed.

(** X14: a negative step gives no grid.  With [T >= 0] and [dt < 0] the
    checks pass, [dt > T] being false, and [int(T / dt)] is not positive:
    building the time grid raises or gives the empty grid, and a
    construction that succeeds has handed the integrator no time point at
    all. *)
Theorem negative_step_no_grid odeint beta gamma kwargs
    (N0 : object) T dt x y :
  merge kwargs !! "N0" = Some N0 -> is_tuple_list N0 = true ->
  merge kwargs !! "T" = Some T -> number_of T = Some x ->
  merge kwargs !! "dt" = Some dt -> number_of dt = Some y ->
  ge x (NInt 0) = true -> gt (NInt 0) y = true ->
  configure kwargs = Ok (N0, T, dt) /\
  (forall t, time_grid T dt = Ok t -> t = []) /\
  (forall sim, __init__ odeint beta gamma kwargs = Ok sim ->
     _t sim = [] /\ odeint beta gamma N0 (Ndarray []) = Ok (_n sim)).
Proof.
  intros HN Hseq HT Hx Hdt Hy Hpos Hneg.
  assert (configure kwargs = Ok (N0, T, dt)) as Hconf.
  { rewrite (configure_numbers kwargs N0 T dt x y) by done.
    by rewrite negative_not_gt. }
  assert (forall t, time_grid T dt = Ok t -> t = []) as Hgrid.
  { intros t Ht.
    destruct (time_grid_inv _ _ _ Ht)
      as (x' & y' & q & n & Hx' & Hy' & Hq & Hn & Hlin).
    assert (x' = x) as -> by congruence. assert (y' = y) as -> by congruence.
    pose proof (truediv_by_negative x y q n Hpos Hneg Hq Hn) as Hle.
    destruct (linspace_inv _ _ _ Hlin) as (H0 & f & _ & Hlen & _).
    assert (n = 0) as -> by lia. by destruct t. }
  split; [done|]. split; [done|].
  intros sim Hinit.
  destruct (init_inv _ _ _ _ _ Hinit) as (Hconf' & _ & _ & _ & Ht & Hode).
  rewrite Hconf in Hconf'. injection Hconf' as HN0 HT' Hdt'.
  rewrite <- HT', <- Hdt' in Ht. pose proof (Hgrid _ Ht) as Hempty.
  split; [done|]. by rewrite <- Hempty, HN0.
Qed.

Lemma negative_step_no_grid_witness :
  let beta := VFloat (round_quotient 3 10) in
  let gamma := VFloat (round_quotient 1 10) in
  let N0 := Obj (VTuple [VInt 100; VInt 1; VInt 0]) in
  let T := Obj (VInt 10) in
  let dt := Obj (VInt (-20)) in
  let kwargs := <["T" := T]> (<["dt" := dt]> ∅) in
  (merge kwargs !! "N0" = Some N0 /\ is_tuple_list N0 = true /\
   merge kwargs !! "T" = Some T /\ merge kwargs !! "dt" = Some dt /\
   ge (NInt 10) (NInt 0) = true /\ gt (NInt 0) (NInt (-20)) = true) /\
  (exists sim, __init__ Euler.odeint beta gamma kwargs = Ok sim) /\
  configure kwargs = Ok (N0, T, dt) /\
  (forall t, time_grid T dt = Ok t -> t = []) /\
  (forall sim, __init__ Euler.odeint beta gamma kwargs = Ok sim ->
     _t sim = [] /\ Euler.odeint beta gamma N0 (Ndarray []) = Ok (_n sim)).
Proof.
  intros beta gamma N0 T dt kwargs.
  split; [by repeat split|]. split.
  - destruct (__init__ Euler.odeint beta gamma kwargs) as [sim|] eqn:Hinit;
      [by exists sim|vm_compute in Hinit; discriminate].
  - apply (negative_step_no_grid Euler.odeint beta gamma kwargs N0 T dt
             (NInt 10) (NInt (-20))); reflexivity.
Defined.

End NegativeStep.
